(** * turbojugend-api: users, chapters and memberships over a relational store

    A shallow embedding of the three controllers
    ([memberships.controller.ts], [chapters.controller.ts],
    [users.controller.ts]), of the model constructors and of the part of the
    schema of [models/index.ts] the controllers depend on, followed by the
    properties of the specification that concern them.

    Conventions of the embedding.
    - A JavaScript string is a [string], read as the sequence of its
      character codes, all below 256; SQLite compares TEXT values for
      equality code by code, which is [String.eqb].
    - A JavaScript number is a double.  Where the code only counts (row
      ids, lengths) it is a [Z]; where it computes with what a request
      sends, the rounding of doubles is written out ([round_nearest_even],
      [Number]).
    - A field of a request body or of the query string is an [option string]:
      [None] is [undefined].
    - [new Date()] is the parameter [now] of a handler: the string of its
      ISO form where the handler stores [toISOString()], and its time
      value in milliseconds where it stores the [Date] itself
      ([createUser]).
    - The store is a record of three tables, each the list of its rows in
      insertion order; a statement either returns or throws ([outcome]), and
      a handler's [try]/[catch] turns a throw into the 500 response. *)

From Stdlib Require Import String Ascii List ZArith NArith Lia Bool.
From Stdlib Require Import Permutation Sorted QArith Qround.
From Stdlib Require Import DecimalString DecimalNat.
Import ListNotations.

Local Open Scope string_scope.
Local Open Scope list_scope.
Local Open Scope Z_scope.

(* ------------------------------------------------------------------ *)
(** ** JavaScript helpers *)

(** [!s] on a string: only the empty string is falsy. *)
Definition falsy (s : string) : bool :=
  match s with EmptyString => true | String _ _ => false end.

(** [!x] on a possibly undefined string. *)
Definition not_ (x : option string) : bool :=
  match x with None => true | Some s => falsy s end.

(** [x || d] on a possibly undefined string. *)
Definition or_str (x : option string) (d : string) : string :=
  match x with
  | None => d
  | Some s => if falsy s then d else s
  end.

(** [n || d] on a possibly undefined integer: [0] is falsy. *)
Definition or_num (x : option Z) (d : Z) : Z :=
  match x with
  | None => d
  | Some n => if n =? 0 then d else n
  end.

(** [x || d] where [x] is a possibly undefined object (always truthy). *)
Definition or_obj {A : Type} (x : option A) (d : A) : A :=
  match x with None => d | Some a => a end.

(** [s.includes(sub)]. *)
Fixpoint includes (s sub : string) : bool :=
  prefix sub s ||
  match s with
  | EmptyString => false
  | String _ r => includes r sub
  end.

(** [s.charAt(i)]: the one-character string at index [i], or the empty
    string when [i] is out of range. *)
Definition charAt (s : string) (i : Z) : string :=
  if (0 <=? i) && (i <? Z.of_nat (String.length s))
  then match String.get (Z.to_nat i) s with
       | Some c => String c EmptyString
       | None => EmptyString
       end
  else EmptyString.

(* ------------------------------------------------------------------ *)
(** ** SQLite scalar functions and comparisons *)

Definition code (c : ascii) : N := N_of_ascii c.

Definition is_upper (c : ascii) : bool :=
  ((65 <=? code c) && (code c <=? 90))%N.

(** SQLite's built-in [LOWER] folds the 26 ASCII letters only. *)
Definition lower_char (c : ascii) : ascii :=
  if is_upper c then ascii_of_N (code c + 32) else c.

Fixpoint LOWER (s : string) : string :=
  match s with
  | EmptyString => EmptyString
  | String c r => String (lower_char c) (LOWER r)
  end.

(** [LOWER(a) = LOWER(b)], the predicate of the case-insensitive lookups. *)
Definition lower_eqb (a b : string) : bool := (LOWER a =? LOWER b)%string.

(** "Equal ignoring case", as the specification words it: the two strings
    have the same length and, position by position, the characters are the
    same or are the upper and lower case form of one letter. *)
Definition same_letter (c d : ascii) : Prop :=
  c = d \/ (is_upper c = true /\ d = lower_char c)
        \/ (is_upper d = true /\ c = lower_char d).

Inductive eq_ignoring_case : string -> string -> Prop :=
| eic_nil : eq_ignoring_case EmptyString EmptyString
| eic_cons c d s t :
    same_letter c d -> eq_ignoring_case s t ->
    eq_ignoring_case (String c s) (String d t).

(* ------------------------------------------------------------------ *)
(** ** Entity records (models/users.ts, models/chapters.ts,
       models/memberships.ts) *)

(** What a DATETIME column of the users table holds.  The column has
    NUMERIC affinity: a number without fractional part is kept as an
    INTEGER, and a text that is no numeral as TEXT. *)
Inductive SqlValue :=
| SqlText (s : string)
| SqlInteger (n : Z).

(** A user.  The two dates are written as the store keeps them: the
    client binds a [Date] argument as its time value, the number of
    milliseconds since the epoch, and reads it back as that number. *)
Module User.
Record t := mk {
  ID : Z;
  User_ID : string;
  GoogleUserId : string;
  Email : string;
  Role : string;
  Status : string;
  CreatedAt : SqlValue;
  UpdatedAt : SqlValue
}.
End User.

Module Chapter.
Record t := mk {
  ID : Z;
  Chapter_Id : string;
  Chapter_Name : string;
  Chapter_Description : string;
  Created_By : string;
  Status : string;
  CreatedAt : string;
  UpdatedAt : string
}.

(** [Partial<Chapter>]: every field may be absent. *)
Record partial := mkPartial {
  pID : option Z;
  pChapter_Id : option string;
  pChapter_Name : option string;
  pChapter_Description : option string;
  pCreated_By : option string;
  pStatus : option string;
  pCreatedAt : option string;
  pUpdatedAt : option string
}.

(** [new ChapterModel(data)]; [uuid] is what [crypto.randomUUID()] would
    return and [now] what [new Date()] would. *)
Definition ChapterModel (uuid now : string) (data : partial) : t :=
  {| ID := or_num (pID data) 0;
     Chapter_Id := or_str (pChapter_Id data) uuid;
     Chapter_Name := or_str (pChapter_Name data) "";
     Chapter_Description := or_str (pChapter_Description data) "";
     Created_By := or_str (pCreated_By data) "";
     Status := or_str (pStatus data) "pending";
     CreatedAt := or_obj (pCreatedAt data) now;
     UpdatedAt := or_obj (pUpdatedAt data) now |}.
End Chapter.

Module Membership.
Record t := mk {
  ID : Z;
  User_ID : string;
  Chapter_Id : string;
  Chapter_Rank : string;
  Chapter_Status : string;
  Warrior_Name : string;
  CreatedAt : string;
  UpdatedAt : string
}.

(** [Partial<Membership>]. *)
Record partial := mkPartial {
  pID : option Z;
  pUser_ID : option string;
  pChapter_Id : option string;
  pChapter_Rank : option string;
  pChapter_Status : option string;
  pWarrior_Name : option string;
  pCreatedAt : option string;
  pUpdatedAt : option string
}.

(** [new MembershipModel(data)]. *)
Definition MembershipModel (now : string) (data : partial) : t :=
  {| ID := or_num (pID data) 0;
     User_ID := or_str (pUser_ID data) "";
     Chapter_Id := or_str (pChapter_Id data) "";
     Chapter_Rank := or_str (pChapter_Rank data) "member";
     Chapter_Status := or_str (pChapter_Status data) "pending";
     Warrior_Name := or_str (pWarrior_Name data) "";
     CreatedAt := or_obj (pCreatedAt data) now;
     UpdatedAt := or_obj (pUpdatedAt data) now |}.

(** The row the store keeps for an INSERT that names every column but
    [ID]. *)
Definition with_ID (id : Z) (m : t) : t :=
  {| ID := id;
     User_ID := User_ID m;
     Chapter_Id := Chapter_Id m;
     Chapter_Rank := Chapter_Rank m;
     Chapter_Status := Chapter_Status m;
     Warrior_Name := Warrior_Name m;
     CreatedAt := CreatedAt m;
     UpdatedAt := UpdatedAt m |}.
End Membership.

(* ------------------------------------------------------------------ *)
(** ** The store (schema of models/index.ts) *)

(** [memberships_seq] is the entry of [sqlite_sequence] for the memberships
    table, whose [ID] is [INTEGER PRIMARY KEY AUTOINCREMENT] and is left to
    the store by the controller. *)
Record Db := mkDb {
  users : list User.t;
  chapters : list Chapter.t;
  memberships : list Membership.t;
  memberships_seq : Z
}.

(** What [db.execute] gives back: a result, or an exception. *)
Inductive outcome (A : Type) : Type :=
| Ok (a : A)
| Throw (msg : string).
Arguments Ok {A} a.
Arguments Throw {A} msg.

(** [SELECT ... FROM users WHERE User_ID = ?] *)
Definition users_by_User_ID (id : string) (db : Db) : list User.t :=
  filter (fun u => User.User_ID u =? id)%string (users db).

(** [SELECT ... FROM chapters WHERE Chapter_Id = ?] *)
Definition chapters_by_Chapter_Id (id : string) (db : Db) : list Chapter.t :=
  filter (fun c => Chapter.Chapter_Id c =? id)%string (chapters db).

(** [SELECT * FROM memberships WHERE User_ID = ? AND Chapter_Id = ?] *)
Definition memberships_by_pair (uid cid : string) (db : Db)
  : list Membership.t :=
  filter (fun m => (Membership.User_ID m =? uid)%string
                   && (Membership.Chapter_Id m =? cid)%string)
         (memberships db).

(** [SELECT Warrior_Name FROM memberships
     WHERE LOWER(Warrior_Name) = LOWER(?)] *)
Definition memberships_by_warrior_name (name : string) (db : Db)
  : list Membership.t :=
  filter (fun m => lower_eqb (Membership.Warrior_Name m) name)
         (memberships db).

(** [SELECT Chapter_Name FROM chapters
     WHERE LOWER(Chapter_Name) = LOWER(?)] *)
Definition chapters_by_name (name : string) (db : Db) : list Chapter.t :=
  filter (fun c => lower_eqb (Chapter.Chapter_Name c) name) (chapters db).

(** The greatest [ID] of a list of ids, if any. *)
Fixpoint max_id (ids : list Z) : option Z :=
  match ids with
  | [] => None
  | x :: r => match max_id r with
              | None => Some x
              | Some y => Some (Z.max x y)
              end
  end.

(** The rowid AUTOINCREMENT assigns: one more than the largest rowid the
    table has ever held. *)
Definition next_rowid (seq : Z) (ids : list Z) : Z :=
  match max_id ids with
  | None => Z.max seq 0 + 1
  | Some m => Z.max seq m + 1
  end.

(** [INSERT INTO memberships (User_ID, Chapter_Id, Chapter_Rank,
    Chapter_Status, Warrior_Name, CreatedAt, UpdatedAt) VALUES (...)] under
    the table's constraints: the two foreign keys (enforced, since
    [initializeTables] runs [PRAGMA foreign_keys = ON]) and
    [UNIQUE(User_ID, Chapter_Id)]. *)
Definition insert_membership (row : Membership.t) (db : Db) : outcome Db :=
  if existsb (fun m => (Membership.User_ID m
                        =? Membership.User_ID row)%string
                       && (Membership.Chapter_Id m
                           =? Membership.Chapter_Id row)%string)
             (memberships db)
  then Throw "UNIQUE constraint failed: memberships.User_ID, Chapter_Id"
  else if negb (existsb (fun u => User.User_ID u
                                  =? Membership.User_ID row)%string
                        (users db))
          || negb (existsb (fun c => Chapter.Chapter_Id c
                                     =? Membership.Chapter_Id row)%string
                           (chapters db))
  then Throw "FOREIGN KEY constraint failed"
  else
    let id := next_rowid (memberships_seq db)
                         (map Membership.ID (memberships db)) in
    Ok {| users := users db;
          chapters := chapters db;
          memberships := memberships db ++ [Membership.with_ID id row];
          memberships_seq := id |}.

(** [INSERT INTO chapters (ID, Chapter_Id, ...) VALUES (...)] with the [ID]
    given by the caller, under [PRIMARY KEY] and [Chapter_Id ... UNIQUE]. *)
Definition insert_chapter (row : Chapter.t) (db : Db) : outcome Db :=
  if existsb (fun c => Chapter.ID c =? Chapter.ID row) (chapters db)
  then Throw "UNIQUE constraint failed: chapters.ID"
  else if existsb (fun c => Chapter.Chapter_Id c
                            =? Chapter.Chapter_Id row)%string (chapters db)
  then Throw "UNIQUE constraint failed: chapters.Chapter_Id"
  else Ok {| users := users db;
             chapters := chapters db ++ [row];
             memberships := memberships db;
             memberships_seq := memberships_seq db |}.

(** [DELETE FROM users WHERE <p>]: the statement fails, and deletes nothing,
    when a membership row still references one of the rows it would remove
    ([FOREIGN KEY (User_ID) REFERENCES users(User_ID)], no ON DELETE
    action). *)
Definition delete_users (p : User.t -> bool) (db : Db) : outcome Db :=
  if existsb (fun u => p u
                && existsb (fun m => Membership.User_ID m
                                     =? User.User_ID u)%string
                           (memberships db))
             (users db)
  then Throw "FOREIGN KEY constraint failed"
  else Ok {| users := filter (fun u => negb (p u)) (users db);
             chapters := chapters db;
             memberships := memberships db;
             memberships_seq := memberships_seq db |}.

(* ------------------------------------------------------------------ *)
(** ** HTTP responses *)

Inductive Json : Type :=
| JMessage (success : bool) (message : string)
    (** [{ success, message }] *)
| JError (error : string)
    (** [{ error }] *)
| JMembership (success : bool) (data : option Membership.t)
    (** [{ success, data: row }]; [None] is [rows[0]] of an empty result *)
| JAvailability (success : bool) (isAvailable : bool) (warriorName : string)
    (** [{ success, data: { isAvailable, warriorName } }] *)
| JChapter (chapter : Chapter.t)
    (** the chapter record itself *)
| JChapters (rows : list (string * string)) (total page limit totalPages : Z)
    (** [{ chapters: [{Chapter_Id, Chapter_Name}],
           pagination: { total, page, limit, totalPages } }] *).

Record Response := mkResponse { status : Z; body : Json }.

(* ------------------------------------------------------------------ *)
(** ** MembershipsController *)

(** The body of POST /memberships/create. *)
Record MembershipBody := mkMembershipBody {
  req_User_ID : option string;
  req_Chapter_Id : option string;
  req_Chapter_Rank : option string;
  req_Warrior_Name : option string
}.

Definition createMembership (now : string) (req : MembershipBody) (db : Db)
  : Response * Db :=
  if not_ (req_User_ID req) || not_ (req_Chapter_Id req)
     || not_ (req_Warrior_Name req)
  then (mkResponse 400 (JMessage false
          "Missing required fields: User_ID, Chapter_Id, and Warrior_Name are required"),
        db)
  else
    let User_ID := or_str (req_User_ID req) "" in
    let Chapter_Id := or_str (req_Chapter_Id req) "" in
    let Warrior_Name := or_str (req_Warrior_Name req) "" in
    let userExists := users_by_User_ID User_ID db in
    if (length userExists =? 0)%nat
    then (mkResponse 404 (JMessage false "User not found"), db)
    else
      let chapterExists := chapters_by_Chapter_Id Chapter_Id db in
      if (length chapterExists =? 0)%nat
      then (mkResponse 404 (JMessage false "Chapter not found"), db)
      else
        let existingMembership := memberships_by_pair User_ID Chapter_Id db in
        if (0 <? length existingMembership)%nat
        then (mkResponse 400
                (JMessage false "User is already a member of this chapter"),
              db)
        else
          let existingWarriorName :=
            memberships_by_warrior_name Warrior_Name db in
          if (0 <? length existingWarriorName)%nat
          then (mkResponse 400
                  (JMessage false "Warrior name is already taken"), db)
          else
            let membership :=
              Membership.MembershipModel now
                {| Membership.pID := None;
                   Membership.pUser_ID := Some User_ID;
                   Membership.pChapter_Id := Some Chapter_Id;
                   Membership.pChapter_Rank :=
                     Some (or_str (req_Chapter_Rank req) "member");
                   Membership.pChapter_Status := Some "pending";
                   Membership.pWarrior_Name := Some Warrior_Name;
                   Membership.pCreatedAt := None;
                   Membership.pUpdatedAt := None |} in
            match insert_membership membership db with
            | Throw _ =>
                (mkResponse 500
                   (JMessage false "Error creating membership"), db)
            | Ok db' =>
                let createdMembership :=
                  memberships_by_pair User_ID Chapter_Id db' in
                (mkResponse 201
                   (JMembership true (hd_error createdMembership)), db')
            end.

Definition checkWarriorNameAvailability (warriorName : option string)
  (db : Db) : Response :=
  if not_ warriorName
  then mkResponse 400
         (JMessage false "Missing required field: warriorName is required")
  else
    let name := or_str warriorName "" in
    let existingWarriorName := memberships_by_warrior_name name db in
    mkResponse 200
      (JAvailability true (length existingWarriorName =? 0)%nat name).

(* ------------------------------------------------------------------ *)
(** ** ChaptersController *)

(** *** Doubles

    A JavaScript number is an IEEE 754 binary64 value.  A non-negative
    finite one is written here as the integer [n] of its multiples of a
    unit [u], a power of two: [n] counts whole numbers when [u = 1] and
    multiples of the least positive double when [u = 2^-1074].  Such an
    [n] is a double exactly when it has at most 53 significant bits (with
    [u = 2^-1074] this covers the subnormal doubles, which have fewer). *)

(** The least positive double is [2^-1074]: [ulps] of them make 1. *)
Definition ulps : Z := 2 ^ 1074.

(** The number of low bits of [n] that do not fit the 53-bit
    significand. *)
Definition excess (n : Z) : Z := Z.max 0 (Z.log2 n + 1 - 53).

(** The greatest double that is at most [n] (for [0 <= n]). *)
Definition round_down (n : Z) : Z :=
  let s := excess n in (n / 2 ^ s) * 2 ^ s.

(** The double nearest to [n], the one with the even significand when [n]
    is half way between two (roundTiesToEven, the rounding of every
    arithmetic operation of JavaScript); for [0 <= n]. *)
Definition round_nearest_even (n : Z) : Z :=
  let s := excess n in
  if s =? 0 then n
  else
    let q := n / 2 ^ s in
    let rem := n mod 2 ^ s in
    let half := 2 ^ (s - 1) in
    let up := (half <? rem) || ((rem =? half) && Z.odd q) in
    (if up then q + 1 else q) * 2 ^ s.

(** The source of randomness: [rnd n] is the value the [n]-th call of
    [Math.random()] returns, a rational in [0, 1).  A handler threads the
    number of calls made so far. *)
Definition Random := nat -> Q.

Definition chars : string := "abcdefghijklmnopqrstuvwxyz1234567890".

(** [Math.random()] returns a double.  When the source value is [r], the
    double is [r] itself if [r] is one, and the next double below [r]
    otherwise; it is given in units of [2^-1074]. *)
Definition Math_random (r : Q) : Z :=
  round_down (Qfloor (r * inject_Z ulps)).

(** [Math.floor(Math.random() * chars.length)].  The factors are doubles
    ([chars.length] is 36) and [*] is the multiplication of doubles: the
    exact product rounded to the nearest double, ties to even.
    [Math.floor] then takes the whole units of the rounded product. *)
Definition random_index (r : Q) : Z :=
  round_nearest_even (Math_random r * Z.of_nat (String.length chars)) / ulps.

(** The [for] loop of [generateChapterId], [n] iterations left. *)
Fixpoint generate_loop (rnd : Random) (k n : nat) (result : string)
  : string * nat :=
  match n with
  | O => (result, k)
  | S n' =>
      generate_loop rnd (S k) n'
        (result ++ charAt chars (random_index (rnd k)))%string
  end.

Definition generateChapterId (rnd : Random) (k : nat) : string * nat :=
  generate_loop rnd k 6 "".

(** ORDER BY Chapter_Name (BINARY collation): insertion sort on the names,
    rows of equal name kept in table order. *)
Fixpoint insert_by_name (c : Chapter.t) (l : list Chapter.t)
  : list Chapter.t :=
  match l with
  | [] => [c]
  | d :: r =>
      if (Chapter.Chapter_Name c <=? Chapter.Chapter_Name d)%string
      then c :: l
      else d :: insert_by_name c r
  end.

Definition order_by_Chapter_Name (l : list Chapter.t) : list Chapter.t :=
  fold_right insert_by_name [] l.

(** [LIMIT ? OFFSET ?]: SQLite reads a negative offset as no offset and a
    negative limit as no limit. *)
Definition limit_offset {A : Type} (limit offset : Z) (rows : list A)
  : list A :=
  let rest := skipn (Z.to_nat offset) rows in
  if limit <? 0 then rest else firstn (Z.to_nat limit) rest.

(** [Math.ceil(n / d)] for a non-zero [d]. *)
Definition ceil_div (n d : Z) : Z := - ((- n) / d).

(** Whitespace that [parseInt] skips, among the characters below 256. *)
Definition is_space (c : ascii) : bool :=
  let n := code c in
  ((9 <=? n) && (n <=? 13) || (n =? 32) || (n =? 160))%N.

Fixpoint trim_start (s : string) : string :=
  match s with
  | EmptyString => EmptyString
  | String c r => if is_space c then trim_start r else s
  end.

(** The value of [c] as a digit in base [radix], if it is one. *)
Definition digit_value (radix : Z) (c : ascii) : option Z :=
  let n := Z.of_N (code c) in
  let v := if (48 <=? n) && (n <=? 57) then Some (n - 48)
           else if (97 <=? n) && (n <=? 122) then Some (n - 87)
           else if (65 <=? n) && (n <=? 90) then Some (n - 55)
           else None in
  match v with
  | Some d => if d <? radix then Some d else None
  | None => None
  end.

(** The value of the longest prefix of digits; [acc] is [None] until a
    first digit has been read. *)
Fixpoint parse_digits (radix : Z) (s : string) (acc : option Z) : option Z :=
  match s with
  | EmptyString => acc
  | String c r =>
      match digit_value radix c with
      | Some d =>
          parse_digits radix r
            (Some (match acc with Some a => a * radix + d | None => d end))
      | None => acc
      end
  end.

(** The optional sign [parseInt] reads, and what follows it. *)
Definition sign_of (s : string) : Z * string :=
  match s with
  | String c r =>
      if (c =? "-")%char then (-1, r)
      else if (c =? "+")%char then (1, r)
      else (1, s)
  | EmptyString => (1, s)
  end.

(** The radix [parseInt] settles on when none is given: 16 after a [0x] or
    [0X] prefix, which it strips, and 10 otherwise. *)
Definition radix_of (s : string) : Z * string :=
  match s with
  | String c (String x r) =>
      if (c =? "0")%char && ((x =? "x")%char || (x =? "X")%char)
      then (16, r)
      else (10, s)
  | _ => (10, s)
  end.

(** The integer that [parseInt(s)], without a radix argument, reads in
    [s], sign applied ([mathInt] in ECMAScript's definition of [parseInt]);
    [None] when there is no digit to read. *)
Definition mathInt (input : string) : option Z :=
  let '(sign, s) := sign_of (trim_start input) in
  let '(radix, s) := radix_of s in
  match parse_digits radix s None with
  | Some n => Some (sign * n)
  | None => None
  end.

(** The numbers [getChapters] computes with: all are whole, or [NaN], or
    infinite.  [Finite n] is a double, so [n] has at most 53 significant
    bits and magnitude below [2^1024]; [Finite 0] stands for both zeros,
    which the handler does not tell apart. *)
Inductive Number :=
| NaN
| Finite (n : Z)
| Infinity (negative : bool).

(** The double of the integer [z]: the nearest one, ties to even, and an
    infinity when that is beyond the greatest double. *)
Definition number_of_int (z : Z) : Number :=
  let m := round_nearest_even (Z.abs z) in
  if 2 ^ 1024 <=? m then Infinity (z <? 0) else Finite (Z.sgn z * m).

(** [parseInt(s)]: [NaN] when there is no digit to read, and otherwise the
    double of the integer read. *)
Definition parseInt (input : string) : Number :=
  match mathInt input with
  | Some n => number_of_int n
  | None => NaN
  end.

(** [x || d] on numbers: [NaN] and the zeros are falsy. *)
Definition or_number (x d : Number) : Number :=
  match x with
  | NaN => d
  | Finite n => if n =? 0 then d else x
  | Infinity _ => x
  end.

(** [x - y] on doubles. *)
Definition number_sub (x y : Number) : Number :=
  match x, y with
  | NaN, _ | _, NaN => NaN
  | Finite a, Finite b => number_of_int (a - b)
  | Infinity s, Finite _ => Infinity s
  | Finite _, Infinity s => Infinity (negb s)
  | Infinity s, Infinity s' => if Bool.eqb s s' then NaN else Infinity s
  end.

(** [x * y] on doubles. *)
Definition number_mul (x y : Number) : Number :=
  match x, y with
  | NaN, _ | _, NaN => NaN
  | Finite a, Finite b => number_of_int (a * b)
  | Infinity s, Finite b =>
      if b =? 0 then NaN else Infinity (xorb s (b <? 0))
  | Finite a, Infinity s =>
      if a =? 0 then NaN else Infinity (xorb s (a <? 0))
  | Infinity s, Infinity s' => Infinity (xorb s s')
  end.

(** A number given as argument of [LIMIT ?] or [OFFSET ?].  The client
    refuses [NaN] and the infinities with a RangeError and binds any other
    number as a REAL; SQLite takes a REAL there only if it is a whole
    number strictly between [-2^63] and [2^63], and otherwise fails with
    "datatype mismatch".  [None] is either failure. *)
Definition sql_integer (x : Number) : option Z :=
  match x with
  | Finite n => if (- 2 ^ 63 <? n) && (n <? 2 ^ 63) then Some n else None
  | _ => None
  end.

(** [ToString] of a query-string field. *)
Definition ToString (x : option string) : string :=
  match x with None => "undefined" | Some s => s end.

(** [getChapters].  Both failures of the second statement are thrown
    inside the [try] and answered by its [catch].  An infinite [page]
    makes [offset] infinite (or [NaN]), so a page that is echoed is
    finite.  The table holds fewer than [2^53] rows, so that its count is
    a double and [Math.ceil(total / limit)] is the ceiling of the exact
    quotient. *)
Definition getChapters (qpage qlimit : option string) (db : Db) : Response :=
  let page := or_number (parseInt (ToString qpage)) (Finite 1) in
  let limit := or_number (parseInt (ToString qlimit)) (Finite 50) in
  let offset := number_mul (number_sub page (Finite 1)) limit in
  let total := Z.of_nat (length (chapters db)) in
  match page, sql_integer limit, sql_integer offset with
  | Finite page, Some limit, Some offset =>
      let rows :=
        limit_offset limit offset (order_by_Chapter_Name (chapters db)) in
      mkResponse 200
        (JChapters
           (map (fun c => (Chapter.Chapter_Id c, Chapter.Chapter_Name c))
              rows)
           total page limit (ceil_div total limit))
  | _, _, _ => mkResponse 500 (JError "Failed to fetch chapters")
  end.

(** The body of POST /chapters, after the validation middleware. *)
Record ChapterBody := mkChapterBody {
  req_Chapter_Name : string;
  req_Chapter_Description : string;
  req_Created_By : string
}.

(** [createChapter]; the result carries the number of [Math.random()] calls
    made when the handler returns. *)
Definition createChapter (rnd : Random) (k : nat) (uuid now : string)
  (req : ChapterBody) (db : Db) : Response * Db * nat :=
  let '(Chapter_Id, k1) := generateChapterId rnd k in
  let existingName := chapters_by_name (req_Chapter_Name req) db in
  if (0 <? length existingName)%nat
  then (mkResponse 400
          (JError "Chapter name already exists (case-insensitive)"), db, k1)
  else
    let existingId := chapters_by_Chapter_Id Chapter_Id db in
    if (0 <? length existingId)%nat
    then
      let '(newChapterId, k2) := generateChapterId rnd k1 in
      (mkResponse 400
         (JError "Generated chapter ID already exists, please try again"),
       db, k2)
    else
      (* SELECT ID FROM chapters ORDER BY ID DESC LIMIT 1 *)
      let lastChapter := max_id (map Chapter.ID (chapters db)) in
      let lastId := match lastChapter with Some id => id | None => 0 end in
      let nextId := lastId + 1 in
      let chapter :=
        Chapter.ChapterModel uuid now
          {| Chapter.pID := Some nextId;
             Chapter.pChapter_Id := Some Chapter_Id;
             Chapter.pChapter_Name := Some (req_Chapter_Name req);
             Chapter.pChapter_Description :=
               Some (req_Chapter_Description req);
             Chapter.pCreated_By := Some (req_Created_By req);
             Chapter.pStatus := Some "pending";
             Chapter.pCreatedAt := Some now;
             Chapter.pUpdatedAt := Some now |} in
      match insert_chapter chapter db with
      | Throw _ =>
          (mkResponse 500 (JError "Failed to create chapter"), db, k1)
      | Ok db' => (mkResponse 201 (JChapter chapter), db', k1)
      end.

(* ------------------------------------------------------------------ *)
(** ** UsersController *)

Definition is_hex (c : ascii) : bool :=
  let n := code c in
  ((48 <=? n) && (n <=? 57) || (97 <=? n) && (n <=? 102)
   || (65 <=? n) && (n <=? 70))%N.

(** [[0-9a-f]{n}] (flag i) at the head of [s]: what follows the run. *)
Fixpoint hex_run (n : nat) (s : string) : option string :=
  match n with
  | O => Some s
  | S n' =>
      match s with
      | String c r => if is_hex c then hex_run n' r else None
      | EmptyString => None
      end
  end.

(** A literal [-] at the head of [s]. *)
Definition dash (s : string) : option string :=
  match s with
  | String "-" r => Some r
  | _ => None
  end.

Definition and_then {A B : Type} (x : option A) (f : A -> option B)
  : option B :=
  match x with Some a => f a | None => None end.

(** [/^[0-9a-f]{8}-[0-9a-f]{4}-[0-9a-f]{4}-[0-9a-f]{4}-[0-9a-f]{12}$/i
    .test(s)] *)
Definition uuid_shape (s : string) : bool :=
  match
    and_then (and_then (and_then (and_then (and_then (and_then (and_then
      (and_then (hex_run 8 s) dash) (hex_run 4)) dash) (hex_run 4)) dash)
      (hex_run 4)) dash) (hex_run 12)
  with
  | Some EmptyString => true
  | _ => false
  end.

(** The WHERE clause [deleteUser] builds: the column it compares. *)
Inductive Query : Type := Email_eq | User_ID_eq | GoogleUserId_eq.

Definition column (q : Query) (u : User.t) : string :=
  match q with
  | Email_eq => User.Email u
  | User_ID_eq => User.User_ID u
  | GoogleUserId_eq => User.GoogleUserId u
  end.

Definition select_query (identifier : string) : Query :=
  if includes identifier "@" then Email_eq
  else if uuid_shape identifier then User_ID_eq
  else GoogleUserId_eq.

(** [WHERE <column> = ?] with the identifier as argument. *)
Definition where_ (q : Query) (identifier : string) (u : User.t) : bool :=
  (column q u =? identifier)%string.

Definition deleteUser (identifier : string) (db : Db) : Response * Db :=
  let query := select_query identifier in
  let existingUser := filter (where_ query identifier) (users db) in
  if (length existingUser =? 0)%nat
  then (mkResponse 404 (JError "User not found"), db)
  else
    match delete_users (where_ query identifier) db with
    | Throw _ =>
        (mkResponse 500
           (JMessage false "Internal server error while deleting user"), db)
    | Ok db' =>
        (mkResponse 200 (JMessage true "User deleted successfully"), db')
    end.

(* ------------------------------------------------------------------ *)
(** ** The vocabulary of the specification *)

(** The user reference resolves to a User row. *)
Definition user_exists (uid : string) (db : Db) : Prop :=
  exists u, In u (users db) /\ User.User_ID u = uid.

(** The chapter reference resolves to a Chapter row. *)
Definition chapter_exists (cid : string) (db : Db) : Prop :=
  exists c, In c (chapters db) /\ Chapter.Chapter_Id c = cid.

(** The (user, chapter) pair is already present. *)
Definition is_member (uid cid : string) (db : Db) : Prop :=
  exists m, In m (memberships db)
            /\ Membership.User_ID m = uid /\ Membership.Chapter_Id m = cid.

(** Some membership, of any chapter, bears the display name up to case. *)
Definition warrior_name_taken (name : string) (db : Db) : Prop :=
  exists m, In m (memberships db)
            /\ eq_ignoring_case (Membership.Warrior_Name m) name.

(** Some chapter bears the name up to case. *)
Definition chapter_name_taken (name : string) (db : Db) : Prop :=
  exists c, In c (chapters db)
            /\ eq_ignoring_case (Chapter.Chapter_Name c) name.

(** The pair of references of a membership row. *)
Definition pair_of (m : Membership.t) : string * string :=
  (Membership.User_ID m, Membership.Chapter_Id m).

(** The membership invariant of the data model: pairs are distinct and both
    references of every row resolve. *)
Definition membership_inv (db : Db) : Prop :=
  NoDup (map pair_of (memberships db))
  /\ forall m, In m (memberships db) ->
       user_exists (Membership.User_ID m) db
       /\ chapter_exists (Membership.Chapter_Id m) db.

(** The row [createMembership] hands to the INSERT. *)
Definition new_membership (now uid cid : string) (rank : option string)
  (name : string) : Membership.t :=
  Membership.MembershipModel now
    {| Membership.pID := None;
       Membership.pUser_ID := Some uid;
       Membership.pChapter_Id := Some cid;
       Membership.pChapter_Rank := Some (or_str rank "member");
       Membership.pChapter_Status := Some "pending";
       Membership.pWarrior_Name := Some name;
       Membership.pCreatedAt := None;
       Membership.pUpdatedAt := None |}.

(** Sample rows and stores. *)
Definition ann : User.t :=
  User.mk 1 "7f1c2a40-0000-4000-8000-00000000000a" "google-ann"
    "ann@example.com" "user" "pending" (SqlInteger 1704067200000)
    (SqlInteger 1704067200000).

Definition alpha : Chapter.t :=
  Chapter.mk 1 "abc123" "Alpha" "first chapter"
    "7f1c2a40-0000-4000-8000-00000000000a" "pending"
    "2024-01-01T00:00:00.000Z" "2024-01-01T00:00:00.000Z".

Definition ann_in_alpha : Membership.t :=
  Membership.mk 1 "7f1c2a40-0000-4000-8000-00000000000a" "abc123" "member"
    "pending" "TestWarrior" "2024-01-02T00:00:00.000Z"
    "2024-01-02T00:00:00.000Z".

Definition beta : Chapter.t :=
  Chapter.mk 2 "xyz789" "Beta" "second chapter"
    "7f1c2a40-0000-4000-8000-00000000000a" "pending"
    "2024-01-03T00:00:00.000Z" "2024-01-03T00:00:00.000Z".

Definition db_empty : Db := mkDb [] [] [] 0.
Definition db_two_chapters : Db := mkDb [ann] [alpha; beta] [ann_in_alpha] 1.
Definition db_ann_alpha : Db := mkDb [ann] [alpha] [] 0.
Definition db_joined : Db := mkDb [ann] [alpha] [ann_in_alpha] 1.

(** A character of the class [[a-z0-9]]. *)
Definition lower_letter_or_digit (c : ascii) : Prop :=
  (97 <= code c <= 122)%N \/ (48 <= code c <= 57)%N.

Definition is_lower_alnum (c : ascii) : bool :=
  let n := code c in
  ((97 <=? n) && (n <=? 122) || (48 <=? n) && (n <=? 57))%N.

(** The string matches [/^[a-z0-9]{6}$/]. *)
Definition id_pattern (s : string) : Prop :=
  String.length s = 6%nat
  /\ forall i c, String.get i s = Some c -> lower_letter_or_digit c.

(** Every value of the random source lies in [0, 1), as [Math.random()]
    promises. *)
Definition in_unit_interval (rnd : Random) : Prop :=
  forall n, (0 <= rnd n)%Q /\ (rnd n < 1)%Q.

(** The identifier [createChapter] draws when [k] calls of [Math.random()]
    have been made. *)
Definition drawn_id (rnd : Random) (k : nat) : string :=
  fst (generateChapterId rnd k).

(** [m] is the greatest numeric id of the chapters table. *)
Definition greatest_chapter_id (m : Z) (db : Db) : Prop :=
  (exists c, In c (chapters db) /\ Chapter.ID c = m)
  /\ forall c, In c (chapters db) -> Chapter.ID c <= m.

(** The record [createChapter] builds once both conflict checks passed. *)
Definition new_chapter (uuid now id : string) (req : ChapterBody) (db : Db)
  : Chapter.t :=
  Chapter.ChapterModel uuid now
    {| Chapter.pID :=
         Some (match max_id (map Chapter.ID (chapters db)) with
               | Some id => id
               | None => 0
               end + 1);
       Chapter.pChapter_Id := Some id;
       Chapter.pChapter_Name := Some (req_Chapter_Name req);
       Chapter.pChapter_Description := Some (req_Chapter_Description req);
       Chapter.pCreated_By := Some (req_Created_By req);
       Chapter.pStatus := Some "pending";
       Chapter.pCreatedAt := Some now;
       Chapter.pUpdatedAt := Some now |}.

(** A random source for the examples: the draws cycle through seven values
    of [0, 1). *)
Definition rnd_cycle : Random := fun n => (Z.of_nat (n mod 7) # 7)%Q.

(** A random source whose every draw is 0. *)
Definition rnd_zero : Random := fun _ => 0%Q.

(** A random source whose every draw is the double
    [3127499741229511 / 2^52]: its exact product with 36 is [25 - 2^-50],
    which is no double and rounds to 25. *)
Definition rnd_edge : Random :=
  fun _ => (3127499741229511 # 4503599627370496)%Q.

(** A chapter whose identifier is the one [rnd_zero] draws. *)
Definition gamma : Chapter.t :=
  Chapter.mk 4 "aaaaaa" "Gamma" "third chapter"
    "7f1c2a40-0000-4000-8000-00000000000a" "pending"
    "2024-01-04T00:00:00.000Z" "2024-01-04T00:00:00.000Z".

Definition db_gamma : Db := mkDb [ann] [gamma] [] 0.

Definition req_Alpha : ChapterBody := mkChapterBody "Alpha" "d" "u1".
Definition req_alpha : ChapterBody := mkChapterBody "alpha" "d" "u1".
Definition req_Delta : ChapterBody := mkChapterBody "Delta" "d" "u1".

(** The order of ORDER BY Chapter_Name: names compared character by
    character on their codes. *)
Definition name_le (a b : Chapter.t) : Prop :=
  (Chapter.Chapter_Name a <=? Chapter.Chapter_Name b)%string = true.

(** The columns [getChapters] selects. *)
Definition id_and_name (c : Chapter.t) : string * string :=
  (Chapter.Chapter_Id c, Chapter.Chapter_Name c).

(** The answer [r] to a list request for page [p] with limit [L], as the
    specification words it: the slice of at most [L] chapters that starts
    at offset [(p-1)*L] of the table sorted by name, with the envelope
    [total = N], [page = p], [limit = L] and [totalPages] the least [t]
    with [N <= t * L]; empty past the last page. *)
Definition lists_page (p L : Z) (r : Response) (db : Db) : Prop :=
  exists sorted rows totalPages,
    Permutation sorted (chapters db)
    /\ StronglySorted name_le sorted
    /\ r = mkResponse 200
             (JChapters rows (Z.of_nat (length (chapters db))) p L
                totalPages)
    /\ rows = map id_and_name
                (firstn (Z.to_nat L) (skipn (Z.to_nat ((p - 1) * L)) sorted))
    /\ Z.of_nat (length rows) <= L
    /\ (totalPages - 1) * L < Z.of_nat (length (chapters db))
       <= totalPages * L
    /\ (totalPages < p -> rows = []).

(** Five chapters, for the pagination examples. *)
Definition five_chapters : list Chapter.t :=
  [ Chapter.mk 1 "aaaaa1" "Oslo" "d" "u1" "pending" "t" "t";
    Chapter.mk 2 "aaaaa2" "Bergen" "d" "u1" "pending" "t" "t";
    Chapter.mk 3 "aaaaa3" "Hamburg" "d" "u1" "pending" "t" "t";
    Chapter.mk 4 "aaaaa4" "Austin" "d" "u1" "pending" "t" "t";
    Chapter.mk 5 "aaaaa5" "Malmo" "d" "u1" "pending" "t" "t" ].

Definition db_five : Db := mkDb [] five_chapters [] 0.

Definition is_decimal_digit (c : ascii) : bool :=
  ((48 <=? code c) && (code c <=? 57))%N.



Fixpoint all_chars (p : ascii -> bool) (s : string) : bool :=
  match s with
  | EmptyString => true
  | String c r => p c && all_chars p r
  end.

(** [n] hexadecimal digits, of either case. *)
Definition hex_group (n : nat) (h : string) : Prop :=
  String.length h = n /\ all_chars is_hex h = true.

(** The UUID shape: groups of 8, 4, 4, 4 and 12 hexadecimal digits joined
    by hyphens. *)
Definition uuid_form (s : string) : Prop :=
  exists h1 h2 h3 h4 h5,
    s = (h1 ++ "-" ++ h2 ++ "-" ++ h3 ++ "-" ++ h4 ++ "-" ++ h5)%string
    /\ hex_group 8 h1 /\ hex_group 4 h2 /\ hex_group 4 h3
    /\ hex_group 4 h4 /\ hex_group 12 h5.

(** The identifier contains an at sign. *)
Definition contains_at (s : string) : Prop :=
  exists a b, s = (a ++ "@" ++ b)%string.

(** The user row matches the identifier on the field its shape selects. *)
Definition matches (identifier : string) (u : User.t) : Prop :=
  column (select_query identifier) u = identifier.

(** Some membership row references the user. *)
Definition referenced (u : User.t) (db : Db) : Prop :=
  exists m, In m (memberships db)
            /\ Membership.User_ID m = User.User_ID u.

(** The outcome of a user deletion as the specification words it: 404 and
    an untouched store when no row matches, otherwise the matching rows
    deleted and a success answer. *)
Definition deletes_whenever_matched (identifier : string) (db : Db) : Prop :=
  ((forall u, In u (users db) -> ~ matches identifier u) ->
   deleteUser identifier db
   = (mkResponse 404 (JError "User not found"), db))
  /\ ((exists u, In u (users db) /\ matches identifier u) ->
      exists db',
        deleteUser identifier db
        = (mkResponse 200 (JMessage true "User deleted successfully"), db')
        /\ forall u, In u (users db')
                     <-> In u (users db) /\ ~ matches identifier u).

(* ------------------------------------------------------------------ *)
(** ** The remaining handlers *)

(** [Partial<User>]. *)
Record UserPartial := mkUserPartial {
  pu_ID : option Z;
  pu_User_ID : option string;
  pu_GoogleUserId : option string;
  pu_Email : option string;
  pu_Role : option string;
  pu_Status : option string;
  pu_CreatedAt : option Z;
  pu_UpdatedAt : option Z
}.

(** [new UserModel(data)]; [uuid] is what [crypto.randomUUID()] would
    return and [now] what [new Date()] would.  A [Date] is given here by
    its time value. *)
Definition UserModel (uuid : string) (now : Z) (data : UserPartial)
  : User.t :=
  {| User.ID := or_num (pu_ID data) 0;
     User.User_ID := or_str (pu_User_ID data) uuid;
     User.GoogleUserId := or_str (pu_GoogleUserId data) "";
     User.Email := or_str (pu_Email data) "";
     User.Role := or_str (pu_Role data) "user";
     User.Status := or_str (pu_Status data) "pending";
     User.CreatedAt := SqlInteger (or_obj (pu_CreatedAt data) now);
     User.UpdatedAt := SqlInteger (or_obj (pu_UpdatedAt data) now) |}.

(** The user row the store keeps for an INSERT that names every column but
    [ID]. *)
Definition user_with_ID (id : Z) (u : User.t) : User.t :=
  {| User.ID := id;
     User.User_ID := User.User_ID u;
     User.GoogleUserId := User.GoogleUserId u;
     User.Email := User.Email u;
     User.Role := User.Role u;
     User.Status := User.Status u;
     User.CreatedAt := User.CreatedAt u;
     User.UpdatedAt := User.UpdatedAt u |}.

(** [INSERT INTO users (User_ID, GoogleUserId, Email, Role, Status,
    CreatedAt, UpdatedAt) VALUES (...)] under [User_ID ... UNIQUE]; [seq] is
    the entry of [sqlite_sequence] for the users table, whose [ID] is
    AUTOINCREMENT, and comes back updated. *)
Definition insert_user (row : User.t) (db : Db) (seq : Z)
  : outcome (Db * Z) :=
  if existsb (fun u => User.User_ID u =? User.User_ID row)%string (users db)
  then Throw "UNIQUE constraint failed: users.User_ID"
  else
    let id := next_rowid seq (map User.ID (users db)) in
    Ok ({| users := users db ++ [user_with_ID id row];
           chapters := chapters db;
           memberships := memberships db;
           memberships_seq := memberships_seq db |}, id).

(** Answers of the handlers below: the shapes of [Json], and those only
    these handlers produce. *)
Inductive Payload : Type :=
| PJson (j : Json)
| PUser (success : bool) (data : User.t)
    (** [{ success, data: { ID, User_ID, ..., UpdatedAt } }] *)
| PUserId (success : bool) (User_ID : string)
    (** [{ success, data: { User_ID } }] *)
| PTotal (total : Z)
    (** [{ total }] *)
| PExists (exists_ : bool) (message : string)
    (** [{ exists, message }] *)
| PChapter (success : bool) (data : Chapter.t)
    (** [{ success, data: { ID, Chapter_Id, ..., UpdatedAt } }] *)
| PMemberships (success : bool) (data : list Membership.t)
    (** [{ success, data: rows }] *)
| PUserMemberships (success : bool)
    (data : list (Membership.t * string * string))
    (** [{ success, data: rows }], each row a membership with the
        [Chapter_Name] and [Chapter_Description] of its chapter *).

Record Reply := mkReply { reply_status : Z; reply_body : Payload }.

(** A character of the class [[^\s@]]. *)
Definition is_class (c : ascii) : bool :=
  negb (is_space c) && negb (c =? "@")%char.

(** The longest prefix of [[^\s@]] characters, and what follows it. *)
Fixpoint class_run (s : string) : string * string :=
  match s with
  | EmptyString => (EmptyString, EmptyString)
  | String c r =>
      if is_class c
      then let '(a, b) := class_run r in (String c a, b)
      else (EmptyString, s)
  end.

(** Some [.] of the string has a character after it. *)
Fixpoint dot_before_last (s : string) : bool :=
  match s with
  | String c (String _ _ as r) => (c =? ".")%char || dot_before_last r
  | _ => false
  end.

(** [/^[^\s@]+@[^\s@]+\.[^\s@]+$/.test(s)]: a run of the class, an at sign,
    and a remainder that is all of the class and has a dot with a character
    on each side. *)
Definition emailRegex_test (s : string) : bool :=
  let '(local, rest) := class_run s in
  negb (falsy local)
  && match rest with
     | String c domain =>
         (c =? "@")%char
         && all_chars is_class domain
         && match domain with
            | String _ r => dot_before_last r
            | EmptyString => false
            end
     | EmptyString => false
     end.

(** The body of POST /users/create. *)
Record UserBody := mkUserBody {
  req_GoogleUserId : option string;
  req_Email : option string;
  req_Role : option string
}.

(** [SELECT * FROM users WHERE Email = ? OR GoogleUserId = ?] *)
Definition users_by_Email_or_GoogleUserId (email gid : string) (db : Db)
  : list User.t :=
  filter (fun u => (User.Email u =? email)%string
                   || (User.GoogleUserId u =? gid)%string) (users db).

(** [createUser]; the store is the [Db] and the users entry of
    [sqlite_sequence].  [now] is the time value of [new Date()]: the
    INSERT is given [user.CreatedAt] and [user.UpdatedAt] themselves, two
    [Date]s, not their ISO forms. *)
Definition createUser (uuid : string) (now : Z) (req : UserBody) (db : Db)
  (seq : Z) : Reply * Db * Z :=
  if not_ (req_GoogleUserId req) || not_ (req_Email req)
     || not_ (req_Role req)
  then (mkReply 400 (PJson (JMessage false
          "Missing required fields: GoogleUserId, Email, and Role are required")),
        db, seq)
  else
    let GoogleUserId := or_str (req_GoogleUserId req) "" in
    let Email := or_str (req_Email req) "" in
    let Role := or_str (req_Role req) "" in
    if negb (emailRegex_test Email)
    then (mkReply 400 (PJson (JMessage false "Invalid email format")),
          db, seq)
    else
      let existingUser :=
        users_by_Email_or_GoogleUserId Email GoogleUserId db in
      if (0 <? length existingUser)%nat
      then (mkReply 400 (PJson (JMessage false
              "User with this email or GoogleUserId already exists")),
            db, seq)
      else
        let user :=
          UserModel uuid now
            {| pu_ID := None;
               pu_User_ID := None;
               pu_GoogleUserId := Some GoogleUserId;
               pu_Email := Some Email;
               pu_Role := Some Role;
               pu_Status := Some "pending";
               pu_CreatedAt := None;
               pu_UpdatedAt := None |} in
        match insert_user user db seq with
        | Throw _ =>
            (mkReply 500 (PJson (JMessage false "Error creating user")),
             db, seq)
        | Ok (db', seq') =>
            let createdUser := users_by_User_ID (User.User_ID user) db' in
            match createdUser with
            | row :: _ => (mkReply 201 (PUser true row), db', seq')
            | [] =>
                (* [createdUser.rows[0].ID] throws on an empty result *)
                (mkReply 500 (PJson (JMessage false "Error creating user")),
                 db', seq')
            end
        end.

(** [SELECT User_ID FROM users WHERE GoogleUserId = ?] *)
Definition users_by_GoogleUserId (gid : string) (db : Db) : list User.t :=
  filter (fun u => User.GoogleUserId u =? gid)%string (users db).

Definition getUserIDByGoogleUserId (GoogleUserId : option string) (db : Db)
  : Reply :=
  if not_ GoogleUserId
  then mkReply 400 (PJson (JMessage false "GoogleUserId is required"))
  else
    let result := users_by_GoogleUserId (or_str GoogleUserId "") db in
    match result with
    | [] => mkReply 404 (PJson (JMessage false "User not found"))
    | row :: _ => mkReply 200 (PUserId true (User.User_ID row))
    end.

Definition getChapterCount (db : Db) : Reply :=
  mkReply 200 (PTotal (Z.of_nat (length (chapters db)))).

Definition checkChapterName (Chapter_Name : option string) (db : Db)
  : Reply :=
  if not_ Chapter_Name
  then mkReply 400 (PJson (JError "Chapter name is required"))
  else
    let result := chapters_by_name (or_str Chapter_Name "") db in
    if (0 <? length result)%nat
    then mkReply 200 (PExists true "Chapter name already exists")
    else mkReply 200 (PExists false "Chapter name is available").

(** [getChapterById]; [toDate s] is the JSON form of
    [new Date(String(s))]. *)
Definition getChapterById (toDate : string -> string) (id : string)
  (db : Db) : Reply :=
  if falsy id
  then mkReply 400 (PJson (JError "Chapter ID is required"))
  else
    match chapters_by_Chapter_Id id db with
    | [] => mkReply 404 (PJson (JError "Chapter not found"))
    | chapter :: _ =>
        mkReply 200
          (PChapter true
             {| Chapter.ID := Chapter.ID chapter;
                Chapter.Chapter_Id := Chapter.Chapter_Id chapter;
                Chapter.Chapter_Name := Chapter.Chapter_Name chapter;
                Chapter.Chapter_Description :=
                  Chapter.Chapter_Description chapter;
                Chapter.Created_By := Chapter.Created_By chapter;
                Chapter.Status := Chapter.Status chapter;
                Chapter.CreatedAt := toDate (Chapter.CreatedAt chapter);
                Chapter.UpdatedAt := toDate (Chapter.UpdatedAt chapter) |})
    end.

(** ORDER BY a TEXT column (BINARY collation): insertion sort on the key,
    rows of equal key kept in their order. *)
Fixpoint insert_by {A : Type} (key : A -> string) (x : A) (l : list A)
  : list A :=
  match l with
  | [] => [x]
  | y :: r =>
      if (key x <=? key y)%string then x :: l else y :: insert_by key x r
  end.

Definition order_by {A : Type} (key : A -> string) (l : list A) : list A :=
  fold_right (insert_by key) [] l.

(** [SELECT m.* FROM memberships m WHERE m.Chapter_Id = ?] *)
Definition memberships_by_Chapter_Id (id : string) (db : Db)
  : list Membership.t :=
  filter (fun m => Membership.Chapter_Id m =? id)%string (memberships db).

Definition getMembershipsByChapter (id : string) (db : Db) : Reply :=
  if falsy id
  then mkReply 400 (PJson (JMessage false "Chapter ID is required"))
  else
    match chapters_by_Chapter_Id id db with
    | [] => mkReply 404 (PJson (JMessage false "Chapter not found"))
    | _ :: _ =>
        mkReply 200
          (PMemberships true
             (order_by Membership.Warrior_Name
                (memberships_by_Chapter_Id id db)))
    end.

(** [FROM memberships m JOIN chapters c ON m.Chapter_Id = c.Chapter_Id
     WHERE m.User_ID = ?] *)
Definition memberships_join_chapters (id : string) (db : Db)
  : list (Membership.t * Chapter.t) :=
  flat_map
    (fun m =>
       map (fun c => (m, c))
         (filter (fun c => Membership.Chapter_Id m
                           =? Chapter.Chapter_Id c)%string (chapters db)))
    (filter (fun m => Membership.User_ID m =? id)%string (memberships db)).

(** The columns of the join: [m.*, c.Chapter_Name,
    c.Chapter_Description]. *)
Definition joined_row (mc : Membership.t * Chapter.t)
  : Membership.t * string * string :=
  (fst mc, Chapter.Chapter_Name (snd mc),
   Chapter.Chapter_Description (snd mc)).

Definition getMembershipsByUser (id : string) (db : Db) : Reply :=
  if falsy id
  then mkReply 400 (PJson (JMessage false "User ID is required"))
  else
    match users_by_User_ID id db with
    | [] => mkReply 404 (PJson (JMessage false "User not found"))
    | _ :: _ =>
        mkReply 200
          (PUserMemberships true
             (map joined_row
                (order_by (fun mc => Chapter.Chapter_Name (snd mc))
                   (memberships_join_chapters id db))))
    end.


(** A non-empty string of [[^\s@]] characters. *)
Definition class_string (s : string) : Prop :=
  s <> "" /\ all_chars is_class s = true.

(** The shape the email check accepts: [local@domain.tld], each of the
    three parts non-empty and free of white space and at signs. *)
Definition email_form (s : string) : Prop :=
  exists a b c,
    s = (a ++ "@" ++ b ++ "." ++ c)%string
    /\ class_string a /\ class_string b /\ class_string c.

(** Emails, provider ids and opaque identifiers of the users table are
    pairwise distinct. *)
Definition users_inv (db : Db) : Prop :=
  NoDup (map User.Email (users db))
  /\ NoDup (map User.GoogleUserId (users db))
  /\ NoDup (map User.User_ID (users db)).

(** Numeric ids and opaque identifiers of the chapters table are pairwise
    distinct, and so are the names up to case. *)
Definition chapters_inv (db : Db) : Prop :=
  NoDup (map Chapter.ID (chapters db))
  /\ NoDup (map Chapter.Chapter_Id (chapters db))
  /\ NoDup (map (fun c => LOWER (Chapter.Chapter_Name c)) (chapters db)).

(** Display names are pairwise distinct up to case, over all chapters. *)
Definition warrior_names_inv (db : Db) : Prop :=
  NoDup (map (fun m => LOWER (Membership.Warrior_Name m)) (memberships db)).

(** Some user row bears the email or the provider id. *)
Definition email_or_provider_id_taken (email gid : string) (db : Db)
  : Prop :=
  exists u, In u (users db)
            /\ (User.Email u = email \/ User.GoogleUserId u = gid).

(** The row [createUser] stores on success. *)
Definition new_user (uuid : string) (now : Z) (gid email role : string)
  (db : Db) (seq : Z) : User.t :=
  User.mk (next_rowid seq (map User.ID (users db))) uuid gid email role
    "pending" (SqlInteger now) (SqlInteger now).

(** The field is missing from the request, or empty. *)
Definition absent (x : option string) : Prop := x = None \/ x = Some "".

(** The store of the examples after ann has been created in [db_empty]. *)
Definition req_ann : UserBody :=
  mkUserBody (Some "google-ann") (Some "ann@example.com") (Some "user").

Definition req_bob : UserBody :=
  mkUserBody (Some "google-bob") (Some "bob@example.com") (Some "admin").

Definition bob_uuid : string := "7f1c2a40-0000-4000-8000-00000000000b".

(** The chapter as [getChapterById] returns it: the stored fields, the two
    dates read back through [toDate]. *)
Definition with_dates (toDate : string -> string) (c : Chapter.t)
  : Chapter.t :=
  {| Chapter.ID := Chapter.ID c;
     Chapter.Chapter_Id := Chapter.Chapter_Id c;
     Chapter.Chapter_Name := Chapter.Chapter_Name c;
     Chapter.Chapter_Description := Chapter.Chapter_Description c;
     Chapter.Created_By := Chapter.Created_By c;
     Chapter.Status := Chapter.Status c;
     Chapter.CreatedAt := toDate (Chapter.CreatedAt c);
     Chapter.UpdatedAt := toDate (Chapter.UpdatedAt c) |}.

(** The order of an ORDER BY on a TEXT column: keys compared character by
    character on their codes. *)
Definition key_le {A : Type} (key : A -> string) (a b : A) : Prop :=
  (key a <=? key b)%string = true.

(** The [Chapter_Name] column of a row of [getMembershipsByUser]. *)
Definition row_chapter_name (row : Membership.t * string * string)
  : string := snd (fst row).

(** A second user, a member of both chapters. *)
Definition bob : User.t :=
  User.mk 2 "7f1c2a40-0000-4000-8000-00000000000b" "google-bob"
    "bob@example.com" "admin" "pending" (SqlInteger 1704412800000)
    (SqlInteger 1704412800000).

Definition bob_in_beta : Membership.t :=
  Membership.mk 2 "7f1c2a40-0000-4000-8000-00000000000b" "xyz789" "member"
    "pending" "Axe" "2024-01-06T00:00:00.000Z" "2024-01-06T00:00:00.000Z".

Definition bob_in_alpha : Membership.t :=
  Membership.mk 3 "7f1c2a40-0000-4000-8000-00000000000b" "abc123" "elder"
    "pending" "Shield" "2024-01-07T00:00:00.000Z"
    "2024-01-07T00:00:00.000Z".

Definition db_club : Db :=
  mkDb [ann; bob] [alpha; beta] [ann_in_alpha; bob_in_beta; bob_in_alpha] 3.

(** The decimal numeral of a natural number, as a query string carries
    it. *)
Definition decimal (n : nat) : string :=
  DecimalString.NilEmpty.string_of_uint (Nat.to_uint n).

(** What may follow a numeral without changing what [parseInt] reads:
    nothing, or a character that is neither a decimal digit nor the [x] of
    a hexadecimal prefix. *)
Definition ends_numeral (rest : string) : Prop :=
  match rest with
  | EmptyString => True
  | String c _ =>
      is_decimal_digit c = false /\ (c =? "x")%char = false
      /\ (c =? "X")%char = false
  end.

(** The [chapters] array of a listing. *)
Definition page_rows (r : Response) : list (string * string) :=
  match body r with
  | JChapters rows _ _ _ _ => rows
  | _ => []
  end.

(* ------------------------------------------------------------------ *)
(** ** Characters and case *)

Lemma code_inj c d : code c = code d -> c = d.
Proof.
  unfold code; intros H.
  rewrite <- (ascii_N_embedding c), <- (ascii_N_embedding d).
  now rewrite H.
Qed.

Lemma is_upper_range c :
  is_upper c = true <-> (65 <= code c <= 90)%N.
Proof.
  unfold is_upper. rewrite andb_true_iff, !N.leb_le. tauto.
Qed.

Lemma code_lower_upper c :
  is_upper c = true -> code (lower_char c) = (code c + 32)%N.
Proof.
  intros H. unfold lower_char. rewrite H.
  apply is_upper_range in H.
  unfold code in *. apply N_ascii_embedding. lia.
Qed.

Lemma lower_char_fix c : is_upper c = false -> lower_char c = c.
Proof. intros H. unfold lower_char. now rewrite H. Qed.

Lemma lower_not_upper c : is_upper (lower_char c) = false.
Proof.
  destruct (is_upper c) eqn:H.
  - destruct (is_upper (lower_char c)) eqn:H'; [|reflexivity].
    apply is_upper_range in H'. rewrite code_lower_upper in H' by assumption.
    apply is_upper_range in H. lia.
  - now rewrite lower_char_fix.
Qed.

Lemma lower_char_idem c : lower_char (lower_char c) = lower_char c.
Proof. apply lower_char_fix, lower_not_upper. Qed.

Lemma lower_char_eq_iff c d :
  lower_char c = lower_char d <-> same_letter c d.
Proof.
  unfold same_letter. split.
  - intros H.
    destruct (is_upper c) eqn:Hc, (is_upper d) eqn:Hd.
    + left. apply code_inj. apply (f_equal code) in H.
      rewrite !code_lower_upper in H by assumption. lia.
    + right; left. rewrite (lower_char_fix d) in H by assumption. auto.
    + right; right. rewrite (lower_char_fix c) in H by assumption. auto.
    + left. now rewrite !lower_char_fix in H by assumption.
  - intros [H | [[_ H] | [_ H]]]; subst.
    + reflexivity.
    + now rewrite lower_char_idem.
    + now rewrite lower_char_idem.
Qed.

Lemma LOWER_eq_iff s t : LOWER s = LOWER t <-> eq_ignoring_case s t.
Proof.
  split.
  - revert t. induction s as [|c s IH]; intros [|d t] H; simpl in H;
      try discriminate.
    + constructor.
    + injection H as Hc Hs. constructor.
      * now apply lower_char_eq_iff.
      * now apply IH.
  - induction 1 as [|c d s t Hcd _ IH]; simpl.
    + reflexivity.
    + apply lower_char_eq_iff in Hcd. now rewrite Hcd, IH.
Qed.

Lemma lower_eqb_iff a b : lower_eqb a b = true <-> eq_ignoring_case a b.
Proof.
  unfold lower_eqb. rewrite String.eqb_eq. apply LOWER_eq_iff.
Qed.

Lemma eq_ignoring_case_refl s : eq_ignoring_case s s.
Proof. now apply LOWER_eq_iff. Qed.

Lemma eq_ignoring_case_sym s t :
  eq_ignoring_case s t -> eq_ignoring_case t s.
Proof. rewrite <- !LOWER_eq_iff. auto. Qed.

Lemma eq_ignoring_case_trans s t u :
  eq_ignoring_case s t -> eq_ignoring_case t u -> eq_ignoring_case s u.
Proof. rewrite <- !LOWER_eq_iff. congruence. Qed.

(* ------------------------------------------------------------------ *)
(** ** Result sets *)

Lemma rows_nonempty_iff {A : Type} (p : A -> bool) (l : list A) :
  (0 <? length (filter p l))%nat = true <-> exists x, In x l /\ p x = true.
Proof.
  rewrite Nat.ltb_lt. split.
  - destruct (filter p l) as [|x r] eqn:E; simpl; [lia|].
    intros _. exists x. apply filter_In. rewrite E. now left.
  - intros [x Hx]. apply filter_In in Hx.
    destruct (filter p l); simpl; [contradiction | lia].
Qed.

Lemma rows_empty_iff {A : Type} (p : A -> bool) (l : list A) :
  (length (filter p l) =? 0)%nat = true <-> ~ exists x, In x l /\ p x = true.
Proof.
  rewrite <- rows_nonempty_iff, Nat.eqb_eq, Nat.ltb_lt.
  split; intros H; lia.
Qed.

Lemma rows_empty_false {A : Type} (p : A -> bool) (l : list A) :
  (length (filter p l) =? 0)%nat = false <-> exists x, In x l /\ p x = true.
Proof.
  rewrite <- rows_nonempty_iff, Nat.eqb_neq, Nat.ltb_lt. lia.
Qed.

Lemma rows_nonempty_false {A : Type} (p : A -> bool) (l : list A) :
  (0 <? length (filter p l))%nat = false
  <-> ~ exists x, In x l /\ p x = true.
Proof.
  rewrite <- rows_nonempty_iff. destruct (0 <? _)%nat; split; congruence.
Qed.

Lemma existsb_false_iff {A : Type} (p : A -> bool) (l : list A) :
  existsb p l = false <-> ~ exists x, In x l /\ p x = true.
Proof.
  rewrite <- existsb_exists. destruct (existsb p l); split; congruence.
Qed.

Lemma user_rows_iff uid db :
  (exists u, In u (users db) /\ (User.User_ID u =? uid)%string = true)
  <-> user_exists uid db.
Proof.
  unfold user_exists. split; intros [u [Hin H]]; exists u; split; auto;
    now apply String.eqb_eq.
Qed.

Lemma chapter_rows_iff cid db :
  (exists c, In c (chapters db)
             /\ (Chapter.Chapter_Id c =? cid)%string = true)
  <-> chapter_exists cid db.
Proof.
  unfold chapter_exists. split; intros [c [Hin H]]; exists c; split; auto;
    now apply String.eqb_eq.
Qed.

Lemma pair_rows_iff uid cid db :
  (exists m, In m (memberships db)
             /\ (Membership.User_ID m =? uid)%string
                && (Membership.Chapter_Id m =? cid)%string = true)
  <-> is_member uid cid db.
Proof.
  unfold is_member. split; intros [m [Hin H]]; exists m; split; auto.
  - apply andb_true_iff in H. now rewrite !String.eqb_eq in H.
  - apply andb_true_iff. now rewrite !String.eqb_eq.
Qed.

Lemma warrior_rows_iff name db :
  (exists m, In m (memberships db)
             /\ lower_eqb (Membership.Warrior_Name m) name = true)
  <-> warrior_name_taken name db.
Proof.
  unfold warrior_name_taken. split; intros [m [Hin H]]; exists m; split; auto;
    now apply lower_eqb_iff.
Qed.

Lemma chapter_name_rows_iff name db :
  (exists c, In c (chapters db)
             /\ lower_eqb (Chapter.Chapter_Name c) name = true)
  <-> chapter_name_taken name db.
Proof.
  unfold chapter_name_taken. split; intros [c [Hin H]]; exists c; split; auto;
    now apply lower_eqb_iff.
Qed.

Lemma falsy_false_iff s : falsy s = false <-> s <> "".
Proof. destruct s; simpl; split; congruence. Qed.

Lemma or_str_some s d : s <> "" -> or_str (Some s) d = s.
Proof. intros H. simpl. apply falsy_false_iff in H. now rewrite H. Qed.

(* ------------------------------------------------------------------ *)
(** ** Membership creation *)

(** The handler on a request that passes the required-fields guard. *)
Lemma createMembership_unfold now uid cid rank name db :
  uid <> "" -> cid <> "" -> name <> "" ->
  createMembership now
    (mkMembershipBody (Some uid) (Some cid) rank (Some name)) db =
  if (length (users_by_User_ID uid db) =? 0)%nat
  then (mkResponse 404 (JMessage false "User not found"), db)
  else if (length (chapters_by_Chapter_Id cid db) =? 0)%nat
  then (mkResponse 404 (JMessage false "Chapter not found"), db)
  else if (0 <? length (memberships_by_pair uid cid db))%nat
  then (mkResponse 400
          (JMessage false "User is already a member of this chapter"), db)
  else if (0 <? length (memberships_by_warrior_name name db))%nat
  then (mkResponse 400 (JMessage false "Warrior name is already taken"), db)
  else
    match insert_membership (new_membership now uid cid rank name) db with
    | Throw _ =>
        (mkResponse 500 (JMessage false "Error creating membership"), db)
    | Ok db' =>
        (mkResponse 201
           (JMembership true (hd_error (memberships_by_pair uid cid db'))),
         db')
    end.
Proof.
  intros Hu Hc Hn. unfold createMembership.
  cbn [req_User_ID req_Chapter_Id req_Warrior_Name req_Chapter_Rank not_].
  rewrite (proj2 (falsy_false_iff uid) Hu), (proj2 (falsy_false_iff cid) Hc),
    (proj2 (falsy_false_iff name) Hn).
  cbn [orb].
  rewrite (or_str_some uid "" Hu), (or_str_some cid "" Hc),
    (or_str_some name "" Hn).
  reflexivity.
Qed.

Lemma new_membership_fields now uid cid rank name :
  uid <> "" -> cid <> "" -> name <> "" ->
  Membership.User_ID (new_membership now uid cid rank name) = uid
  /\ Membership.Chapter_Id (new_membership now uid cid rank name) = cid
  /\ Membership.Warrior_Name (new_membership now uid cid rank name) = name.
Proof.
  intros Hu Hc Hn. unfold new_membership, Membership.MembershipModel.
  cbn [Membership.User_ID Membership.Chapter_Id Membership.Warrior_Name
       Membership.pUser_ID Membership.pChapter_Id Membership.pWarrior_Name].
  now rewrite !or_str_some by assumption.
Qed.

Lemma or_str_nonempty x d : d <> "" -> or_str x d <> "".
Proof.
  intros Hd. destruct x as [s|]; simpl; [|assumption].
  destruct s; simpl; [assumption | discriminate].
Qed.

(** The INSERT cannot fail once the three existence checks have passed. *)
Lemma insert_membership_ok row db :
  user_exists (Membership.User_ID row) db ->
  chapter_exists (Membership.Chapter_Id row) db ->
  ~ is_member (Membership.User_ID row) (Membership.Chapter_Id row) db ->
  insert_membership row db =
  Ok {| users := users db;
        chapters := chapters db;
        memberships :=
          memberships db
          ++ [Membership.with_ID
                (next_rowid (memberships_seq db)
                            (map Membership.ID (memberships db))) row];
        memberships_seq :=
          next_rowid (memberships_seq db)
                     (map Membership.ID (memberships db)) |}.
Proof.
  intros Hu Hc Hm. unfold insert_membership.
  rewrite (proj2 (existsb_false_iff _ _))
    by (now rewrite pair_rows_iff).
  rewrite (proj2 (existsb_exists _ _)) by (now apply user_rows_iff).
  rewrite (proj2 (existsb_exists _ _)) by (now apply chapter_rows_iff).
  reflexivity.
Qed.

Lemma filter_none {A : Type} (p : A -> bool) (l : list A) :
  (~ exists x, In x l /\ p x = true) -> filter p l = [].
Proof.
  intros H. destruct (filter p l) as [|x r] eqn:E; [reflexivity|].
  exfalso. apply H. exists x. apply filter_In. rewrite E. now left.
Qed.

(** What a successful creation does to the store and what it answers. *)
Lemma createMembership_success now uid cid rank name db :
  uid <> "" -> cid <> "" -> name <> "" ->
  user_exists uid db -> chapter_exists cid db ->
  ~ is_member uid cid db -> ~ warrior_name_taken name db ->
  let row :=
    Membership.with_ID
      (next_rowid (memberships_seq db) (map Membership.ID (memberships db)))
      (new_membership now uid cid rank name) in
  createMembership now
    (mkMembershipBody (Some uid) (Some cid) rank (Some name)) db =
  (mkResponse 201 (JMembership true (Some row)),
   {| users := users db;
      chapters := chapters db;
      memberships := memberships db ++ [row];
      memberships_seq := Membership.ID row |}).
Proof.
  intros Hu Hc Hn Eu Ec Em En row.
  rewrite createMembership_unfold by assumption.
  unfold users_by_User_ID, chapters_by_Chapter_Id, memberships_by_pair,
    memberships_by_warrior_name.
  rewrite (proj2 (rows_empty_false _ _)) by (now apply user_rows_iff).
  rewrite (proj2 (rows_empty_false _ _)) by (now apply chapter_rows_iff).
  rewrite (proj2 (rows_nonempty_false _ _)) by (now rewrite pair_rows_iff).
  rewrite (proj2 (rows_nonempty_false _ _))
    by (now rewrite warrior_rows_iff).
  destruct (new_membership_fields now uid cid rank name Hu Hc Hn)
    as [Fu [Fc Fn]].
  rewrite insert_membership_ok by (now rewrite ?Fu, ?Fc).
  cbn [memberships]. rewrite filter_app.
  rewrite (filter_none _ (memberships db)) by (now rewrite pair_rows_iff).
  cbn [filter app Membership.with_ID Membership.User_ID
       Membership.Chapter_Id].
  rewrite Fu, Fc, !String.eqb_refl. reflexivity.
Qed.

Lemma createMembership_unknown_user now uid cid rank name db :
  uid <> "" -> cid <> "" -> name <> "" ->
  ~ user_exists uid db ->
  createMembership now
    (mkMembershipBody (Some uid) (Some cid) rank (Some name)) db
  = (mkResponse 404 (JMessage false "User not found"), db).
Proof.
  intros Hu Hc Hn Eu. rewrite createMembership_unfold by assumption.
  unfold users_by_User_ID.
  now rewrite (proj2 (rows_empty_iff _ _)) by (now rewrite user_rows_iff).
Qed.

Lemma createMembership_unknown_chapter now uid cid rank name db :
  uid <> "" -> cid <> "" -> name <> "" ->
  user_exists uid db -> ~ chapter_exists cid db ->
  createMembership now
    (mkMembershipBody (Some uid) (Some cid) rank (Some name)) db
  = (mkResponse 404 (JMessage false "Chapter not found"), db).
Proof.
  intros Hu Hc Hn Eu Ec. rewrite createMembership_unfold by assumption.
  unfold users_by_User_ID, chapters_by_Chapter_Id.
  rewrite (proj2 (rows_empty_false _ _)) by (now apply user_rows_iff).
  now rewrite (proj2 (rows_empty_iff _ _)) by (now rewrite chapter_rows_iff).
Qed.

Lemma createMembership_already_member now uid cid rank name db :
  uid <> "" -> cid <> "" -> name <> "" ->
  user_exists uid db -> chapter_exists cid db -> is_member uid cid db ->
  createMembership now
    (mkMembershipBody (Some uid) (Some cid) rank (Some name)) db
  = (mkResponse 400
       (JMessage false "User is already a member of this chapter"), db).
Proof.
  intros Hu Hc Hn Eu Ec Em. rewrite createMembership_unfold by assumption.
  unfold users_by_User_ID, chapters_by_Chapter_Id, memberships_by_pair.
  rewrite (proj2 (rows_empty_false _ _)) by (now apply user_rows_iff).
  rewrite (proj2 (rows_empty_false _ _)) by (now apply chapter_rows_iff).
  now rewrite (proj2 (rows_nonempty_iff _ _)) by (now apply pair_rows_iff).
Qed.

Lemma createMembership_name_taken now uid cid rank name db :
  uid <> "" -> cid <> "" -> name <> "" ->
  user_exists uid db -> chapter_exists cid db -> ~ is_member uid cid db ->
  warrior_name_taken name db ->
  createMembership now
    (mkMembershipBody (Some uid) (Some cid) rank (Some name)) db
  = (mkResponse 400 (JMessage false "Warrior name is already taken"), db).
Proof.
  intros Hu Hc Hn Eu Ec Em En. rewrite createMembership_unfold by assumption.
  unfold users_by_User_ID, chapters_by_Chapter_Id, memberships_by_pair,
    memberships_by_warrior_name.
  rewrite (proj2 (rows_empty_false _ _)) by (now apply user_rows_iff).
  rewrite (proj2 (rows_empty_false _ _)) by (now apply chapter_rows_iff).
  rewrite (proj2 (rows_nonempty_false _ _)) by (now rewrite pair_rows_iff).
  now rewrite (proj2 (rows_nonempty_iff _ _)) by (now apply warrior_rows_iff).
Qed.

(** C1.  On a request whose user reference, chapter reference and display
    name are non-empty, [createMembership] runs four checks in a fixed
    order: the user exists, the chapter exists, the (user, chapter) pair is
    new, the display name is free up to case among all memberships.  The
    first check that fails decides the answer (404 "User not found", 404
    "Chapter not found", 400 "User is already a member of this chapter",
    400 "Warrior name is already taken") and the store is left as it was;
    when all four pass, one row is appended with status "pending" and that
    row is the one returned with 201.  In particular an unknown user gives
    404 "User not found" whatever the other fields are. *)
Theorem createMembership_checks_in_order now uid cid rank name db :
  uid <> "" -> cid <> "" -> name <> "" ->
  let run := createMembership now
               (mkMembershipBody (Some uid) (Some cid) rank (Some name)) db in
  (~ user_exists uid db ->
     run = (mkResponse 404 (JMessage false "User not found"), db))
  /\ (user_exists uid db -> ~ chapter_exists cid db ->
     run = (mkResponse 404 (JMessage false "Chapter not found"), db))
  /\ (user_exists uid db -> chapter_exists cid db -> is_member uid cid db ->
     run = (mkResponse 400
              (JMessage false "User is already a member of this chapter"),
            db))
  /\ (user_exists uid db -> chapter_exists cid db -> ~ is_member uid cid db ->
      warrior_name_taken name db ->
     run = (mkResponse 400 (JMessage false "Warrior name is already taken"),
            db))
  /\ (user_exists uid db -> chapter_exists cid db -> ~ is_member uid cid db ->
      ~ warrior_name_taken name db ->
     exists row,
       run = (mkResponse 201 (JMembership true (Some row)),
              {| users := users db;
                 chapters := chapters db;
                 memberships := memberships db ++ [row];
                 memberships_seq := Membership.ID row |})
       /\ Membership.User_ID row = uid
       /\ Membership.Chapter_Id row = cid
       /\ Membership.Warrior_Name row = name
       /\ Membership.Chapter_Status row = "pending"
       /\ Membership.Chapter_Rank row = or_str rank "member"
       /\ Membership.CreatedAt row = now
       /\ Membership.UpdatedAt row = now).
Proof.
  intros Hu Hc Hn run. subst run.
  repeat split.
  - now apply createMembership_unknown_user.
  - now apply createMembership_unknown_chapter.
  - now apply createMembership_already_member.
  - now apply createMembership_name_taken.
  - intros Eu Ec Em En. eexists. split.
    + now apply createMembership_success.
    + destruct (new_membership_fields now uid cid rank name Hu Hc Hn)
        as [Fu [Fc Fn]].
      cbn [Membership.with_ID Membership.User_ID Membership.Chapter_Id
           Membership.Warrior_Name Membership.Chapter_Status
           Membership.Chapter_Rank Membership.CreatedAt Membership.UpdatedAt].
      repeat split; try assumption.
      unfold new_membership, Membership.MembershipModel.
      cbn [Membership.Chapter_Rank Membership.pChapter_Rank].
      apply or_str_some. apply or_str_nonempty. discriminate.
Qed.

Lemma createMembership_checks_in_order_witness :
  "nobody" <> "" /\ "abc123" <> "" /\ "Berserker" <> ""
  /\ createMembership "2024-02-01T00:00:00.000Z"
       (mkMembershipBody (Some "nobody") (Some "abc123") None
          (Some "Berserker")) db_joined
     = (mkResponse 404 (JMessage false "User not found"), db_joined)
  /\ createMembership "2024-02-01T00:00:00.000Z"
       (mkMembershipBody (Some (User.User_ID ann)) (Some "abc123") None
          (Some "Berserker")) db_joined
     = (mkResponse 400
          (JMessage false "User is already a member of this chapter"),
        db_joined).
Proof.
  split; [discriminate|]. split; [discriminate|]. split; [discriminate|].
  split.
  - apply (createMembership_checks_in_order "2024-02-01T00:00:00.000Z"
             "nobody" "abc123" None "Berserker" db_joined);
      try discriminate.
    intros [u [[Hu | []] H]]. subst u. discriminate H.
  - apply (createMembership_checks_in_order "2024-02-01T00:00:00.000Z"
             (User.User_ID ann) "abc123" None "Berserker" db_joined);
      try discriminate.
    + exists ann. split; [now left | reflexivity].
    + exists alpha. split; [now left | reflexivity].
    + exists ann_in_alpha. split; [now left | split; reflexivity].
Defined.

(** The store after [createMembership]: untouched, or extended by one row
    whose checks all passed. *)
Lemma createMembership_store now req db :
  snd (createMembership now req db) = db
  \/ exists uid cid name,
       uid <> "" /\ cid <> "" /\ name <> ""
       /\ user_exists uid db /\ chapter_exists cid db
       /\ ~ is_member uid cid db /\ ~ warrior_name_taken name db
       /\ req = mkMembershipBody (Some uid) (Some cid)
                  (req_Chapter_Rank req) (Some name)
       /\ snd (createMembership now req db) =
          {| users := users db;
             chapters := chapters db;
             memberships :=
               memberships db
               ++ [Membership.with_ID
                     (next_rowid (memberships_seq db)
                        (map Membership.ID (memberships db)))
                     (new_membership now uid cid (req_Chapter_Rank req)
                        name)];
             memberships_seq :=
               next_rowid (memberships_seq db)
                 (map Membership.ID (memberships db)) |}.
Proof.
  destruct req as [ou oc rank on].
  destruct ou as [[|a u]|]; try (left; reflexivity).
  destruct oc as [[|b c]|]; try (left; reflexivity).
  destruct on as [[|e n]|]; try (left; reflexivity).
  assert (Hu : String a u <> "") by discriminate.
  assert (Hc : String b c <> "") by discriminate.
  assert (Hn : String e n <> "") by discriminate.
  rewrite (createMembership_unfold now _ _ rank _ db Hu Hc Hn).
  unfold users_by_User_ID, chapters_by_Chapter_Id, memberships_by_pair,
    memberships_by_warrior_name.
  destruct (length (filter _ (users db)) =? 0)%nat eqn:E1;
    [left; reflexivity|].
  destruct (length (filter _ (chapters db)) =? 0)%nat eqn:E2;
    [left; reflexivity|].
  destruct (0 <? length (filter _ (memberships db)))%nat eqn:E3;
    [left; reflexivity|].
  destruct (0 <? length (filter (fun m => lower_eqb _ _) (memberships db)))%nat
    eqn:E4; [left; reflexivity|].
  apply rows_empty_false, user_rows_iff in E1.
  apply rows_empty_false, chapter_rows_iff in E2.
  apply rows_nonempty_false in E3. rewrite pair_rows_iff in E3.
  apply rows_nonempty_false in E4. rewrite warrior_rows_iff in E4.
  right. exists (String a u), (String b c), (String e n).
  repeat (split; [assumption|]). split; [reflexivity|].
  pose proof (createMembership_success now _ _ rank _ db Hu Hc Hn E1 E2 E3 E4)
    as H.
  cbv zeta in H. rewrite createMembership_unfold in H by assumption.
  unfold users_by_User_ID, chapters_by_Chapter_Id, memberships_by_pair,
    memberships_by_warrior_name in H.
  rewrite (proj2 (rows_empty_false _ _)) in H by (now apply user_rows_iff).
  rewrite (proj2 (rows_empty_false _ _)) in H by (now apply chapter_rows_iff).
  rewrite (proj2 (rows_nonempty_false _ _)) in H
    by (now rewrite pair_rows_iff).
  rewrite (proj2 (rows_nonempty_false _ _)) in H
    by (now rewrite warrior_rows_iff).
  cbn [req_Chapter_Rank]. rewrite H. reflexivity.
Qed.

(* ------------------------------------------------------------------ *)
(** ** The membership invariant *)

Lemma in_pairs_is_member uid cid db :
  In (uid, cid) (map pair_of (memberships db)) <-> is_member uid cid db.
Proof.
  unfold is_member, pair_of. rewrite in_map_iff.
  split; intros [m H]; exists m.
  - destruct H as [H Hin]. injection H as -> ->. auto.
  - destruct H as [Hin [-> ->]]. auto.
Qed.

Lemma with_ID_pair id m : pair_of (Membership.with_ID id m) = pair_of m.
Proof. reflexivity. Qed.

(** C2.  From a store in which the (user reference, chapter reference)
    pairs of the membership rows are pairwise distinct and both references
    of every row resolve to a User and a Chapter row, [createMembership]
    (on any request) leads to a store with the same property.  The store is
    either left as it was or gains exactly one row, whose pair was absent
    and whose user and chapter existed before the insert. *)
Theorem createMembership_preserves_invariant now req db :
  membership_inv db ->
  let db' := snd (createMembership now req db) in
  membership_inv db'
  /\ (db' = db
      \/ exists row,
           memberships db' = memberships db ++ [row]
           /\ users db' = users db /\ chapters db' = chapters db
           /\ ~ is_member (Membership.User_ID row)
                          (Membership.Chapter_Id row) db
           /\ user_exists (Membership.User_ID row) db
           /\ chapter_exists (Membership.Chapter_Id row) db).
Proof.
  intros [Hnd Href] db'. subst db'.
  destruct (createMembership_store now req db)
    as [-> | (uid & cid & name & Hu & Hc & Hn & Eu & Ec & Em & En & _ & ->)].
  - split; [split; assumption | now left].
  - destruct (new_membership_fields now uid cid (req_Chapter_Rank req) name
                Hu Hc Hn) as [Fu [Fc _]].
    set (row := Membership.with_ID _ _).
    assert (Ru : Membership.User_ID row = uid) by exact Fu.
    assert (Rc : Membership.Chapter_Id row = cid) by exact Fc.
    split.
    + split; cbn [memberships].
      * rewrite map_app. cbn [map].
        apply (Permutation_NoDup (Permutation_cons_append _ _)).
        constructor; [|assumption].
        unfold pair_of at 1. rewrite Ru, Rc.
        now rewrite in_pairs_is_member.
      * intros m Hin. apply in_app_or in Hin.
        destruct Hin as [Hin | [<- | []]].
        -- exact (Href m Hin).
        -- rewrite Ru, Rc. split; assumption.
    + right. exists row. cbn [memberships users chapters].
      rewrite Ru, Rc. repeat split; assumption.
Qed.

Lemma createMembership_preserves_invariant_witness :
  membership_inv db_two_chapters
  /\ membership_inv
       (snd (createMembership "2024-02-01T00:00:00.000Z"
               (mkMembershipBody (Some (User.User_ID ann)) (Some "xyz789")
                  (Some "elder") (Some "Berserker")) db_two_chapters)).
Proof.
  assert (H : membership_inv db_two_chapters).
  { split.
    - cbn. constructor; [intros []| constructor].
    - intros m [<- | []]. split.
      + exists ann. split; [now left | reflexivity].
      + exists alpha. split; [now left | reflexivity]. }
  split; [exact H|].
  exact (proj1 (createMembership_preserves_invariant
                  "2024-02-01T00:00:00.000Z" _ db_two_chapters H)).
Defined.

(* ------------------------------------------------------------------ *)
(** ** Display-name availability *)

Lemma checkWarriorNameAvailability_unfold name db :
  name <> "" ->
  checkWarriorNameAvailability (Some name) db =
  mkResponse 200
    (JAvailability true
       (length (memberships_by_warrior_name name db) =? 0)%nat name).
Proof.
  intros Hn. unfold checkWarriorNameAvailability. cbn [not_].
  rewrite (proj2 (falsy_false_iff name) Hn), (or_str_some name "" Hn).
  reflexivity.
Qed.

(** C3.  For a non-empty display name the availability check answers 200
    with [isAvailable = false] exactly when some membership, of whatever
    chapter, bears that name up to case.  In the same store a creation
    request that passes the first three checks is refused with "Warrior
    name is already taken" if and only if the availability check reports
    the name unavailable. *)
Theorem warrior_name_availability_agrees name db :
  name <> "" ->
  (exists b,
     checkWarriorNameAvailability (Some name) db
     = mkResponse 200 (JAvailability true b name)
     /\ (b = false <-> warrior_name_taken name db))
  /\ forall now uid cid rank,
       uid <> "" -> cid <> "" ->
       user_exists uid db -> chapter_exists cid db ->
       ~ is_member uid cid db ->
       (createMembership now
          (mkMembershipBody (Some uid) (Some cid) rank (Some name)) db
        = (mkResponse 400 (JMessage false "Warrior name is already taken"),
           db)
        <-> checkWarriorNameAvailability (Some name) db
            = mkResponse 200 (JAvailability true false name)).
Proof.
  intros Hn. split.
  - eexists. split; [now apply checkWarriorNameAvailability_unfold|].
    unfold memberships_by_warrior_name.
    now rewrite rows_empty_false, warrior_rows_iff.
  - intros now uid cid rank Hu Hc Eu Ec Em.
    rewrite checkWarriorNameAvailability_unfold by assumption.
    unfold memberships_by_warrior_name.
    destruct (length (filter _ (memberships db)) =? 0)%nat eqn:E.
    + apply rows_empty_iff in E. rewrite warrior_rows_iff in E.
      rewrite (createMembership_success now uid cid rank name db)
        by assumption.
      split; discriminate.
    + apply rows_empty_false, warrior_rows_iff in E.
      rewrite (createMembership_name_taken now uid cid rank name db)
        by assumption.
      split; reflexivity.
Qed.

Lemma warrior_name_availability_agrees_witness :
  "testwarrior" <> ""
  /\ checkWarriorNameAvailability (Some "testwarrior") db_two_chapters
     = mkResponse 200 (JAvailability true false "testwarrior")
  /\ createMembership "2024-02-01T00:00:00.000Z"
       (mkMembershipBody (Some (User.User_ID ann)) (Some "xyz789") None
          (Some "testwarrior")) db_two_chapters
     = (mkResponse 400 (JMessage false "Warrior name is already taken"),
        db_two_chapters).
Proof.
  assert (Hn : "testwarrior" <> "") by discriminate.
  split; [exact Hn|].
  assert (Ha : checkWarriorNameAvailability (Some "testwarrior")
                 db_two_chapters
               = mkResponse 200 (JAvailability true false "testwarrior"))
    by reflexivity.
  split; [exact Ha|].
  apply (proj2 (warrior_name_availability_agrees "testwarrior"
                  db_two_chapters Hn)
           "2024-02-01T00:00:00.000Z" (User.User_ID ann) "xyz789" None);
    try discriminate; try exact Ha.
  - exists ann. split; [now left | reflexivity].
  - exists beta. split; [right; now left | reflexivity].
  - intros [m [[<- | []] [_ H]]]. discriminate H.
Defined.

(* ------------------------------------------------------------------ *)
(** ** The generated chapter identifier *)

Lemma string_append_assoc (a b c : string) :
  ((a ++ b) ++ c = a ++ (b ++ c))%string.
Proof. induction a as [|x a IH]; simpl; [reflexivity | now rewrite IH]. Qed.

Lemma string_append_nil_r (a : string) : (a ++ "" = a)%string.
Proof. induction a as [|x a IH]; simpl; [reflexivity | now rewrite IH]. Qed.

Lemma string_length_append (a b : string) :
  String.length (a ++ b) = (String.length a + String.length b)%nat.
Proof. induction a as [|x a IH]; simpl; [reflexivity | now rewrite IH]. Qed.

Lemma pow2_pos k : 0 < 2 ^ k \/ 2 ^ k = 0.
Proof.
  destruct (Z.le_gt_cases 0 k) as [H | H].
  - left. now apply Z.pow_pos_nonneg.
  - right. now apply Z.pow_neg_r.
Qed.

Lemma excess_nonneg n : 0 <= excess n.
Proof. unfold excess. lia. Qed.

(** A number below [2^k] has at most [k - 53] bits too many. *)
Lemma excess_le n k : 0 <= n < 2 ^ k -> 53 <= k -> excess n <= k - 53.
Proof.
  intros [H0 Hk] Hk53. unfold excess.
  destruct (Z.eq_dec n 0) as [-> | Hn]; [cbn; lia|].
  assert (Z.log2 n < k) by (apply Z.log2_lt_pow2; lia).
  lia.
Qed.

Lemma round_down_le n : 0 <= n -> 0 <= round_down n <= n.
Proof.
  intros H. unfold round_down.
  assert (Hs : 0 < 2 ^ excess n)
    by (apply Z.pow_pos_nonneg; [lia | apply excess_nonneg]).
  pose proof (Z.mul_div_le n _ Hs).
  pose proof (Z.div_pos n _ H Hs). nia.
Qed.

(** [round_down] yields a multiple of [2^j] once [n] has at least
    [j + 53] bits. *)
Lemma round_down_multiple n j :
  0 <= j -> 2 ^ (j + 52) <= n -> exists m, round_down n = m * 2 ^ j.
Proof.
  intros Hj Hn. unfold round_down.
  assert (Hpos : 0 < 2 ^ (j + 52)) by (apply Z.pow_pos_nonneg; lia).
  assert (Hl : j + 52 <= Z.log2 n) by (apply Z.log2_le_pow2; lia).
  assert (Hs : excess n = j + (excess n - j)) by lia.
  assert (Hd : 0 <= excess n - j) by (unfold excess; lia).
  exists (n / 2 ^ excess n * 2 ^ (excess n - j)).
  rewrite Hs at 2. rewrite Z.pow_add_r by lia. ring.
Qed.

(** Rounding to nearest moves a number by at most half the weight of the
    last kept bit. *)
Lemma round_nearest_even_bounds n k :
  0 <= n < 2 ^ k -> 54 <= k ->
  0 <= round_nearest_even n <= n + 2 ^ (k - 54).
Proof.
  intros Hn Hk. unfold round_nearest_even.
  assert (Hp : 0 < 2 ^ (k - 54)) by (apply Z.pow_pos_nonneg; lia).
  pose proof (excess_nonneg n) as He0.
  pose proof (excess_le n k Hn ltac:(lia)) as He.
  destruct (Z.eqb_spec (excess n) 0) as [E | E]; [lia|].
  set (s := excess n) in *.
  assert (Hs : 2 ^ s = 2 * 2 ^ (s - 1)).
  { replace s with (1 + (s - 1)) at 1 by lia.
    rewrite Z.pow_add_r by lia. reflexivity. }
  assert (Hh : 0 < 2 ^ (s - 1)) by (apply Z.pow_pos_nonneg; lia).
  assert (Hle : 2 ^ (s - 1) <= 2 ^ (k - 54))
    by (apply Z.pow_le_mono_r; lia).
  pose proof (Z.div_mod n (2 ^ s) ltac:(lia)) as Hdm.
  pose proof (Z.mod_pos_bound n (2 ^ s) ltac:(lia)) as Hm.
  assert (Hq : 0 <= n / 2 ^ s) by (apply Z.div_pos; lia).
  set (q := n / 2 ^ s) in *. set (rem := n mod 2 ^ s) in *.
  set (h := 2 ^ (s - 1)) in *. set (w := 2 ^ s) in *.
  destruct ((h <? rem) || ((rem =? h) && Z.odd q)) eqn:U.
  - assert (h <= rem).
    { apply orb_true_iff in U. destruct U as [U | U].
      - apply Z.ltb_lt in U. lia.
      - apply andb_true_iff in U. destruct U as [U _].
        apply Z.eqb_eq in U. lia. }
    nia.
  - nia.
Qed.

Lemma Math_random_range r :
  (0 <= r)%Q -> (r < 1)%Q ->
  0 <= Math_random r <= ulps - 2 ^ 1021.
Proof.
  intros H0 H1. unfold Math_random.
  set (n := Qfloor (r * inject_Z ulps)).
  assert (Hu : (0 < inject_Z ulps)%Q) by reflexivity.
  assert (Hn0 : 0 <= n).
  { unfold n. rewrite <- (Qfloor_Z 0). apply Qfloor_resp_le.
    apply Qmult_le_0_compat; [assumption | now apply Qlt_le_weak]. }
  assert (Hn1 : n < ulps).
  { unfold n. rewrite Zlt_Qlt.
    apply Qle_lt_trans with (r * inject_Z ulps)%Q; [apply Qfloor_le|].
    rewrite <- (Qmult_1_l (inject_Z ulps)) at 2.
    now apply Qmult_lt_compat_r. }
  pose proof (round_down_le n Hn0) as Hd.
  split; [lia|].
  assert (Et : ulps = 2 ^ 53 * 2 ^ 1021)
    by (unfold ulps; rewrite <- Z.pow_add_r by lia; reflexivity).
  assert (Eh : 2 ^ 1073 = 2 ^ 52 * 2 ^ 1021)
    by (rewrite <- Z.pow_add_r by lia; reflexivity).
  assert (Ht : 0 < 2 ^ 1021) by (apply Z.pow_pos_nonneg; lia).
  set (t := 2 ^ 1021) in *.
  destruct (Z.lt_ge_cases n (2 ^ 1073)) as [Hlt | Hge].
  - rewrite Eh in Hlt. change (2 ^ 53) with 9007199254740992 in Et.
    change (2 ^ 52) with 4503599627370496 in Hlt. nia.
  - destruct (round_down_multiple n 1021 ltac:(lia) Hge) as [m Hm].
    fold t in Hm. rewrite Hm in *.
    change (2 ^ 53) with 9007199254740992 in Et.
    assert (m < 9007199254740992) by nia. nia.
Qed.

Lemma random_index_range r :
  (0 <= r)%Q -> (r < 1)%Q ->
  0 <= random_index r < Z.of_nat (String.length chars).
Proof.
  intros H0 H1. unfold random_index.
  pose proof (Math_random_range r H0 H1) as Hm.
  change (Z.of_nat (String.length chars)) with 36.
  set (m := Math_random r) in *.
  assert (Et : ulps = 2 ^ 53 * 2 ^ 1021)
    by (unfold ulps; rewrite <- Z.pow_add_r by lia; reflexivity).
  assert (Ek : 2 ^ 1080 = 2 ^ 59 * 2 ^ 1021)
    by (rewrite <- Z.pow_add_r by lia; reflexivity).
  assert (Eh : 2 ^ (1080 - 54) = 2 ^ 5 * 2 ^ 1021)
    by (rewrite <- Z.pow_add_r by lia; reflexivity).
  assert (Ht : 0 < 2 ^ 1021) by (apply Z.pow_pos_nonneg; lia).
  assert (Hu : 0 < ulps) by (rewrite Et; lia).
  change (2 ^ 53) with 9007199254740992 in Et.
  change (2 ^ 59) with 576460752303423488 in Ek.
  change (2 ^ 5) with 32 in Eh.
  assert (Hp : 0 <= m * 36 < 2 ^ 1080) by (rewrite Ek; nia).
  pose proof (round_nearest_even_bounds (m * 36) 1080 Hp ltac:(lia)) as Hr.
  rewrite Eh in Hr.
  split.
  - apply Z.div_pos; lia.
  - apply Z.div_lt_upper_bound; [lia|]. nia.
Qed.

(** Every in-range index of [chars] holds one character of [[a-z0-9]]. *)
Lemma charAt_chars i :
  0 <= i < Z.of_nat (String.length chars) ->
  exists c, charAt chars i = String c "" /\ is_lower_alnum c = true.
Proof.
  intros Hi.
  assert (Hall : forallb
            (fun n => match charAt chars (Z.of_nat n) with
                      | String c EmptyString => is_lower_alnum c
                      | _ => false
                      end)
            (seq 0 (String.length chars)) = true) by (vm_compute; reflexivity).
  rewrite forallb_forall in Hall.
  specialize (Hall (Z.to_nat i)).
  rewrite Z2Nat.id in Hall by lia.
  assert (Hin : In (Z.to_nat i) (seq 0 (String.length chars)))
    by (apply in_seq; lia).
  specialize (Hall Hin).
  destruct (charAt chars i) as [|c [|]]; try discriminate.
  now exists c.
Qed.

Lemma is_lower_alnum_iff c :
  is_lower_alnum c = true <-> lower_letter_or_digit c.
Proof.
  unfold is_lower_alnum, lower_letter_or_digit.
  rewrite orb_true_iff, !andb_true_iff, !N.leb_le. tauto.
Qed.

(** The loop makes [n] draws and appends one character per draw. *)
Lemma generate_loop_counter rnd n :
  forall k acc, snd (generate_loop rnd k n acc) = (k + n)%nat.
Proof.
  induction n as [|n IH]; intros k acc; simpl.
  - lia.
  - rewrite IH. lia.
Qed.

Lemma generate_loop_chars rnd n :
  in_unit_interval rnd ->
  forall k acc,
  exists s,
    fst (generate_loop rnd k n acc) = (acc ++ s)%string
    /\ String.length s = n
    /\ forall i c, String.get i s = Some c -> lower_letter_or_digit c.
Proof.
  intros Hrnd. induction n as [|n IH]; intros k acc; simpl.
  - exists ""%string. rewrite string_append_nil_r.
    repeat split. intros i c H. destruct i; discriminate H.
  - destruct (Hrnd k) as [H0 H1].
    destruct (charAt_chars _ (random_index_range (rnd k) H0 H1))
      as [c [Hc Hok]].
    rewrite Hc.
    destruct (IH (S k) (acc ++ String c "")%string) as [s [Hs [Hlen Hall]]].
    exists (String c s). rewrite Hs, string_append_assoc. simpl.
    repeat split; [now rewrite Hlen|].
    intros [|i] d H; simpl in H.
    + injection H as <-. now apply is_lower_alnum_iff.
    + now apply (Hall i).
Qed.

Lemma generateChapterId_counter rnd k :
  snd (generateChapterId rnd k) = (k + 6)%nat.
Proof. apply generate_loop_counter. Qed.

Lemma generateChapterId_eq rnd k :
  generateChapterId rnd k = (drawn_id rnd k, (k + 6)%nat).
Proof.
  unfold drawn_id. rewrite <- (generateChapterId_counter rnd k).
  now destruct (generateChapterId rnd k).
Qed.

Lemma drawn_id_pattern rnd k :
  in_unit_interval rnd -> id_pattern (drawn_id rnd k).
Proof.
  intros Hrnd. unfold drawn_id, generateChapterId.
  destruct (generate_loop_chars rnd 6 Hrnd k "") as [s [Hs [Hlen Hall]]].
  rewrite Hs. simpl. split; assumption.
Qed.

Lemma id_pattern_nonempty s : id_pattern s -> s <> "".
Proof. intros [Hlen _] ->. discriminate Hlen. Qed.

(* ------------------------------------------------------------------ *)
(** ** Chapter creation *)

Lemma max_id_none l : max_id l = None <-> l = [].
Proof.
  destruct l as [|x r]; simpl; [tauto|].
  destruct (max_id r); split; discriminate.
Qed.

Lemma max_id_some l :
  forall m, max_id l = Some m -> In m l /\ forall x, In x l -> x <= m.
Proof.
  induction l as [|x r IH]; simpl; intros m H; [discriminate|].
  destruct (max_id r) as [y|] eqn:E.
  - injection H as <-. destruct (IH y eq_refl) as [Hin Hmax]. split.
    + destruct (Z.max_spec x y) as [[_ ->] | [_ ->]]; auto.
    + intros z [<- | Hz]; [lia|]. specialize (Hmax z Hz). lia.
  - injection H as <-. apply max_id_none in E. subst r. split.
    + now left.
    + intros z [<- | []]. lia.
Qed.

Lemma or_str_empty_default s : or_str (Some s) "" = s.
Proof. now destruct s. Qed.

Lemma or_num_zero_default n : or_num (Some n) 0 = n.
Proof. simpl. destruct (n =? 0) eqn:E; [apply Z.eqb_eq in E; auto | auto]. Qed.

Lemma new_chapter_fields uuid now id req db :
  let c := new_chapter uuid now id req db in
  Chapter.ID c = match max_id (map Chapter.ID (chapters db)) with
                 | Some m => m
                 | None => 0
                 end + 1
  /\ Chapter.Chapter_Name c = req_Chapter_Name req
  /\ Chapter.Status c = "pending"
  /\ (id <> "" -> Chapter.Chapter_Id c = id).
Proof.
  unfold new_chapter, Chapter.ChapterModel.
  cbn [Chapter.ID Chapter.Chapter_Name Chapter.Status Chapter.Chapter_Id
       Chapter.pID Chapter.pChapter_Name Chapter.pStatus Chapter.pChapter_Id].
  rewrite or_num_zero_default, or_str_empty_default.
  repeat split. intros H. now apply or_str_some.
Qed.

(** The numeric id the handler computes is not in the table. *)
Lemma next_id_fresh db c :
  In c (chapters db) ->
  Chapter.ID c <> match max_id (map Chapter.ID (chapters db)) with
                  | Some m => m
                  | None => 0
                  end + 1.
Proof.
  intros Hin. destruct (max_id (map Chapter.ID (chapters db))) as [m|] eqn:E.
  - destruct (max_id_some _ _ E) as [_ Hmax].
    specialize (Hmax (Chapter.ID c) (in_map _ _ _ Hin)). lia.
  - apply max_id_none in E. apply map_eq_nil in E. rewrite E in Hin.
    contradiction.
Qed.

Lemma insert_chapter_ok row db :
  (forall c, In c (chapters db) -> Chapter.ID c <> Chapter.ID row) ->
  ~ chapter_exists (Chapter.Chapter_Id row) db ->
  insert_chapter row db =
  Ok {| users := users db;
        chapters := chapters db ++ [row];
        memberships := memberships db;
        memberships_seq := memberships_seq db |}.
Proof.
  intros Hid Hcid. unfold insert_chapter.
  rewrite (proj2 (existsb_false_iff _ _)).
  - rewrite (proj2 (existsb_false_iff _ _)) by (now rewrite chapter_rows_iff).
    reflexivity.
  - intros [c [Hin H]]. apply Z.eqb_eq in H. now apply (Hid c).
Qed.

Lemma insert_chapter_inv row db db' :
  insert_chapter row db = Ok db' ->
  db' = {| users := users db;
           chapters := chapters db ++ [row];
           memberships := memberships db;
           memberships_seq := memberships_seq db |}.
Proof.
  unfold insert_chapter. intros H.
  destruct (existsb _ (chapters db)); [discriminate|].
  destruct (existsb _ (chapters db)); [discriminate|].
  now injection H as <-.
Qed.

Lemma createChapter_unfold rnd k uuid now req db :
  createChapter rnd k uuid now req db =
  if (0 <? length (chapters_by_name (req_Chapter_Name req) db))%nat
  then (mkResponse 400
          (JError "Chapter name already exists (case-insensitive)"),
        db, (k + 6)%nat)
  else if (0 <? length (chapters_by_Chapter_Id (drawn_id rnd k) db))%nat
  then (mkResponse 400
          (JError "Generated chapter ID already exists, please try again"),
        db, (k + 6 + 6)%nat)
  else
    match insert_chapter (new_chapter uuid now (drawn_id rnd k) req db) db
    with
    | Throw _ =>
        (mkResponse 500 (JError "Failed to create chapter"), db, (k + 6)%nat)
    | Ok db' =>
        (mkResponse 201
           (JChapter (new_chapter uuid now (drawn_id rnd k) req db)),
         db', (k + 6)%nat)
    end.
Proof.
  unfold createChapter. rewrite !generateChapterId_eq. reflexivity.
Qed.

(** A taken name is reported before anything else is looked at. *)
Lemma createChapter_name_conflict rnd k uuid now req db :
  chapter_name_taken (req_Chapter_Name req) db ->
  createChapter rnd k uuid now req db =
  (mkResponse 400 (JError "Chapter name already exists (case-insensitive)"),
   db, (k + 6)%nat).
Proof.
  intros H. rewrite createChapter_unfold. unfold chapters_by_name.
  now rewrite (proj2 (rows_nonempty_iff _ _))
    by (now apply chapter_name_rows_iff).
Qed.

Lemma createChapter_id_conflict rnd k uuid now req db :
  ~ chapter_name_taken (req_Chapter_Name req) db ->
  chapter_exists (drawn_id rnd k) db ->
  createChapter rnd k uuid now req db =
  (mkResponse 400
     (JError "Generated chapter ID already exists, please try again"),
   db, (k + 6 + 6)%nat).
Proof.
  intros Hn Hid. rewrite createChapter_unfold.
  unfold chapters_by_name, chapters_by_Chapter_Id.
  rewrite (proj2 (rows_nonempty_false _ _))
    by (now rewrite chapter_name_rows_iff).
  now rewrite (proj2 (rows_nonempty_iff _ _)) by (now apply chapter_rows_iff).
Qed.

Lemma createChapter_success rnd k uuid now req db :
  drawn_id rnd k <> "" ->
  ~ chapter_name_taken (req_Chapter_Name req) db ->
  ~ chapter_exists (drawn_id rnd k) db ->
  createChapter rnd k uuid now req db =
  (mkResponse 201 (JChapter (new_chapter uuid now (drawn_id rnd k) req db)),
   {| users := users db;
      chapters :=
        chapters db ++ [new_chapter uuid now (drawn_id rnd k) req db];
      memberships := memberships db;
      memberships_seq := memberships_seq db |},
   (k + 6)%nat).
Proof.
  intros Hne Hn Hid. rewrite createChapter_unfold.
  unfold chapters_by_name, chapters_by_Chapter_Id.
  rewrite (proj2 (rows_nonempty_false _ _))
    by (now rewrite chapter_name_rows_iff).
  rewrite (proj2 (rows_nonempty_false _ _)) by (now rewrite chapter_rows_iff).
  destruct (new_chapter_fields uuid now (drawn_id rnd k) req db)
    as (FID & _ & _ & FCid).
  rewrite insert_chapter_ok; [reflexivity | |].
  - intros c Hin. rewrite FID. now apply next_id_fresh.
  - now rewrite (FCid Hne).
Qed.

(** A 201 answer comes with the insert of the record it carries. *)
Lemma createChapter_created rnd k uuid now req db r db' k' :
  createChapter rnd k uuid now req db = (r, db', k') ->
  status r = 201 ->
  r = mkResponse 201 (JChapter (new_chapter uuid now (drawn_id rnd k) req db))
  /\ db' = {| users := users db;
              chapters :=
                chapters db ++ [new_chapter uuid now (drawn_id rnd k) req db];
              memberships := memberships db;
              memberships_seq := memberships_seq db |}.
Proof.
  rewrite createChapter_unfold. intros H Hs.
  destruct (0 <? length (chapters_by_name _ db))%nat;
    [injection H as <- _ _; discriminate Hs|].
  destruct (0 <? length (chapters_by_Chapter_Id _ db))%nat;
    [injection H as <- _ _; discriminate Hs|].
  destruct (insert_chapter _ db) as [db''|msg] eqn:E;
    [|injection H as <- _ _; discriminate Hs].
  apply insert_chapter_inv in E. injection H as <- <- _. now split.
Qed.

Lemma createChapter_returned rnd k uuid now req db r db' k' c :
  createChapter rnd k uuid now req db = (r, db', k') ->
  body r = JChapter c ->
  status r = 201 /\ c = new_chapter uuid now (drawn_id rnd k) req db.
Proof.
  rewrite createChapter_unfold. intros H Hb.
  destruct (0 <? length (chapters_by_name _ db))%nat;
    [injection H as <- _ _; discriminate Hb|].
  destruct (0 <? length (chapters_by_Chapter_Id _ db))%nat;
    [injection H as <- _ _; discriminate Hb|].
  destruct (insert_chapter _ db) as [db''|msg];
    [|injection H as <- _ _; discriminate Hb].
  injection H as <- _ _. cbn [body] in Hb. injection Hb as <-. now split.
Qed.

Lemma rnd_cycle_in_unit_interval : in_unit_interval rnd_cycle.
Proof.
  intros n. unfold rnd_cycle, Qle, Qlt. cbn [Qnum Qden].
  pose proof (Nat.mod_upper_bound n 7). lia.
Qed.

Lemma rnd_zero_in_unit_interval : in_unit_interval rnd_zero.
Proof. intros n. unfold rnd_zero, Qle, Qlt. cbn. lia. Qed.

(** C4.  When a chapter creation succeeds, a later creation whose name
    equals the first one's up to case fails with 400 "Chapter name already
    exists (case-insensitive)" and inserts nothing; "later" is any store
    that still holds the chapters of the store the first creation left (no
    operation removes a chapter).  The name check comes first: a taken name
    gives that answer whether or not the generated identifier collides, and
    before any insert. *)
Theorem createChapter_name_conflict_first :
  (forall rnd k uuid now req1 db r1 db1 k1 rnd' k' uuid' now' req2 db2,
     createChapter rnd k uuid now req1 db = (r1, db1, k1) ->
     status r1 = 201 ->
     (forall c, In c (chapters db1) -> In c (chapters db2)) ->
     eq_ignoring_case (req_Chapter_Name req1) (req_Chapter_Name req2) ->
     createChapter rnd' k' uuid' now' req2 db2 =
     (mkResponse 400
        (JError "Chapter name already exists (case-insensitive)"),
      db2, (k' + 6)%nat))
  /\ (forall rnd k uuid now req db,
        chapter_name_taken (req_Chapter_Name req) db ->
        createChapter rnd k uuid now req db =
        (mkResponse 400
           (JError "Chapter name already exists (case-insensitive)"),
         db, (k + 6)%nat)).
Proof.
  split.
  - intros rnd k uuid now req1 db r1 db1 k1 rnd' k' uuid' now' req2 db2
      H Hs Hkept Heq.
    destruct (createChapter_created _ _ _ _ _ _ _ _ _ H Hs) as [_ ->].
    apply createChapter_name_conflict.
    exists (new_chapter uuid now (drawn_id rnd k) req1 db). split.
    + apply Hkept. cbn [chapters]. apply in_or_app. right. now left.
    + destruct (new_chapter_fields uuid now (drawn_id rnd k) req1 db)
        as (_ & -> & _). assumption.
  - intros. now apply createChapter_name_conflict.
Qed.

Lemma createChapter_name_conflict_first_witness :
  let '(r1, db1, k1) :=
    createChapter rnd_cycle 0 "3b241101-e2bb-4255-8caf-4136c566a962"
      "2024-03-01T00:00:00.000Z" req_Alpha db_empty in
  status r1 = 201
  /\ eq_ignoring_case (req_Chapter_Name req_Alpha) (req_Chapter_Name req_alpha)
  /\ createChapter rnd_zero 0 "3b241101-e2bb-4255-8caf-4136c566a963"
       "2024-03-02T00:00:00.000Z" req_alpha db1
     = (mkResponse 400
          (JError "Chapter name already exists (case-insensitive)"),
        db1, 6%nat).
Proof.
  destruct (createChapter rnd_cycle 0 "3b241101-e2bb-4255-8caf-4136c566a962"
              "2024-03-01T00:00:00.000Z" req_Alpha db_empty)
    as [[r1 db1] k1] eqn:E.
  assert (Hs : status r1 = 201).
  { vm_compute in E. injection E as <- _ _. reflexivity. }
  assert (Heq : eq_ignoring_case (req_Chapter_Name req_Alpha)
                  (req_Chapter_Name req_alpha))
    by (apply LOWER_eq_iff; reflexivity).
  split; [exact Hs|]. split; [exact Heq|].
  exact (proj1 createChapter_name_conflict_first _ _ _ _ _ _ _ _ _
           rnd_zero 0%nat _ _ req_alpha db1 E Hs (fun c H => H) Heq).
Defined.

(** C5.  With [Math.random()] in [0, 1), the identifier [createChapter]
    generates is six characters long, each a lowercase letter or a digit;
    a chapter record that the handler returns carries that identifier; and
    a request that passes both conflict checks does return a record. *)
Theorem createChapter_identifier_pattern rnd k uuid now req db :
  in_unit_interval rnd ->
  id_pattern (drawn_id rnd k)
  /\ (forall r db' k' c,
        createChapter rnd k uuid now req db = (r, db', k') ->
        body r = JChapter c ->
        Chapter.Chapter_Id c = drawn_id rnd k
        /\ id_pattern (Chapter.Chapter_Id c))
  /\ (~ chapter_name_taken (req_Chapter_Name req) db ->
      ~ chapter_exists (drawn_id rnd k) db ->
      exists c db',
        createChapter rnd k uuid now req db
        = (mkResponse 201 (JChapter c), db', (k + 6)%nat)
        /\ id_pattern (Chapter.Chapter_Id c)).
Proof.
  intros Hrnd.
  pose proof (drawn_id_pattern rnd k Hrnd) as Hpat.
  pose proof (id_pattern_nonempty _ Hpat) as Hne.
  destruct (new_chapter_fields uuid now (drawn_id rnd k) req db)
    as (_ & _ & _ & FCid).
  split; [assumption|]. split.
  - intros r db' k' c H Hb.
    destruct (createChapter_returned _ _ _ _ _ _ _ _ _ _ H Hb) as [_ ->].
    rewrite (FCid Hne). now split.
  - intros Hn Hid. eexists. eexists. split.
    + now apply createChapter_success.
    + now rewrite (FCid Hne).
Qed.

Lemma createChapter_identifier_pattern_witness :
  in_unit_interval rnd_cycle
  /\ drawn_id rnd_edge 0 = "zzzzzz"
  /\ id_pattern
       (drawn_id rnd_cycle 0)
  /\ fst (fst (createChapter rnd_cycle 0
                 "3b241101-e2bb-4255-8caf-4136c566a962"
                 "2024-03-01T00:00:00.000Z" req_Delta db_gamma))
     = mkResponse 201
         (JChapter
            (Chapter.mk 5 "afkpuz" "Delta" "d" "u1" "pending"
               "2024-03-01T00:00:00.000Z" "2024-03-01T00:00:00.000Z")).
Proof.
  split; [exact rnd_cycle_in_unit_interval|].
  split; [vm_compute; reflexivity|]. split.
  - exact (proj1 (createChapter_identifier_pattern rnd_cycle 0
                    "" "" req_Delta db_gamma rnd_cycle_in_unit_interval)).
  - vm_compute. reflexivity.
Defined.

(** C6.  When the freshly generated identifier is already in the store,
    [createChapter] answers with the error status 400 and leaves the store
    as it was; with a free name the answer is "Generated chapter ID already
    exists, please try again".  The handler does draw a second identifier
    (six more calls of [Math.random()], twelve in all), but neither the
    answer nor the store depends on it: there is no second insert
    attempt. *)
Theorem createChapter_id_collision_fails rnd k uuid now req db :
  chapter_exists (drawn_id rnd k) db ->
  exists r k',
    createChapter rnd k uuid now req db = (r, db, k')
    /\ status r = 400
    /\ (~ chapter_name_taken (req_Chapter_Name req) db ->
        r = mkResponse 400
              (JError "Generated chapter ID already exists, please try again")
        /\ k' = (k + 6 + 6)%nat).
Proof.
  intros Hid.
  destruct (0 <? length (chapters_by_name (req_Chapter_Name req) db))%nat
    eqn:E; unfold chapters_by_name in E.
  - apply rows_nonempty_iff, chapter_name_rows_iff in E.
    rewrite (createChapter_name_conflict _ _ _ _ _ _ E).
    do 2 eexists. split; [reflexivity|]. split; [reflexivity|].
    intros Hn. contradiction.
  - apply rows_nonempty_false in E. rewrite chapter_name_rows_iff in E.
    rewrite (createChapter_id_conflict _ _ _ _ _ _ E Hid).
    do 2 eexists. split; [reflexivity|]. split; [reflexivity|].
    intros _. split; reflexivity.
Qed.

Lemma createChapter_id_collision_fails_witness :
  chapter_exists (drawn_id rnd_zero 0) db_gamma
  /\ createChapter rnd_zero 0 "3b241101-e2bb-4255-8caf-4136c566a962"
       "2024-03-01T00:00:00.000Z" req_Delta db_gamma
     = (mkResponse 400
          (JError "Generated chapter ID already exists, please try again"),
        db_gamma, 12%nat).
Proof.
  assert (Hn : ~ chapter_name_taken (req_Chapter_Name req_Delta) db_gamma).
  { intros [c [[<- | []] H]]. apply LOWER_eq_iff in H. discriminate H. }
  assert (Hid : chapter_exists (drawn_id rnd_zero 0) db_gamma).
  { exists gamma. split; [now left | reflexivity]. }
  split; [exact Hid|].
  destruct (createChapter_id_collision_fails rnd_zero 0
              "3b241101-e2bb-4255-8caf-4136c566a962"
              "2024-03-01T00:00:00.000Z" req_Delta db_gamma Hid)
    as (r & k' & Hrun & _ & Hmsg).
  destruct (Hmsg Hn) as [-> ->]. exact Hrun.
Defined.

(** C7.  A chapter creation that passes both conflict checks inserts a
    record whose numeric id the handler has computed itself: 1 when the
    chapters table is empty, otherwise the greatest numeric id of the table
    plus one.  The record is inserted with status "pending", and it is the
    record returned. *)
Theorem createChapter_next_numeric_id rnd k uuid now req db :
  in_unit_interval rnd ->
  ~ chapter_name_taken (req_Chapter_Name req) db ->
  ~ chapter_exists (drawn_id rnd k) db ->
  exists c,
    createChapter rnd k uuid now req db
    = (mkResponse 201 (JChapter c),
       {| users := users db;
          chapters := chapters db ++ [c];
          memberships := memberships db;
          memberships_seq := memberships_seq db |},
       (k + 6)%nat)
    /\ Chapter.Status c = "pending"
    /\ ((chapters db = [] /\ Chapter.ID c = 1)
        \/ exists m, greatest_chapter_id m db /\ Chapter.ID c = m + 1).
Proof.
  intros Hrnd Hn Hid.
  pose proof (id_pattern_nonempty _ (drawn_id_pattern rnd k Hrnd)) as Hne.
  exists (new_chapter uuid now (drawn_id rnd k) req db).
  destruct (new_chapter_fields uuid now (drawn_id rnd k) req db)
    as (FID & _ & FSt & _).
  split; [now apply createChapter_success|]. split; [assumption|].
  rewrite FID.
  destruct (max_id (map Chapter.ID (chapters db))) as [m|] eqn:E.
  - right. exists m. split; [|reflexivity].
    destruct (max_id_some _ _ E) as [Hin Hmax]. split.
    + apply in_map_iff in Hin. destruct Hin as [c [Hc Hc']]. now exists c.
    + intros c Hc. apply Hmax. now apply in_map.
  - left. apply max_id_none, map_eq_nil in E. now split.
Qed.

Lemma createChapter_next_numeric_id_witness :
  in_unit_interval rnd_cycle
  /\ ~ chapter_name_taken (req_Chapter_Name req_Delta) db_gamma
  /\ ~ chapter_exists (drawn_id rnd_cycle 0) db_gamma
  /\ exists c,
       createChapter rnd_cycle 0 "3b241101-e2bb-4255-8caf-4136c566a962"
         "2024-03-01T00:00:00.000Z" req_Delta db_gamma
       = (mkResponse 201 (JChapter c),
          {| users := users db_gamma;
             chapters := chapters db_gamma ++ [c];
             memberships := memberships db_gamma;
             memberships_seq := memberships_seq db_gamma |},
          6%nat)
       /\ Chapter.Status c = "pending"
       /\ ((chapters db_gamma = [] /\ Chapter.ID c = 1)
           \/ exists m, greatest_chapter_id m db_gamma
                        /\ Chapter.ID c = m + 1).
Proof.
  assert (Hn : ~ chapter_name_taken (req_Chapter_Name req_Delta) db_gamma).
  { intros [c [[<- | []] H]]. apply LOWER_eq_iff in H. discriminate H. }
  assert (Hid : ~ chapter_exists (drawn_id rnd_cycle 0) db_gamma).
  { intros [c [[<- | []] H]]. vm_compute in H. discriminate H. }
  split; [exact rnd_cycle_in_unit_interval|].
  split; [exact Hn|]. split; [exact Hid|].
  exact (createChapter_next_numeric_id rnd_cycle 0 _ _ req_Delta db_gamma
           rnd_cycle_in_unit_interval Hn Hid).
Defined.

(* ------------------------------------------------------------------ *)
(** ** Listing chapters *)

Lemma string_leb_trans (a b c : string) :
  (a <=? b)%string = true -> (b <=? c)%string = true ->
  (a <=? c)%string = true.
Proof.
  unfold String.leb. revert b c.
  induction a as [|x a IH]; intros [|y b] [|z c]; simpl; try congruence.
  unfold Ascii.compare.
  destruct (N.compare_spec (N_of_ascii x) (N_of_ascii y)) as [Exy|Exy|Exy];
    destruct (N.compare_spec (N_of_ascii y) (N_of_ascii z)) as [Eyz|Eyz|Eyz];
    destruct (N.compare_spec (N_of_ascii x) (N_of_ascii z)) as [Exz|Exz|Exz];
    try congruence; try lia.
  apply IH.
Qed.

Lemma name_le_trans a b c : name_le a b -> name_le b c -> name_le a c.
Proof. apply string_leb_trans. Qed.

Lemma insert_by_name_perm c l : Permutation (c :: l) (insert_by_name c l).
Proof.
  induction l as [|d r IH]; simpl.
  - reflexivity.
  - destruct (_ <=? _)%string.
    + reflexivity.
    + rewrite perm_swap. now constructor.
Qed.

Lemma order_by_Chapter_Name_perm l :
  Permutation (order_by_Chapter_Name l) l.
Proof.
  induction l as [|c l IH]; simpl.
  - constructor.
  - rewrite <- insert_by_name_perm. now constructor.
Qed.

Lemma insert_by_name_sorted c l :
  StronglySorted name_le l -> StronglySorted name_le (insert_by_name c l).
Proof.
  induction 1 as [|d r Hs IH Hd]; simpl.
  - repeat constructor.
  - destruct (_ <=? _)%string eqn:E.
    + constructor; [now constructor|].
      constructor; [exact E|].
      rewrite Forall_forall in *. intros x Hx.
      apply name_le_trans with d; [exact E | now apply Hd].
    + constructor; [assumption|].
      rewrite Forall_forall in *. intros x Hx.
      apply (Permutation_in _ (Permutation_sym (insert_by_name_perm c r)))
        in Hx.
      destruct Hx as [<- | Hx]; [|now apply Hd].
      unfold name_le.
      destruct (String.leb_total (Chapter.Chapter_Name d)
                  (Chapter.Chapter_Name c)); congruence.
Qed.

Lemma order_by_Chapter_Name_sorted l :
  StronglySorted name_le (order_by_Chapter_Name l).
Proof.
  induction l as [|c l IH]; simpl.
  - constructor.
  - now apply insert_by_name_sorted.
Qed.

Lemma ceil_div_bounds n d :
  0 < d -> (ceil_div n d - 1) * d < n <= ceil_div n d * d.
Proof.
  intros Hd. unfold ceil_div.
  pose proof (Z.mul_div_le (- n) d Hd).
  pose proof (Z.mul_succ_div_gt (- n) d Hd).
  lia.
Qed.

Lemma pow2_53 : 2 ^ 53 = 9007199254740992.
Proof. reflexivity. Qed.

Lemma pow2_63 : 2 ^ 63 = 9223372036854775808.
Proof. reflexivity. Qed.

(** The whole numbers up to [2^53] are doubles. *)
Lemma round_nearest_even_exact n :
  0 <= n <= 2 ^ 53 -> round_nearest_even n = n.
Proof.
  intros [H0 H1]. destruct (Z.eq_dec n (2 ^ 53)) as [-> | Hn];
    [reflexivity|].
  unfold round_nearest_even.
  assert (E : excess n = 0).
  { unfold excess. destruct (Z.eq_dec n 0) as [-> | Hz]; [reflexivity|].
    assert (Z.log2 n < 53) by (apply Z.log2_lt_pow2; lia). lia. }
  now rewrite E.
Qed.

Lemma number_of_int_exact z :
  Z.abs z <= 2 ^ 53 -> number_of_int z = Finite z.
Proof.
  intros H. unfold number_of_int.
  rewrite round_nearest_even_exact by lia.
  assert (Hlt : 2 ^ 53 < 2 ^ 1024) by (apply Z.pow_lt_mono_r; lia).
  rewrite (proj2 (Z.leb_gt _ _)) by lia.
  f_equal. lia.
Qed.

Lemma mathInt_parseInt s z :
  mathInt s = Some z -> Z.abs z <= 2 ^ 53 -> parseInt s = Finite z.
Proof.
  intros H Hz. unfold parseInt. rewrite H. now apply number_of_int_exact.
Qed.

Lemma or_number_nonzero n d : n <> 0 -> or_number (Finite n) d = Finite n.
Proof. intros H. simpl. apply Z.eqb_neq in H. now rewrite H. Qed.

(** The answer of [getChapters] when page and limit are finite and the
    offset is computed without rounding. *)
Lemma getChapters_listing qpage qlimit p L db :
  or_number (parseInt (ToString qpage)) (Finite 1) = Finite p ->
  or_number (parseInt (ToString qlimit)) (Finite 50) = Finite L ->
  Z.abs (p - 1) <= 2 ^ 53 -> Z.abs ((p - 1) * L) <= 2 ^ 53 ->
  - 2 ^ 63 < L < 2 ^ 63 ->
  getChapters qpage qlimit db
  = mkResponse 200
      (JChapters
         (map id_and_name
            (limit_offset L ((p - 1) * L)
               (order_by_Chapter_Name (chapters db))))
         (Z.of_nat (length (chapters db))) p L
         (ceil_div (Z.of_nat (length (chapters db))) L)).
Proof.
  intros Hp HL H1 H2 H3. unfold getChapters. rewrite Hp, HL.
  cbn [number_sub number_mul].
  rewrite (number_of_int_exact (p - 1)) by assumption.
  cbn [number_mul].
  rewrite (number_of_int_exact ((p - 1) * L)) by assumption.
  cbn [sql_integer].
  assert (Hlt : 2 ^ 53 < 2 ^ 63) by (apply Z.pow_lt_mono_r; lia).
  assert (E1 : (- 2 ^ 63 <? L) && (L <? 2 ^ 63) = true).
  { apply andb_true_iff. rewrite !Z.ltb_lt. lia. }
  assert (E2 : (- 2 ^ 63 <? (p - 1) * L) && ((p - 1) * L <? 2 ^ 63) = true).
  { apply andb_true_iff. rewrite !Z.ltb_lt. lia. }
  rewrite E1, E2. reflexivity.
Qed.


(** A listing carries the size of the table as its [total]. *)
Lemma getChapters_total qpage qlimit db rows total page limit totalPages :
  getChapters qpage qlimit db
  = mkResponse 200 (JChapters rows total page limit totalPages) ->
  total = Z.of_nat (length (chapters db)).
Proof.
  unfold getChapters.
  destruct (or_number (parseInt (ToString qpage)) (Finite 1));
    try discriminate.
  destruct (sql_integer _); try discriminate.
  destruct (sql_integer _); try discriminate.
  intros H. now injection H.
Qed.


(** C8, amended.  On a request whose page reads [p] and whose limit reads
    [L], with [1 <= p <= 2^53], [1 <= L <= 2^53] and [(p-1)*L <= 2^53]
    (so that the handler's doubles hold [p], [L] and the offset exactly),
    over a store of [N] chapters, [getChapters] answers 200 with the
    identifier and name of the chapters at positions
    [(p-1)*L .. (p-1)*L + L - 1] of the table sorted by name, hence of at
    most [L] chapters, and with the envelope [total = N], [page = p],
    [limit = L] and [totalPages] the least integer [t] with [N <= t * L];
    past the last page the list is empty and [total] is still [N]. *)
Theorem getChapters_pagination qpage qlimit p L db :
  mathInt (ToString qpage) = Some p ->
  mathInt (ToString qlimit) = Some L ->
  1 <= p <= 2 ^ 53 -> 1 <= L <= 2 ^ 53 -> (p - 1) * L <= 2 ^ 53 ->
  lists_page p L (getChapters qpage qlimit db) db.
Proof.
  intros Hp HL Hp1 HL1 Ho.
  pose proof pow2_53 as E53. pose proof pow2_63 as E63.
  exists (order_by_Chapter_Name (chapters db)).
  eexists. exists (ceil_div (Z.of_nat (length (chapters db))) L).
  split; [apply order_by_Chapter_Name_perm|].
  split; [apply order_by_Chapter_Name_sorted|].
  pose proof (ceil_div_bounds (Z.of_nat (length (chapters db))) L) as Hc.
  split; [|split; [reflexivity|]].
  - rewrite (getChapters_listing qpage qlimit p L db).
    + unfold limit_offset.
      rewrite (proj2 (Z.ltb_ge L 0)) by lia. reflexivity.
    + rewrite (mathInt_parseInt _ p Hp) by lia.
      apply or_number_nonzero. lia.
    + rewrite (mathInt_parseInt _ L HL) by lia.
      apply or_number_nonzero. lia.
    + lia.
    + nia.
    + lia.
  - split; [|split; [apply Hc; lia|]].
    + rewrite length_map. pose proof (firstn_le_length (Z.to_nat L)
        (skipn (Z.to_nat ((p - 1) * L))
           (order_by_Chapter_Name (chapters db)))). lia.
    + intros Hlast. rewrite skipn_all2; [now rewrite firstn_nil|].
      rewrite (Permutation_length (order_by_Chapter_Name_perm _)). nia.
Qed.

Lemma getChapters_pagination_witness :
  mathInt (ToString (Some "2")) = Some 2
  /\ getChapters (Some "2") (Some "2") db_five
     = mkResponse 200
         (JChapters [("aaaaa3", "Hamburg"); ("aaaaa5", "Malmo")] 5 2 2 3)
  /\ lists_page 2 2 (getChapters (Some "2") (Some "2") db_five) db_five
  /\ lists_page 4 2 (getChapters (Some "4") (Some "2") db_five) db_five
  /\ getChapters (Some "4") (Some "2") db_five
     = mkResponse 200 (JChapters [] 5 4 2 3).
Proof.
  split; [reflexivity|]. split; [vm_compute; reflexivity|].
  split; [|split].
  - apply (getChapters_pagination (Some "2") (Some "2") 2 2 db_five
             eq_refl eq_refl); rewrite ?pow2_53; lia.
  - apply (getChapters_pagination (Some "4") (Some "2") 4 2 db_five
             eq_refl eq_refl); rewrite ?pow2_53; lia.
  - vm_compute. reflexivity.
Defined.

(** C8, as the specification words it for every [p >= 1] and [L >= 1],
    fails beyond the whole numbers a double holds: with
    [limit=99999999999999999999] the statement's LIMIT argument is a REAL
    that is no 64-bit integer, the statement fails and the answer is 500;
    and [page=9007199254740993], which is [2^53 + 1], is echoed as
    [9007199254740992]. *)
Lemma getChapters_pagination_beyond_doubles :
  mathInt (ToString (Some "1")) = Some 1
  /\ mathInt (ToString (Some "99999999999999999999"))
     = Some 99999999999999999999
  /\ getChapters (Some "1") (Some "99999999999999999999") db_five
     = mkResponse 500 (JError "Failed to fetch chapters")
  /\ ~ lists_page 1 99999999999999999999
         (getChapters (Some "1") (Some "99999999999999999999") db_five)
         db_five
  /\ mathInt (ToString (Some "9007199254740993")) = Some 9007199254740993
  /\ getChapters (Some "9007199254740993") (Some "1") db_five
     = mkResponse 200 (JChapters [] 5 9007199254740992 1 5)
  /\ ~ lists_page 9007199254740993 1
         (getChapters (Some "9007199254740993") (Some "1") db_five)
         db_five.
Proof.
  assert (H1 : getChapters (Some "1") (Some "99999999999999999999") db_five
               = mkResponse 500 (JError "Failed to fetch chapters"))
    by (vm_compute; reflexivity).
  assert (H2 : getChapters (Some "9007199254740993") (Some "1") db_five
               = mkResponse 200 (JChapters [] 5 9007199254740992 1 5)).
  { rewrite (getChapters_listing (Some "9007199254740993") (Some "1")
               9007199254740992 1 db_five);
      [ | vm_compute; reflexivity | vm_compute; reflexivity
        | rewrite pow2_53; lia | rewrite pow2_53; lia
        | rewrite pow2_63; lia ].
    unfold limit_offset. rewrite skipn_all2; [reflexivity|].
    rewrite (Permutation_length (order_by_Chapter_Name_perm _)).
    change (length (chapters db_five)) with 5%nat. lia. }
  split; [reflexivity|]. split; [vm_compute; reflexivity|].
  split; [exact H1|]. split; [|split; [vm_compute; reflexivity|split]].
  - intros (sorted & rows & t & _ & _ & H & _). rewrite H1 in H.
    discriminate H.
  - exact H2.
  - intros (sorted & rows & t & _ & _ & H & _). rewrite H2 in H.
    injection H as _ H _. discriminate H.
Qed.

(* ------------------------------------------------------------------ *)
(** ** Defaults of the page and limit parameters *)

Lemma digit_value_non_decimal c :
  is_decimal_digit c = false -> digit_value 10 c = None.
Proof.
  unfold is_decimal_digit, digit_value. intros H.
  assert (E : (48 <=? Z.of_N (code c)) && (Z.of_N (code c) <=? 57) = false).
  { apply andb_false_iff in H. apply andb_false_iff.
    rewrite N.leb_gt in H. rewrite N.leb_gt in H.
    rewrite !Z.leb_gt. lia. }
  rewrite E.
  destruct ((97 <=? Z.of_N (code c)) && (Z.of_N (code c) <=? 122)) eqn:E1.
  - apply andb_true_iff in E1. rewrite !Z.leb_le in E1.
    now rewrite (proj2 (Z.ltb_ge _ _)) by lia.
  - destruct ((65 <=? Z.of_N (code c)) && (Z.of_N (code c) <=? 90)) eqn:E2;
      [|reflexivity].
    apply andb_true_iff in E2. rewrite !Z.leb_le in E2.
    now rewrite (proj2 (Z.ltb_ge _ _)) by lia.
Qed.






(* ------------------------------------------------------------------ *)
(** ** Deleting a user *)

Lemma includes_at_iff s : includes s "@" = true <-> contains_at s.
Proof.
  unfold contains_at. induction s as [|c r IH].
  - split; [discriminate|]. intros [[|x a] [b H]]; discriminate H.
  - cbn [includes prefix]. rewrite orb_true_iff, IH. split.
    + intros [H | [a [b ->]]].
      * destruct (ascii_dec "@" c) as [<- | _]; [|discriminate H].
        now exists ""%string, r.
      * now exists (String c a), b.
    + intros [[|x a] [b H]]; injection H as -> ->.
      * left. destruct (ascii_dec "@" "@") as [_ | n];
          [now destruct b | now contradiction n].
      * right. now exists a, b.
Qed.

Lemma hex_run_app n : forall h r,
  hex_group n h -> hex_run n (h ++ r) = Some r.
Proof.
  induction n as [|n IH]; intros [|c h] r [Hlen Hall]; try discriminate Hlen.
  - reflexivity.
  - cbn in Hall. apply andb_true_iff in Hall. destruct Hall as [Hc Hall].
    cbn. rewrite Hc. apply IH. split; [now injection Hlen | assumption].
Qed.

Lemma hex_run_inv n : forall s r,
  hex_run n s = Some r -> exists h, s = (h ++ r)%string /\ hex_group n h.
Proof.
  induction n as [|n IH]; intros s r H.
  - injection H as ->. exists ""%string. now repeat split.
  - destruct s as [|c s]; [discriminate H|]. cbn in H.
    destruct (is_hex c) eqn:Hc; [|discriminate H].
    destruct (IH s r H) as [h [-> [Hlen Hall]]].
    exists (String c h). repeat split.
    + cbn. now rewrite Hlen.
    + cbn. now rewrite Hc.
Qed.

Lemma dash_iff s r : dash s = Some r <-> s = String "-" r.
Proof.
  unfold dash. destruct s as [|c s]; [split; discriminate|].
  destruct (Ascii.eqb_spec c "-") as [-> | Hc].
  - split; [now intros [= ->] | now intros [= ->]].
  - split.
    + destruct c as [[] [] [] [] [] [] [] []]; try discriminate.
      now contradiction Hc.
    + intros [= -> _]. now contradiction Hc.
Qed.

Lemma and_then_some {A B : Type} (x : option A) (f : A -> option B) b :
  and_then x f = Some b <-> exists a, x = Some a /\ f a = Some b.
Proof.
  destruct x as [a|]; simpl; split.
  - intros H. now exists a.
  - now intros [a' [[= ->] H]].
  - discriminate.
  - now intros [a' [H _]].
Qed.

Lemma uuid_shape_iff s : uuid_shape s = true <-> uuid_form s.
Proof.
  unfold uuid_shape, uuid_form. split.
  - destruct (and_then _ (hex_run 12)) as [[|c r]|] eqn:E; try discriminate.
    intros _.
    apply and_then_some in E. destruct E as [s8 [E E5]].
    apply and_then_some in E. destruct E as [s7 [E D4]].
    apply and_then_some in E. destruct E as [s6 [E E4]].
    apply and_then_some in E. destruct E as [s5 [E D3]].
    apply and_then_some in E. destruct E as [s4 [E E3]].
    apply and_then_some in E. destruct E as [s3 [E D2]].
    apply and_then_some in E. destruct E as [s2 [E E2]].
    apply and_then_some in E. destruct E as [s1 [E1 D1]].
    apply dash_iff in D1, D2, D3, D4.
    apply hex_run_inv in E1, E2, E3, E4, E5.
    destruct E1 as [h1 [-> H1]], E2 as [h2 [-> H2]], E3 as [h3 [-> H3]],
      E4 as [h4 [-> H4]], E5 as [h5 [-> H5]].
    subst. rewrite string_append_nil_r.
    exists h1, h2, h3, h4, h5. split; [reflexivity|]. tauto.
  - intros (h1 & h2 & h3 & h4 & h5 & -> & H1 & H2 & H3 & H4 & H5).
    rewrite (hex_run_app 8 h1 _ H1). cbn [and_then dash append].
    rewrite (hex_run_app 4 h2 _ H2). cbn [and_then dash append].
    rewrite (hex_run_app 4 h3 _ H3). cbn [and_then dash append].
    rewrite (hex_run_app 4 h4 _ H4). cbn [and_then dash append].
    rewrite <- (string_append_nil_r h5).
    now rewrite (hex_run_app 12 h5 _ H5).
Qed.

Lemma where_iff identifier u :
  where_ (select_query identifier) identifier u = true
  <-> matches identifier u.
Proof. unfold where_, matches. apply String.eqb_eq. Qed.

Lemma match_rows_iff identifier db :
  (exists u, In u (users db)
             /\ where_ (select_query identifier) identifier u = true)
  <-> exists u, In u (users db) /\ matches identifier u.
Proof.
  split; intros [u [Hin H]]; exists u; split; auto; now apply where_iff.
Qed.

Lemma referenced_iff u db :
  existsb (fun m => Membership.User_ID m =? User.User_ID u)%string
          (memberships db) = true
  <-> referenced u db.
Proof.
  unfold referenced. rewrite existsb_exists.
  split; intros [m [Hin H]]; exists m; split; auto; now apply String.eqb_eq.
Qed.

Lemma deleteUser_not_found identifier db :
  (forall u, In u (users db) -> ~ matches identifier u) ->
  deleteUser identifier db = (mkResponse 404 (JError "User not found"), db).
Proof.
  intros H. unfold deleteUser.
  rewrite (proj2 (rows_empty_iff _ _)); [reflexivity|].
  rewrite match_rows_iff. intros [u [Hin Hm]]. now apply (H u).
Qed.

Lemma deleteUser_deleted identifier db :
  (exists u, In u (users db) /\ matches identifier u) ->
  (forall u, In u (users db) -> matches identifier u -> ~ referenced u db) ->
  deleteUser identifier db
  = (mkResponse 200 (JMessage true "User deleted successfully"),
     {| users := filter (fun u => negb (where_ (select_query identifier)
                                          identifier u)) (users db);
        chapters := chapters db;
        memberships := memberships db;
        memberships_seq := memberships_seq db |}).
Proof.
  intros Hex Hfree. unfold deleteUser.
  rewrite (proj2 (rows_empty_false _ _)) by (now apply match_rows_iff).
  unfold delete_users.
  rewrite (proj2 (existsb_false_iff _ _)); [reflexivity|].
  intros [u [Hin H]]. apply andb_true_iff in H. destruct H as [Hm Hr].
  apply where_iff in Hm. apply referenced_iff in Hr.
  now apply (Hfree u).
Qed.

Lemma deleteUser_refused identifier db :
  (exists u, In u (users db) /\ matches identifier u /\ referenced u db) ->
  deleteUser identifier db
  = (mkResponse 500
       (JMessage false "Internal server error while deleting user"), db).
Proof.
  intros [u (Hin & Hm & Hr)]. unfold deleteUser.
  rewrite (proj2 (rows_empty_false _ _))
    by (apply match_rows_iff; now exists u).
  unfold delete_users.
  rewrite (proj2 (existsb_exists _ _)); [reflexivity|].
  exists u. split; [assumption|]. apply andb_true_iff. split.
  - now apply where_iff.
  - now apply referenced_iff.
Qed.

(** C9, as the code has it.  [deleteUser] picks the field by the shape of
    the path identifier: email when it contains an at sign, otherwise the
    opaque identifier when it has the UUID shape, otherwise the provider
    id.  When no user row matches on that field the answer is 404 with
    body "User not found", the same for the three shapes, and the store is
    untouched.  When rows match and no membership references any of them,
    exactly the matching rows are deleted and the answer is 200.  When a
    membership references a matching row, the foreign key of the
    memberships table makes the DELETE fail: the answer is 500 and the
    store is untouched. *)
Theorem deleteUser_by_identifier_shape identifier db :
  (contains_at identifier -> select_query identifier = Email_eq)
  /\ (~ contains_at identifier -> uuid_form identifier ->
      select_query identifier = User_ID_eq)
  /\ (~ contains_at identifier -> ~ uuid_form identifier ->
      select_query identifier = GoogleUserId_eq)
  /\ ((forall u, In u (users db) -> ~ matches identifier u) ->
      deleteUser identifier db
      = (mkResponse 404 (JError "User not found"), db))
  /\ ((exists u, In u (users db) /\ matches identifier u) ->
      (forall u, In u (users db) -> matches identifier u ->
                 ~ referenced u db) ->
      exists db',
        deleteUser identifier db
        = (mkResponse 200 (JMessage true "User deleted successfully"), db')
        /\ (forall u, In u (users db')
                      <-> In u (users db) /\ ~ matches identifier u)
        /\ chapters db' = chapters db
        /\ memberships db' = memberships db)
  /\ ((exists u, In u (users db) /\ matches identifier u
                 /\ referenced u db) ->
      deleteUser identifier db
      = (mkResponse 500
           (JMessage false "Internal server error while deleting user"),
         db)).
Proof.
  unfold select_query at 1 2 3.
  repeat split.
  - intros H. apply includes_at_iff in H. now rewrite H.
  - intros Hat Hu. rewrite <- includes_at_iff in Hat.
    apply not_true_is_false in Hat. rewrite Hat.
    apply uuid_shape_iff in Hu. now rewrite Hu.
  - intros Hat Hu. rewrite <- includes_at_iff in Hat.
    apply not_true_is_false in Hat. rewrite Hat.
    rewrite <- uuid_shape_iff in Hu.
    apply not_true_is_false in Hu. now rewrite Hu.
  - apply deleteUser_not_found.
  - intros Hex Hfree. eexists. split; [now apply deleteUser_deleted|].
    cbn [users chapters memberships]. repeat split.
    + now apply filter_In in H.
    + apply filter_In in H. destruct H as [_ H].
      rewrite <- where_iff. now destruct (where_ _ identifier u).
    + intros [Hin Hm]. apply filter_In. split; [assumption|].
      rewrite <- where_iff in Hm. now destruct (where_ _ identifier u).
  - apply deleteUser_refused.
Qed.

Lemma deleteUser_by_identifier_shape_witness :
  contains_at "ann@example.com"
  /\ select_query "ann@example.com" = Email_eq
  /\ deleteUser "ann@example.com" db_ann_alpha
     = (mkResponse 200 (JMessage true "User deleted successfully"),
        mkDb [] [alpha] [] 0)
  /\ deleteUser "ann@example.com" db_joined
     = (mkResponse 500
          (JMessage false "Internal server error while deleting user"),
        db_joined).
Proof.
  assert (Hat : contains_at "ann@example.com")
    by (now exists "ann"%string, "example.com"%string).
  split; [exact Hat|].
  split.
  - exact (proj1 (deleteUser_by_identifier_shape "ann@example.com" db_empty)
             Hat).
  - split; [reflexivity|].
    apply (deleteUser_by_identifier_shape "ann@example.com" db_joined).
    exists ann. split; [now left|]. split; [reflexivity|].
    exists ann_in_alpha. split; [now left | reflexivity].
Defined.

(** C9, as the specification words it, fails: ann has joined a chapter, so
    the row that matches her email is not deleted; the answer is 500. *)
Lemma deleteUser_referenced_user_not_deleted :
  ~ deletes_whenever_matched "ann@example.com" db_joined.
Proof.
  intros [_ H].
  destruct H as [db' [H _]].
  - exists ann. split; [now left | reflexivity].
  - vm_compute in H. discriminate H.
Qed.

(* ------------------------------------------------------------------ *)
(** ** The email check *)

Lemma all_chars_app p (a b : string) :
  all_chars p (a ++ b) = all_chars p a && all_chars p b.
Proof.
  induction a as [|c a IH]; simpl; [reflexivity|].
  now rewrite IH, andb_assoc.
Qed.

Lemma class_run_spec s :
  forall a b,
    class_run s = (a, b) ->
    s = (a ++ b)%string
    /\ all_chars is_class a = true
    /\ match b with
       | String c _ => is_class c = false
       | EmptyString => True
       end.
Proof.
  induction s as [|c s IH]; intros a b H; cbn [class_run] in H.
  - injection H as <- <-. auto.
  - destruct (is_class c) eqn:E.
    + destruct (class_run s) as [a' b'].
      injection H as <- <-.
      destruct (IH a' b' eq_refl) as (-> & Ha & Hb).
      repeat split; [|assumption]. simpl. now rewrite E.
    + injection H as <- <-. repeat split. exact E.
Qed.

Lemma class_run_app a :
  forall rest,
    all_chars is_class a = true ->
    match rest with
    | String c _ => is_class c = false
    | EmptyString => True
    end ->
    class_run (a ++ rest) = (a, rest).
Proof.
  induction a as [|c a IH]; intros rest Ha Hr.
  - destruct rest as [|d r]; [reflexivity|]. simpl. now rewrite Hr.
  - cbn in Ha. apply andb_true_iff in Ha. destruct Ha as [Hc Ha].
    cbn. rewrite Hc. now rewrite (IH rest Ha Hr).
Qed.

Lemma dot_before_last_iff r :
  dot_before_last r = true
  <-> exists p q, r = (p ++ "." ++ q)%string /\ q <> "".
Proof.
  induction r as [|c r IH].
  - split; [discriminate|]. intros [[|x p] [q [H _]]]; discriminate H.
  - destruct r as [|d r'].
    + split; [discriminate|].
      intros [[|x p] [q [H Hq]]].
      * injection H as -> <-. now contradiction Hq.
      * injection H as -> H. destruct p; discriminate H.
    + cbn [dot_before_last]. rewrite orb_true_iff. split.
      * intros [H | H].
        -- apply Ascii.eqb_eq in H. subst c.
           exists ""%string, (String d r'). split; [reflexivity|discriminate].
        -- apply IH in H. destruct H as [p [q [-> Hq]]].
           exists (String c p), q. now split.
      * intros [[|x p] [q [H Hq]]].
        -- injection H as -> _. left. reflexivity.
        -- injection H as -> H. right. apply IH. now exists p, q.
Qed.

Lemma class_string_app_dot b c :
  class_string b -> class_string c ->
  all_chars is_class (b ++ "." ++ c) = true.
Proof.
  intros [_ Hb] [_ Hc]. rewrite all_chars_app, Hb. cbn. now rewrite Hc.
Qed.

Lemma emailRegex_test_iff s : emailRegex_test s = true <-> email_form s.
Proof.
  { unfold emailRegex_test, email_form. split.
    - destruct (class_run s) as [a rest] eqn:E.
      destruct (class_run_spec s a rest E) as (-> & Ha & _).
      intros H. apply andb_true_iff in H. destruct H as [Hne H].
      destruct rest as [|x domain]; [discriminate H|].
      apply andb_true_iff in H. destruct H as [H Hdot].
      apply andb_true_iff in H. destruct H as [Hx Hall].
      apply Ascii.eqb_eq in Hx. subst x.
      destruct domain as [|y r]; [discriminate Hdot|].
      apply dot_before_last_iff in Hdot. destruct Hdot as [p [q [-> Hq]]].
      exists a, (String y p), q. split; [reflexivity|].
      change (String y (p ++ "." ++ q))%string
        with (String y p ++ "." ++ q)%string in Hall.
      rewrite all_chars_app in Hall. apply andb_true_iff in Hall.
      destruct Hall as [Hb Hc]. cbn in Hc.
      repeat split; try assumption; try discriminate.
      now destruct a.
    - intros (a & b & c & -> & [Ha Ha'] & Hb & Hc).
      rewrite (class_run_app a ("@" ++ b ++ "." ++ c) Ha') by reflexivity.
      apply andb_true_iff. split; [now destruct a|].
      cbn [append]. rewrite Ascii.eqb_refl.
      pose proof (class_string_app_dot b c Hb Hc) as Hall.
      cbn [append] in Hall. rewrite Hall. cbn [andb].
      destruct b as [|y p]; [now destruct Hb|].
      cbn [append]. apply dot_before_last_iff.
      exists p, c. split; [reflexivity | now destruct Hc]. }
Qed.

(** X1.  The email check of [createUser] accepts exactly the strings of the
    form [local@domain.tld] whose three parts are non-empty and contain
    neither white space nor an at sign; an accepted email therefore
    contains an at sign. *)
Theorem emailRegex_accepts_local_at_domain_tld s :
  (emailRegex_test s = true <-> email_form s)
  /\ (emailRegex_test s = true -> contains_at s).
Proof.
  split; [apply emailRegex_test_iff|].
  intros H. apply emailRegex_test_iff in H.
  destruct H as (a & b & c & -> & _).
  now exists a, (b ++ "." ++ c)%string.
Qed.

(* ------------------------------------------------------------------ *)
(** ** Creating a user *)

Lemma NoDup_snoc {A : Type} (l : list A) (x : A) :
  NoDup l -> ~ In x l -> NoDup (l ++ [x]).
Proof.
  intros Hl Hx. apply (Permutation_NoDup (Permutation_cons_append l x)).
  now constructor.
Qed.

Lemma next_rowid_above seq ids :
  seq < next_rowid seq ids /\ forall x, In x ids -> x < next_rowid seq ids.
Proof.
  unfold next_rowid. destruct (max_id ids) as [m|] eqn:E.
  - destruct (max_id_some _ _ E) as [_ Hmax]. split; [lia|].
    intros x Hx. specialize (Hmax x Hx). lia.
  - apply max_id_none in E. subst ids. split; [lia|]. intros x [].
Qed.

Lemma user_exists_dec uid db : user_exists uid db \/ ~ user_exists uid db.
Proof.
  destruct (existsb (fun u => User.User_ID u =? uid)%string (users db)) eqn:E.
  - left. now apply user_rows_iff, existsb_exists.
  - right. apply existsb_false_iff in E. now rewrite user_rows_iff in E.
Qed.

Lemma taken_rows_iff email gid db :
  (exists u, In u (users db)
             /\ (User.Email u =? email)%string
                || (User.GoogleUserId u =? gid)%string = true)
  <-> email_or_provider_id_taken email gid db.
Proof.
  unfold email_or_provider_id_taken.
  split; intros [u [Hin H]]; exists u; split; auto.
  - apply orb_true_iff in H. now rewrite !String.eqb_eq in H.
  - apply orb_true_iff. now rewrite !String.eqb_eq.
Qed.

(** The record the handler builds from a complete body. *)
Lemma UserModel_of_body uuid now g e r :
  r <> "" ->
  UserModel uuid now
    {| pu_ID := None;
       pu_User_ID := None;
       pu_GoogleUserId := Some g;
       pu_Email := Some e;
       pu_Role := Some r;
       pu_Status := Some "pending";
       pu_CreatedAt := None;
       pu_UpdatedAt := None |}
  = User.mk 0 uuid g e r "pending" (SqlInteger now) (SqlInteger now).
Proof.
  intros Hr. unfold UserModel.
  cbn [pu_ID pu_User_ID pu_GoogleUserId pu_Email pu_Role pu_Status
       pu_CreatedAt pu_UpdatedAt].
  now rewrite !or_str_empty_default, (or_str_some r "user" Hr).
Qed.

Lemma createUser_unfold uuid now g e r db seq :
  g <> "" -> e <> "" -> r <> "" ->
  createUser uuid now (mkUserBody (Some g) (Some e) (Some r)) db seq =
  if negb (emailRegex_test e)
  then (mkReply 400 (PJson (JMessage false "Invalid email format")), db, seq)
  else if (0 <? length (users_by_Email_or_GoogleUserId e g db))%nat
  then (mkReply 400 (PJson (JMessage false
          "User with this email or GoogleUserId already exists")), db, seq)
  else
    match insert_user (User.mk 0 uuid g e r "pending" (SqlInteger now) (SqlInteger now)) db seq with
    | Throw _ =>
        (mkReply 500 (PJson (JMessage false "Error creating user")), db, seq)
    | Ok (db', seq') =>
        match users_by_User_ID uuid db' with
        | row :: _ => (mkReply 201 (PUser true row), db', seq')
        | [] =>
            (mkReply 500 (PJson (JMessage false "Error creating user")),
             db', seq')
        end
    end.
Proof.
  intros Hg He Hr. unfold createUser.
  cbn [req_GoogleUserId req_Email req_Role not_].
  rewrite (proj2 (falsy_false_iff g) Hg), (proj2 (falsy_false_iff e) He),
    (proj2 (falsy_false_iff r) Hr).
  cbn [orb].
  rewrite (or_str_some g "" Hg), (or_str_some e "" He),
    (or_str_some r "" Hr), (UserModel_of_body uuid now g e r Hr).
  reflexivity.
Qed.

Lemma insert_user_ok row db seq :
  ~ user_exists (User.User_ID row) db ->
  insert_user row db seq =
  Ok ({| users :=
           users db
           ++ [user_with_ID (next_rowid seq (map User.ID (users db))) row];
         chapters := chapters db;
         memberships := memberships db;
         memberships_seq := memberships_seq db |},
      next_rowid seq (map User.ID (users db))).
Proof.
  intros H. unfold insert_user.
  now rewrite (proj2 (existsb_false_iff _ _)) by (now rewrite user_rows_iff).
Qed.

Lemma insert_user_refused row db seq :
  user_exists (User.User_ID row) db ->
  insert_user row db seq = Throw "UNIQUE constraint failed: users.User_ID".
Proof.
  intros H. unfold insert_user.
  now rewrite (proj2 (existsb_exists _ _)) by (now apply user_rows_iff).
Qed.

Lemma createUser_success uuid now g e r db seq :
  g <> "" -> e <> "" -> r <> "" ->
  email_form e -> ~ email_or_provider_id_taken e g db ->
  ~ user_exists uuid db ->
  createUser uuid now (mkUserBody (Some g) (Some e) (Some r)) db seq
  = (mkReply 201 (PUser true (new_user uuid now g e r db seq)),
     {| users := users db ++ [new_user uuid now g e r db seq];
        chapters := chapters db;
        memberships := memberships db;
        memberships_seq := memberships_seq db |},
     User.ID (new_user uuid now g e r db seq)).
Proof.
  intros Hg He Hr Hform Hfree Hnew.
  rewrite createUser_unfold by assumption.
  rewrite (proj2 (emailRegex_test_iff e) Hform).
  cbn [negb]. unfold users_by_Email_or_GoogleUserId.
  rewrite (proj2 (rows_nonempty_false _ _)) by (now rewrite taken_rows_iff).
  rewrite insert_user_ok by assumption.
  unfold users_by_User_ID. cbn [users]. rewrite filter_app.
  rewrite (filter_none _ (users db)) by (now rewrite user_rows_iff).
  cbn [filter app user_with_ID User.User_ID]. rewrite String.eqb_refl.
  reflexivity.
Qed.

Lemma not_absent_iff x : not_ x = true <-> absent x.
Proof.
  unfold absent. destruct x as [[|c s]|]; simpl; split; auto;
    try discriminate; intros [H | H]; discriminate H.
Qed.

Lemma createUser_missing uuid now req db seq :
  absent (req_GoogleUserId req) \/ absent (req_Email req)
  \/ absent (req_Role req) ->
  createUser uuid now req db seq
  = (mkReply 400 (PJson (JMessage false
       "Missing required fields: GoogleUserId, Email, and Role are required")),
     db, seq).
Proof.
  intros H. unfold createUser.
  assert (E : not_ (req_GoogleUserId req) || not_ (req_Email req)
              || not_ (req_Role req) = true).
  { rewrite !orb_true_iff, !not_absent_iff. tauto. }
  now rewrite E.
Qed.

Lemma createUser_rejects_in_order_aux uuid now g e r db seq :
  g <> "" -> e <> "" -> r <> "" ->
  (~ email_form e ->
   createUser uuid now (mkUserBody (Some g) (Some e) (Some r)) db seq
   = (mkReply 400 (PJson (JMessage false "Invalid email format")), db, seq))
  /\ (email_form e -> email_or_provider_id_taken e g db ->
      createUser uuid now (mkUserBody (Some g) (Some e) (Some r)) db seq
      = (mkReply 400 (PJson (JMessage false
           "User with this email or GoogleUserId already exists")),
         db, seq)).
Proof.
  intros Hg He Hr. split.
  - intros Hbad. rewrite createUser_unfold by assumption.
    rewrite <- emailRegex_test_iff in Hbad.
    apply not_true_is_false in Hbad. now rewrite Hbad.
  - intros Hform Htaken. rewrite createUser_unfold by assumption.
    rewrite (proj2 (emailRegex_test_iff e) Hform). cbn [negb].
    unfold users_by_Email_or_GoogleUserId.
    now rewrite (proj2 (rows_nonempty_iff _ _))
      by (now apply taken_rows_iff).
Qed.

(** X2.  [createUser] rejects a request, with 400 and the store untouched,
    in this order: a missing or empty field ("Missing required fields
    ..."), then an email that is not of the form [local@domain.tld]
    ("Invalid email format"), then an email or a provider id that some user
    already bears ("User with this email or GoogleUserId already
    exists"). *)
Theorem createUser_rejects_in_order uuid now g e r db seq :
  g <> "" -> e <> "" -> r <> "" ->
  (forall req,
     absent (req_GoogleUserId req) \/ absent (req_Email req)
     \/ absent (req_Role req) ->
     createUser uuid now req db seq
     = (mkReply 400 (PJson (JMessage false
          "Missing required fields: GoogleUserId, Email, and Role are required")),
        db, seq))
  /\ (~ email_form e ->
      createUser uuid now (mkUserBody (Some g) (Some e) (Some r)) db seq
      = (mkReply 400 (PJson (JMessage false "Invalid email format")),
         db, seq))
  /\ (email_form e -> email_or_provider_id_taken e g db ->
      createUser uuid now (mkUserBody (Some g) (Some e) (Some r)) db seq
      = (mkReply 400 (PJson (JMessage false
           "User with this email or GoogleUserId already exists")),
         db, seq)).
Proof.
  intros Hg He Hr.
  destruct (createUser_rejects_in_order_aux uuid now g e r db seq Hg He Hr)
    as [Hbad Htaken].
  split; [|split].
  - intros req. apply createUser_missing.
  - exact Hbad.
  - exact Htaken.
Qed.

Lemma createUser_rejects_in_order_witness :
  createUser bob_uuid 1706745600000
    (mkUserBody (Some "google-bob") (Some "bob.example.com") (Some "user"))
    db_joined 1
  = (mkReply 400 (PJson (JMessage false "Invalid email format")),
     db_joined, 1)
  /\ createUser bob_uuid 1706745600000
       (mkUserBody (Some "google-ann") (Some "bob@example.com")
          (Some "user")) db_joined 1
     = (mkReply 400 (PJson (JMessage false
          "User with this email or GoogleUserId already exists")),
        db_joined, 1).
Proof.
  split.
  - apply (createUser_rejects_in_order bob_uuid 1706745600000
             "google-bob" "bob.example.com" "user" db_joined 1);
      try discriminate.
    rewrite <- emailRegex_test_iff. discriminate.
  - apply (createUser_rejects_in_order bob_uuid 1706745600000
             "google-ann" "bob@example.com" "user" db_joined 1);
      try discriminate.
    + apply emailRegex_test_iff. reflexivity.
    + exists ann. split; [now left | right; reflexivity].
Defined.

(** X3.  On a complete request with a well-formed email that no user bears,
    a provider id that no user bears and a fresh generated identifier,
    [createUser] appends one row with status "pending", the fields of the
    request and, for both dates, the time value of [new Date()] as an
    integer (the dates are bound as [Date]s, not as ISO strings); it
    answers 201 with that row as the store holds it, and the numeric id
    the store assigns lies above the ids of all rows and above every id
    the table has held. *)
Theorem createUser_stores_pending_user uuid now g e r db seq :
  g <> "" -> e <> "" -> r <> "" ->
  email_form e -> ~ email_or_provider_id_taken e g db ->
  ~ user_exists uuid db ->
  exists row,
    createUser uuid now (mkUserBody (Some g) (Some e) (Some r)) db seq
    = (mkReply 201 (PUser true row),
       {| users := users db ++ [row];
          chapters := chapters db;
          memberships := memberships db;
          memberships_seq := memberships_seq db |},
       User.ID row)
    /\ row = User.mk (User.ID row) uuid g e r "pending"
               (SqlInteger now) (SqlInteger now)
    /\ seq < User.ID row
    /\ forall u, In u (users db) -> User.ID u < User.ID row.
Proof.
  intros Hg He Hr Hform Hfree Hnew.
  exists (new_user uuid now g e r db seq).
  split; [now apply createUser_success|].
  split; [reflexivity|].
  destruct (next_rowid_above seq (map User.ID (users db))) as [Hseq Hids].
  split; [exact Hseq|].
  intros u Hu. apply Hids. now apply in_map.
Qed.

Lemma createUser_stores_pending_user_witness :
  exists row,
    createUser bob_uuid 1706745600000 req_bob db_joined 7
    = (mkReply 201 (PUser true row),
       mkDb [ann; row] [alpha] [ann_in_alpha] 1, User.ID row)
    /\ row = User.mk (User.ID row) bob_uuid "google-bob" "bob@example.com"
               "admin" "pending" (SqlInteger 1706745600000)
               (SqlInteger 1706745600000)
    /\ 7 < User.ID row.
Proof.
  destruct (createUser_stores_pending_user bob_uuid
              1706745600000 "google-bob" "bob@example.com"
              "admin" db_joined 7) as (row & Hrun & Hrow & Hseq & _);
    try discriminate.
  - apply emailRegex_test_iff. reflexivity.
  - intros [u [[<- | []] [H | H]]]; discriminate H.
  - intros [u [[<- | []] H]]. discriminate H.
  - exists row. split; [exact Hrun|]. split; [exact Hrow | exact Hseq].
Defined.

Lemma createUser_collision uuid now g e r db seq :
  g <> "" -> e <> "" -> r <> "" ->
  email_form e -> ~ email_or_provider_id_taken e g db ->
  user_exists uuid db ->
  createUser uuid now (mkUserBody (Some g) (Some e) (Some r)) db seq
  = (mkReply 500 (PJson (JMessage false "Error creating user")), db, seq).
Proof.
  intros Hg He Hr Hform Hfree Hdup.
  rewrite createUser_unfold by assumption.
  rewrite (proj2 (emailRegex_test_iff e) Hform). cbn [negb].
  unfold users_by_Email_or_GoogleUserId.
  rewrite (proj2 (rows_nonempty_false _ _)) by (now rewrite taken_rows_iff).
  now rewrite insert_user_refused.
Qed.

(** The store after [createUser]: untouched, or extended by one row whose
    email, provider id and opaque identifier no row bore. *)
Lemma createUser_store uuid now req db seq :
  snd (fst (createUser uuid now req db seq)) = db
  \/ exists g e r,
       ~ email_or_provider_id_taken e g db
       /\ ~ user_exists uuid db
       /\ snd (fst (createUser uuid now req db seq))
          = {| users := users db ++ [new_user uuid now g e r db seq];
               chapters := chapters db;
               memberships := memberships db;
               memberships_seq := memberships_seq db |}.
Proof.
  destruct req as [og oe orl].
  destruct og as [[|a g]|]; try (left; reflexivity).
  destruct oe as [[|b e]|]; try (left; reflexivity).
  destruct orl as [[|c r]|]; try (left; reflexivity).
  assert (Hg : String a g <> "") by discriminate.
  assert (He : String b e <> "") by discriminate.
  assert (Hr : String c r <> "") by discriminate.
  destruct (emailRegex_test (String b e)) eqn:Ee.
  - apply emailRegex_test_iff in Ee.
    destruct (0 <? length (users_by_Email_or_GoogleUserId (String b e)
                             (String a g) db))%nat eqn:Et;
      unfold users_by_Email_or_GoogleUserId in Et.
    + apply rows_nonempty_iff, taken_rows_iff in Et. left.
      now rewrite (proj2 (createUser_rejects_in_order_aux
                            uuid now _ _ _ db seq Hg He Hr) Ee Et).
    + apply rows_nonempty_false in Et. rewrite taken_rows_iff in Et.
      destruct (user_exists_dec uuid db) as [Hdup | Hnew].
      * left. now rewrite createUser_collision.
      * right. exists (String a g), (String b e), (String c r).
        split; [assumption|]. split; [assumption|].
        now rewrite createUser_success.
  - left. rewrite createUser_unfold by assumption. now rewrite Ee.
Qed.

(** A 201 answer of [createUser] comes from a complete, well-formed and
    conflict-free request, and with the insert of the row it carries. *)
Lemma createUser_created uuid now req db seq :
  reply_status (fst (fst (createUser uuid now req db seq))) = 201 ->
  exists g e r,
    req = mkUserBody (Some g) (Some e) (Some r)
    /\ g <> "" /\ e <> "" /\ r <> ""
    /\ email_form e
    /\ ~ email_or_provider_id_taken e g db
    /\ ~ user_exists uuid db
    /\ createUser uuid now req db seq
       = (mkReply 201 (PUser true (new_user uuid now g e r db seq)),
          {| users := users db ++ [new_user uuid now g e r db seq];
             chapters := chapters db;
             memberships := memberships db;
             memberships_seq := memberships_seq db |},
          User.ID (new_user uuid now g e r db seq)).
Proof.
  destruct req as [og oe orl].
  destruct og as [[|a g]|]; try discriminate.
  destruct oe as [[|b e]|]; try discriminate.
  destruct orl as [[|c r]|]; try discriminate.
  assert (Hg : String a g <> "") by discriminate.
  assert (He : String b e <> "") by discriminate.
  assert (Hr : String c r <> "") by discriminate.
  destruct (emailRegex_test (String b e)) eqn:Ee.
  - apply emailRegex_test_iff in Ee.
    destruct (0 <? length (users_by_Email_or_GoogleUserId (String b e)
                             (String a g) db))%nat eqn:Et;
      unfold users_by_Email_or_GoogleUserId in Et.
    + apply rows_nonempty_iff, taken_rows_iff in Et.
      rewrite (proj2 (createUser_rejects_in_order_aux
                        uuid now _ _ _ db seq Hg He Hr) Ee Et).
      discriminate.
    + apply rows_nonempty_false in Et. rewrite taken_rows_iff in Et.
      destruct (user_exists_dec uuid db) as [Hdup | Hnew].
      * rewrite createUser_collision by assumption. discriminate.
      * intros _. exists (String a g), (String b e), (String c r).
        repeat (split; [assumption || reflexivity|]).
        now apply createUser_success.
  - rewrite createUser_unfold by assumption. rewrite Ee. discriminate.
Qed.

Lemma in_map_key {A B : Type} (f : A -> B) (l : list A) (b : B) :
  In b (map f l) <-> exists a, In a l /\ f a = b.
Proof.
  rewrite in_map_iff. split; intros [a [H1 H2]]; exists a; auto.
Qed.

(** X4.  [createUser] keeps emails, provider ids and opaque identifiers
    pairwise distinct, on every request; when the generated identifier is
    already some user's, the UNIQUE constraint refuses the insert and the
    store is left as it was. *)
Theorem createUser_keeps_users_distinct uuid now req db seq :
  users_inv db ->
  users_inv (snd (fst (createUser uuid now req db seq)))
  /\ (user_exists uuid db ->
      snd (fst (createUser uuid now req db seq)) = db).
Proof.
  intros (He & Hg & Hu).
  destruct (createUser_store uuid now req db seq)
    as [-> | (g & e & r & Hfree & Hnew & ->)].
  - split; [now repeat split | reflexivity].
  - split; [|intros Hdup; contradiction].
    unfold users_inv. cbn [users]. rewrite !map_app. cbn [map].
    repeat split; apply NoDup_snoc; try assumption.
    + intros Hin. apply in_map_key in Hin. destruct Hin as [u [Hin H]].
      apply Hfree. exists u. split; [assumption | now left].
    + intros Hin. apply in_map_key in Hin. destruct Hin as [u [Hin H]].
      apply Hfree. exists u. split; [assumption | now right].
    + intros Hin. apply in_map_key in Hin. destruct Hin as [u [Hin H]].
      apply Hnew. now exists u.
Qed.

Lemma createUser_keeps_users_distinct_witness :
  users_inv db_joined
  /\ users_inv
       (snd (fst (createUser bob_uuid 1706745600000 req_bob
                    db_joined 7)))
  /\ snd (fst (createUser (User.User_ID ann) 1706745600000
                 req_bob db_joined 7)) = db_joined.
Proof.
  assert (H : users_inv db_joined).
  { repeat split; cbn; (constructor; [intros [] | constructor]). }
  split; [exact H|]. split.
  - exact (proj1 (createUser_keeps_users_distinct bob_uuid
                    1706745600000 req_bob db_joined 7 H)).
  - apply (createUser_keeps_users_distinct (User.User_ID ann)
             1706745600000 req_bob db_joined 7 H).
    exists ann. split; [now left | reflexivity].
Defined.

(* ------------------------------------------------------------------ *)
(** ** Looking a user up, and deleting one *)

Lemma filter_unique_key {A : Type} (f : A -> string) (l : list A) (u : A) :
  NoDup (map f l) -> In u l ->
  filter (fun x => f x =? f u)%string l = [u].
Proof.
  induction l as [|x l IH]; intros Hnd Hin; [contradiction|].
  cbn [map] in Hnd. apply NoDup_cons_iff in Hnd. destruct Hnd as [Hx Hnd].
  cbn [filter]. destruct Hin as [-> | Hin].
  - rewrite String.eqb_refl. f_equal.
    apply filter_none. intros [y [Hy H]]. apply String.eqb_eq in H.
    apply Hx. rewrite <- H. now apply in_map.
  - destruct (String.eqb_spec (f x) (f u)) as [E | _].
    + exfalso. apply Hx. rewrite E. now apply in_map.
    + now apply IH.
Qed.

Lemma getUserIDByGoogleUserId_unfold g db :
  g <> "" ->
  getUserIDByGoogleUserId (Some g) db =
  match users_by_GoogleUserId g db with
  | [] => mkReply 404 (PJson (JMessage false "User not found"))
  | row :: _ => mkReply 200 (PUserId true (User.User_ID row))
  end.
Proof.
  intros Hg. unfold getUserIDByGoogleUserId. cbn [not_].
  now rewrite (proj2 (falsy_false_iff g) Hg), (or_str_some g "" Hg).
Qed.

(** X5.  With pairwise distinct provider ids, the lookup by provider id
    answers 200 with the opaque identifier of the user that bears the id,
    404 "User not found" when no user bears it, and 400 when the parameter
    is missing or empty. *)
Theorem getUserIDByGoogleUserId_finds_the_user g db :
  g <> "" -> NoDup (map User.GoogleUserId (users db)) ->
  (forall u, In u (users db) -> User.GoogleUserId u = g ->
     getUserIDByGoogleUserId (Some g) db
     = mkReply 200 (PUserId true (User.User_ID u)))
  /\ ((forall u, In u (users db) -> User.GoogleUserId u <> g) ->
      getUserIDByGoogleUserId (Some g) db
      = mkReply 404 (PJson (JMessage false "User not found")))
  /\ (forall q, absent q ->
      getUserIDByGoogleUserId q db
      = mkReply 400 (PJson (JMessage false "GoogleUserId is required"))).
Proof.
  intros Hg Hnd. split; [|split].
  - intros u Hin <-. rewrite getUserIDByGoogleUserId_unfold by assumption.
    unfold users_by_GoogleUserId.
    now rewrite (filter_unique_key User.GoogleUserId (users db) u Hnd Hin).
  - intros Hnone. rewrite getUserIDByGoogleUserId_unfold by assumption.
    unfold users_by_GoogleUserId. rewrite filter_none; [reflexivity|].
    intros [u [Hin H]]. apply String.eqb_eq in H. now apply (Hnone u).
  - intros q Hq. unfold getUserIDByGoogleUserId.
    now rewrite (proj2 (not_absent_iff q) Hq).
Qed.

Lemma getUserIDByGoogleUserId_finds_the_user_witness :
  "google-ann" <> ""
  /\ NoDup (map User.GoogleUserId (users db_joined))
  /\ getUserIDByGoogleUserId (Some "google-ann") db_joined
     = mkReply 200 (PUserId true (User.User_ID ann)).
Proof.
  assert (Hg : "google-ann" <> "") by discriminate.
  assert (Hnd : NoDup (map User.GoogleUserId (users db_joined)))
    by (cbn; constructor; [intros [] | constructor]).
  split; [exact Hg|]. split; [exact Hnd|].
  apply (proj1 (getUserIDByGoogleUserId_finds_the_user "google-ann"
                  db_joined Hg Hnd) ann); [now left | reflexivity].
Defined.

(** X6.  After a 201 of [createUser], the lookup by the provider id of the
    request answers 200 with the opaque identifier that was generated. *)
Theorem createUser_then_lookup uuid now g e r db seq reply db' seq' :
  createUser uuid now (mkUserBody (Some g) (Some e) (Some r)) db seq
  = (reply, db', seq') ->
  reply_status reply = 201 ->
  getUserIDByGoogleUserId (Some g) db' = mkReply 200 (PUserId true uuid).
Proof.
  intros Hrun Hs.
  destruct (createUser_created uuid now
              (mkUserBody (Some g) (Some e) (Some r)) db seq)
    as (g' & e' & r' & Hreq & Hg & He & Hr & _ & Hfree & _ & Hrun').
  { now rewrite Hrun. }
  injection Hreq as <- <- <-.
  rewrite Hrun in Hrun'. injection Hrun' as _ -> _.
  rewrite getUserIDByGoogleUserId_unfold by assumption.
  unfold users_by_GoogleUserId. cbn [users]. rewrite filter_app.
  rewrite (filter_none _ (users db)).
  - cbn [filter new_user User.GoogleUserId app].
    now rewrite String.eqb_refl.
  - intros [u [Hin H]]. apply String.eqb_eq in H.
    apply Hfree. exists u. split; [assumption | now right].
Qed.

Lemma createUser_then_lookup_witness :
  let '(reply, db', seq') :=
    createUser bob_uuid 1706745600000 req_bob db_joined 7 in
  reply_status reply = 201
  /\ getUserIDByGoogleUserId (Some "google-bob") db'
     = mkReply 200 (PUserId true bob_uuid).
Proof.
  destruct (createUser bob_uuid 1706745600000 req_bob
              db_joined 7) as [[reply db'] seq'] eqn:E.
  assert (Hs : reply_status reply = 201).
  { vm_compute in E. injection E as <- _ _. reflexivity. }
  split; [exact Hs|].
  exact (createUser_then_lookup bob_uuid 1706745600000
           "google-bob" "bob@example.com" "admin" db_joined 7
           reply db' seq' E Hs).
Defined.

Lemma filter_all {A : Type} (p : A -> bool) (l : list A) :
  (forall x, In x l -> p x = true) -> filter p l = l.
Proof.
  induction l as [|x l IH]; intros H; [reflexivity|].
  cbn [filter]. rewrite (H x (or_introl eq_refl)). f_equal.
  apply IH. intros y Hy. apply H. now right.
Qed.

Lemma select_query_email e : contains_at e -> select_query e = Email_eq.
Proof.
  intros H. unfold select_query.
  now rewrite (proj2 (includes_at_iff e) H).
Qed.

(** X7.  Creating a user and then deleting it by its email gives back the
    store one started from: when every membership references an existing
    user, a 201 of [createUser] followed by [deleteUser] on the email of
    the request answers 200 and leaves the three tables as they were before
    the creation. *)
Theorem createUser_then_deleteUser uuid now g e r db seq reply db' seq' :
  (forall m, In m (memberships db) ->
             user_exists (Membership.User_ID m) db) ->
  createUser uuid now (mkUserBody (Some g) (Some e) (Some r)) db seq
  = (reply, db', seq') ->
  reply_status reply = 201 ->
  deleteUser e db'
  = (mkResponse 200 (JMessage true "User deleted successfully"), db).
Proof.
  intros Href Hrun Hs.
  destruct (createUser_created uuid now
              (mkUserBody (Some g) (Some e) (Some r)) db seq)
    as (g' & e' & r' & Hreq & Hg & He & Hr & Hform & Hfree & Hnew & Hrun').
  { now rewrite Hrun. }
  injection Hreq as <- <- <-.
  rewrite Hrun in Hrun'. injection Hrun' as _ -> _.
  assert (Hq : select_query e = Email_eq).
  { apply select_query_email.
    destruct Hform as (a & b & c & -> & _).
    now exists a, (b ++ "." ++ c)%string. }
  set (row := new_user uuid now g e r db seq).
  rewrite deleteUser_deleted.
  - f_equal. cbn [users chapters memberships memberships_seq].
    rewrite filter_app, Hq.
    rewrite (filter_all _ (users db)).
    + unfold where_. cbn [filter column row new_user User.Email].
      rewrite String.eqb_refl. cbn [negb]. rewrite app_nil_r.
      now destruct db.
    + intros u Hu. unfold where_. cbn [column].
      destruct (String.eqb_spec (User.Email u) e) as [E | _];
        [|reflexivity].
      exfalso. apply Hfree. exists u. split; [assumption | now left].
  - exists row. split.
    + cbn [users]. apply in_or_app. right. now left.
    + unfold matches. now rewrite Hq.
  - intros u Hu Hm [m [Hin Hmu]]. cbn [users memberships] in Hu, Hin.
    unfold matches in Hm. rewrite Hq in Hm. cbn [column] in Hm.
    apply in_app_or in Hu. destruct Hu as [Hu | [<- | []]].
    + apply Hfree. exists u. split; [assumption | now left].
    + apply Hnew. cbn [row new_user User.User_ID] in Hmu.
      rewrite <- Hmu. now apply Href.
Qed.

Lemma createUser_then_deleteUser_witness :
  let '(reply, db', seq') :=
    createUser bob_uuid 1706745600000 req_bob db_joined 7 in
  reply_status reply = 201
  /\ deleteUser "bob@example.com" db'
     = (mkResponse 200 (JMessage true "User deleted successfully"),
        db_joined).
Proof.
  destruct (createUser bob_uuid 1706745600000 req_bob
              db_joined 7) as [[reply db'] seq'] eqn:E.
  assert (Hs : reply_status reply = 201).
  { vm_compute in E. injection E as <- _ _. reflexivity. }
  split; [exact Hs|].
  apply (createUser_then_deleteUser bob_uuid 1706745600000
           "google-bob" "bob@example.com" "admin" db_joined 7
           reply db' seq'); [|exact E | exact Hs].
  intros m [<- | []]. exists ann. split; [now left | reflexivity].
Defined.

(** The store after [deleteUser]: untouched with an answer other than 200,
    or without the matching rows, none of which a membership referenced. *)
Lemma deleteUser_store identifier db :
  (snd (deleteUser identifier db) = db
   /\ status (fst (deleteUser identifier db)) <> 200)
  \/ ((forall u, In u (users db) -> matches identifier u ->
                 ~ referenced u db)
      /\ (exists u, In u (users db) /\ matches identifier u)
      /\ deleteUser identifier db
         = (mkResponse 200 (JMessage true "User deleted successfully"),
            {| users :=
                 filter (fun u => negb (where_ (select_query identifier)
                                          identifier u)) (users db);
               chapters := chapters db;
               memberships := memberships db;
               memberships_seq := memberships_seq db |})).
Proof.
  unfold deleteUser.
  destruct (length (filter _ (users db)) =? 0)%nat eqn:E0;
    [left; split; [reflexivity | discriminate]|].
  apply rows_empty_false, match_rows_iff in E0.
  unfold delete_users.
  destruct (existsb _ (users db)) eqn:E;
    [left; split; [reflexivity | discriminate]|].
  right. split; [|split; [assumption | reflexivity]].
  intros u Hu Hm Hr. apply existsb_false_iff in E. apply E.
  exists u. split; [assumption|]. apply andb_true_iff. split.
  - now apply where_iff.
  - now apply referenced_iff.
Qed.

Lemma NoDup_map_filter {A B : Type} (f : A -> B) (p : A -> bool) l :
  NoDup (map f l) -> NoDup (map f (filter p l)).
Proof.
  induction l as [|x l IH]; intros H; [constructor|].
  cbn [map] in H. apply NoDup_cons_iff in H. destruct H as [Hx H].
  cbn [filter]. destruct (p x); [|now apply IH].
  cbn [map]. constructor; [|now apply IH].
  intros Hin. apply Hx. apply in_map_iff in Hin.
  destruct Hin as [y [Hy Hin]]. apply filter_In in Hin.
  rewrite <- Hy. apply in_map. tauto.
Qed.

(** X8.  [deleteUser] never leaves a membership without its user: from a
    store in which the memberships have distinct pairs and resolving
    references, and the users distinct emails, provider ids and opaque
    identifiers, it leads to a store with the same properties, whatever the
    identifier; chapters and memberships are never touched. *)
Theorem deleteUser_keeps_references identifier db :
  membership_inv db -> users_inv db ->
  let db' := snd (deleteUser identifier db) in
  membership_inv db' /\ users_inv db'
  /\ chapters db' = chapters db /\ memberships db' = memberships db.
Proof.
  intros [Hnd Href] (He & Hg & Hu) db'. subst db'.
  destruct (deleteUser_store identifier db) as [[-> _] | (Hfree & _ & ->)].
  - repeat split; try assumption; now apply Href.
  - cbn [snd memberships chapters users]. repeat split;
      try assumption; try (now apply NoDup_map_filter).
    + destruct (Href m H) as [[u [Hin Hmu]] _].
      exists u. split; [|assumption].
      cbn [users]. apply filter_In. split; [assumption|].
      destruct (where_ (select_query identifier) identifier u) eqn:Ew;
        [|reflexivity].
      exfalso. apply where_iff in Ew. apply (Hfree u Hin Ew).
      now exists m.
    + now apply Href.
Qed.

Lemma deleteUser_keeps_references_witness :
  membership_inv db_joined /\ users_inv db_joined
  /\ membership_inv (snd (deleteUser "google-ann" db_joined)).
Proof.
  assert (H1 : membership_inv db_joined).
  { split.
    - cbn. constructor; [intros []| constructor].
    - intros m [<- | []]. split.
      + exists ann. split; [now left | reflexivity].
      + exists alpha. split; [now left | reflexivity]. }
  assert (H2 : users_inv db_joined).
  { repeat split; cbn; (constructor; [intros [] | constructor]). }
  split; [exact H1|]. split; [exact H2|].
  exact (proj1 (deleteUser_keeps_references "google-ann" db_joined H1 H2)).
Defined.

(** X9.  A deletion that answered 200 has removed every row the identifier
    matches: the same [deleteUser] again answers 404 "User not found" and
    changes nothing, and when the identifier was read as a provider id the
    lookup by that id answers 404 as well. *)
Theorem deleteUser_twice identifier db :
  status (fst (deleteUser identifier db)) = 200 ->
  let db' := snd (deleteUser identifier db) in
  deleteUser identifier db'
  = (mkResponse 404 (JError "User not found"), db')
  /\ (select_query identifier = GoogleUserId_eq -> identifier <> "" ->
      getUserIDByGoogleUserId (Some identifier) db'
      = mkReply 404 (PJson (JMessage false "User not found"))).
Proof.
  intros Hs db'. subst db'.
  destruct (deleteUser_store identifier db) as [[_ E] | (_ & _ & E)];
    [contradiction|].
  - rewrite E. cbn [snd]. split.
    + apply deleteUser_not_found. cbn [users]. intros u Hu Hm.
      apply filter_In in Hu. destruct Hu as [_ Hu].
      apply where_iff in Hm. now rewrite Hm in Hu.
    + intros Hq Hne. rewrite getUserIDByGoogleUserId_unfold by assumption.
      unfold users_by_GoogleUserId. cbn [users].
      rewrite filter_none; [reflexivity|].
      intros [u [Hu H]]. apply filter_In in Hu. destruct Hu as [_ Hu].
      unfold where_ in Hu. rewrite Hq in Hu. cbn [column] in Hu.
      now rewrite H in Hu.
Qed.

Lemma deleteUser_twice_witness :
  status (fst (deleteUser "google-ann" db_ann_alpha)) = 200
  /\ deleteUser "google-ann" (snd (deleteUser "google-ann" db_ann_alpha))
     = (mkResponse 404 (JError "User not found"),
        snd (deleteUser "google-ann" db_ann_alpha))
  /\ getUserIDByGoogleUserId (Some "google-ann")
       (snd (deleteUser "google-ann" db_ann_alpha))
     = mkReply 404 (PJson (JMessage false "User not found")).
Proof.
  assert (Hs : status (fst (deleteUser "google-ann" db_ann_alpha)) = 200)
    by reflexivity.
  destruct (deleteUser_twice "google-ann" db_ann_alpha Hs) as [H1 H2].
  split; [exact Hs|]. split; [exact H1|].
  apply H2; [reflexivity | discriminate].
Defined.

(* ------------------------------------------------------------------ *)
(** ** Chapters: name check, count, lookup by identifier *)

Lemma checkChapterName_unfold name db :
  name <> "" ->
  checkChapterName (Some name) db =
  if (0 <? length (chapters_by_name name db))%nat
  then mkReply 200 (PExists true "Chapter name already exists")
  else mkReply 200 (PExists false "Chapter name is available").
Proof.
  intros Hn. unfold checkChapterName. cbn [not_].
  now rewrite (proj2 (falsy_false_iff name) Hn), (or_str_some name "" Hn).
Qed.

(** X10.  The name check answers [exists: true] exactly when some chapter
    bears the name up to case, and it agrees with [createChapter]: in the
    same store a creation with that name is refused with "Chapter name
    already exists (case-insensitive)" if and only if the check says the
    name exists.  A missing or empty name gives 400. *)
Theorem checkChapterName_agrees_with_createChapter name db :
  name <> "" ->
  (exists b msg,
     checkChapterName (Some name) db = mkReply 200 (PExists b msg)
     /\ (b = true <-> chapter_name_taken name db))
  /\ (forall rnd k uuid now description creator,
        fst (fst (createChapter rnd k uuid now
                    (mkChapterBody name description creator) db))
        = mkResponse 400
            (JError "Chapter name already exists (case-insensitive)")
        <-> checkChapterName (Some name) db
            = mkReply 200 (PExists true "Chapter name already exists"))
  /\ (forall q, absent q ->
        checkChapterName q db
        = mkReply 400 (PJson (JError "Chapter name is required"))).
Proof.
  intros Hn. split; [|split].
  - rewrite checkChapterName_unfold by assumption.
    unfold chapters_by_name.
    destruct (0 <? length (filter _ (chapters db)))%nat eqn:E.
    + do 2 eexists. split; [reflexivity|].
      apply rows_nonempty_iff, chapter_name_rows_iff in E. tauto.
    + do 2 eexists. split; [reflexivity|].
      apply rows_nonempty_false in E. rewrite chapter_name_rows_iff in E.
      split; [discriminate | contradiction].
  - intros rnd k uuid now description creator.
    rewrite checkChapterName_unfold by assumption.
    rewrite createChapter_unfold. cbn [req_Chapter_Name].
    destruct (0 <? length (chapters_by_name name db))%nat.
    + split; reflexivity.
    + destruct (0 <? length (chapters_by_Chapter_Id _ db))%nat;
        [split; discriminate|].
      destruct (insert_chapter _ db); split; discriminate.
  - intros q Hq. unfold checkChapterName.
    now rewrite (proj2 (not_absent_iff q) Hq).
Qed.

Lemma checkChapterName_agrees_with_createChapter_witness :
  "ALPHA" <> ""
  /\ checkChapterName (Some "ALPHA") db_two_chapters
     = mkReply 200 (PExists true "Chapter name already exists")
  /\ fst (fst (createChapter rnd_cycle 0 bob_uuid "2024-03-01T00:00:00.000Z"
                 (mkChapterBody "ALPHA" "d" "u1") db_two_chapters))
     = mkResponse 400
         (JError "Chapter name already exists (case-insensitive)").
Proof.
  assert (Hn : "ALPHA" <> "") by discriminate.
  assert (Hc : checkChapterName (Some "ALPHA") db_two_chapters
               = mkReply 200 (PExists true "Chapter name already exists"))
    by reflexivity.
  split; [exact Hn|]. split; [exact Hc|].
  apply (proj1 (proj2 (checkChapterName_agrees_with_createChapter "ALPHA"
                         db_two_chapters Hn))). exact Hc.
Defined.

(** The store after [createChapter]: untouched with an answer other than
    201, or extended by the returned record, whose numeric id and opaque
    identifier no chapter bore and whose name no chapter bore up to
    case. *)
Lemma createChapter_store rnd k uuid now req db :
  (snd (fst (createChapter rnd k uuid now req db)) = db
   /\ status (fst (fst (createChapter rnd k uuid now req db))) <> 201)
  \/ exists c,
       fst (createChapter rnd k uuid now req db)
       = (mkResponse 201 (JChapter c),
          {| users := users db;
             chapters := chapters db ++ [c];
             memberships := memberships db;
             memberships_seq := memberships_seq db |})
       /\ c = new_chapter uuid now (drawn_id rnd k) req db
       /\ ~ chapter_name_taken (Chapter.Chapter_Name c) db
       /\ ~ chapter_exists (Chapter.Chapter_Id c) db
       /\ (forall d, In d (chapters db) -> Chapter.ID d <> Chapter.ID c).
Proof.
  rewrite createChapter_unfold.
  destruct (0 <? length (chapters_by_name _ db))%nat eqn:E1;
    [left; split; [reflexivity | discriminate]|].
  destruct (0 <? length (chapters_by_Chapter_Id _ db))%nat eqn:E2;
    [left; split; [reflexivity | discriminate]|].
  unfold insert_chapter.
  destruct (existsb (fun c => Chapter.ID c =? _) (chapters db)) eqn:E3;
    [left; split; [reflexivity | discriminate]|].
  destruct (existsb (fun c => (Chapter.Chapter_Id c =? _)%string)
              (chapters db)) eqn:E4;
    [left; split; [reflexivity | discriminate]|].
  right. eexists. split; [reflexivity|]. split; [reflexivity|].
  unfold chapters_by_name in E1. apply rows_nonempty_false in E1.
  rewrite chapter_name_rows_iff in E1.
  apply existsb_false_iff in E3, E4. rewrite chapter_rows_iff in E4.
  destruct (new_chapter_fields uuid now (drawn_id rnd k) req db)
    as (_ & -> & _).
  repeat split; try assumption.
  intros d Hd Heq. apply E3. exists d. split; [assumption|].
  now apply Z.eqb_eq.
Qed.

(** X11.  The chapter count is the [total] of every listing [getChapters]
    answers, the default one (no page, no limit) among them, and it follows
    the creations: a [createChapter] that answers 201 raises it by exactly
    one, any other answer leaves it as it was. *)
Theorem getChapterCount_follows_creations rnd k uuid now req db :
  let run := createChapter rnd k uuid now req db in
  exists n n',
    getChapterCount db = mkReply 200 (PTotal n)
    /\ getChapterCount (snd (fst run)) = mkReply 200 (PTotal n')
    /\ (status (fst (fst run)) = 201 -> n' = n + 1)
    /\ (status (fst (fst run)) <> 201 -> n' = n)
    /\ (exists rows totalPages,
          getChapters None None db
          = mkResponse 200 (JChapters rows n 1 50 totalPages))
    /\ forall qpage qlimit rows total page limit totalPages,
         getChapters qpage qlimit db
         = mkResponse 200 (JChapters rows total page limit totalPages) ->
         total = n.
Proof.
  intros run. subst run. do 2 eexists.
  split; [reflexivity|]. split; [reflexivity|].
  assert (Hd : exists rows totalPages,
             getChapters None None db
             = mkResponse 200
                 (JChapters rows (Z.of_nat (length (chapters db))) 1 50
                    totalPages)).
  { do 2 eexists.
    apply (getChapters_listing None None 1 50 db);
      [reflexivity | reflexivity | cbn; lia | cbn; lia
      | rewrite pow2_63; lia]. }
  destruct (createChapter_store rnd k uuid now req db)
    as [[-> Hs] | (c & -> & _)].
  - split; [contradiction|]. split; [reflexivity|].
    split; [exact Hd|]. intros. eapply getChapters_total; eassumption.
  - cbn [fst snd status chapters]. split.
    + intros _. rewrite length_app. cbn [length]. lia.
    + split; [intros H; now contradiction H|].
      split; [exact Hd|]. intros. eapply getChapters_total; eassumption.
Qed.

Lemma getChapterById_unfold toDate id db :
  id <> "" ->
  getChapterById toDate id db =
  match chapters_by_Chapter_Id id db with
  | [] => mkReply 404 (PJson (JError "Chapter not found"))
  | chapter :: _ => mkReply 200 (PChapter true (with_dates toDate chapter))
  end.
Proof.
  intros H. unfold getChapterById.
  now rewrite (proj2 (falsy_false_iff id) H).
Qed.

(** X12.  With pairwise distinct opaque identifiers, [getChapterById]
    answers 200 with the fields of the chapter that bears the identifier
    (the match is exact, case included; the two dates go through the date
    parser), 404 "Chapter not found" when no chapter bears it, and 400 on
    an empty identifier. *)
Theorem getChapterById_finds_the_chapter toDate id db :
  id <> "" -> NoDup (map Chapter.Chapter_Id (chapters db)) ->
  (forall c, In c (chapters db) -> Chapter.Chapter_Id c = id ->
     getChapterById toDate id db
     = mkReply 200 (PChapter true (with_dates toDate c)))
  /\ ((forall c, In c (chapters db) -> Chapter.Chapter_Id c <> id) ->
      getChapterById toDate id db
      = mkReply 404 (PJson (JError "Chapter not found")))
  /\ getChapterById toDate "" db
     = mkReply 400 (PJson (JError "Chapter ID is required")).
Proof.
  intros Hid Hnd. split; [|split; [|reflexivity]].
  - intros c Hin <-. rewrite getChapterById_unfold by assumption.
    unfold chapters_by_Chapter_Id.
    now rewrite (filter_unique_key Chapter.Chapter_Id (chapters db) c Hnd
                   Hin).
  - intros Hnone. rewrite getChapterById_unfold by assumption.
    unfold chapters_by_Chapter_Id. rewrite filter_none; [reflexivity|].
    intros [c [Hin H]]. apply String.eqb_eq in H. now apply (Hnone c).
Qed.

Lemma getChapterById_finds_the_chapter_witness :
  "xyz789" <> ""
  /\ NoDup (map Chapter.Chapter_Id (chapters db_two_chapters))
  /\ getChapterById (fun s => s) "xyz789" db_two_chapters
     = mkReply 200 (PChapter true beta)
  /\ getChapterById (fun s => s) "XYZ789" db_two_chapters
     = mkReply 404 (PJson (JError "Chapter not found")).
Proof.
  assert (Hid : "xyz789" <> "") by discriminate.
  assert (Hnd : NoDup (map Chapter.Chapter_Id (chapters db_two_chapters))).
  { cbn. constructor; [intros [H | []]; discriminate H|].
    constructor; [intros [] | constructor]. }
  split; [exact Hid|]. split; [exact Hnd|]. split.
  - apply (proj1 (getChapterById_finds_the_chapter (fun s => s) "xyz789"
                    db_two_chapters Hid Hnd) beta);
      [right; now left | reflexivity].
  - apply (getChapterById_finds_the_chapter (fun s => s) "XYZ789"
             db_two_chapters); [discriminate | exact Hnd |].
    intros c [<- | [<- | []]]; discriminate.
Defined.

(** X13.  A chapter that [createChapter] returned with 201 can be read back
    by its identifier: with [Math.random()] in [0, 1), [getChapterById] on
    the identifier of the returned record answers 200 with the fields of
    that record, the two dates read back through the date parser. *)
Theorem createChapter_then_getChapterById
  rnd k uuid now req db r db' k' toDate :
  in_unit_interval rnd ->
  createChapter rnd k uuid now req db = (r, db', k') ->
  status r = 201 ->
  exists c,
    body r = JChapter c
    /\ getChapterById toDate (Chapter.Chapter_Id c) db'
       = mkReply 200 (PChapter true (with_dates toDate c)).
Proof.
  intros Hrnd Hrun Hs.
  destruct (createChapter_store rnd k uuid now req db)
    as [[_ Hn] | (c & E & Hc & _ & Hfresh & _)];
    rewrite Hrun in *; cbn [fst snd] in *; [contradiction|].
  injection E as -> ->. exists c. split; [reflexivity|].
  assert (Hid : Chapter.Chapter_Id c <> "").
  { rewrite Hc.
    pose proof (drawn_id_pattern rnd k Hrnd) as Hpat.
    pose proof (id_pattern_nonempty _ Hpat) as Hne.
    destruct (new_chapter_fields uuid now (drawn_id rnd k) req db)
      as (_ & _ & _ & FCid).
    now rewrite (FCid Hne). }
  rewrite getChapterById_unfold by assumption.
  unfold chapters_by_Chapter_Id. cbn [chapters]. rewrite filter_app.
  rewrite (filter_none _ (chapters db)) by (now rewrite chapter_rows_iff).
  cbn [filter app]. now rewrite String.eqb_refl.
Qed.

Lemma createChapter_then_getChapterById_witness :
  let '(r, db', k') :=
    createChapter rnd_cycle 0 bob_uuid "2024-03-01T00:00:00.000Z"
      req_Delta db_gamma in
  in_unit_interval rnd_cycle /\ status r = 201
  /\ exists c,
       body r = JChapter c
       /\ getChapterById (fun s => s) (Chapter.Chapter_Id c) db'
          = mkReply 200 (PChapter true (with_dates (fun s => s) c)).
Proof.
  destruct (createChapter rnd_cycle 0 bob_uuid "2024-03-01T00:00:00.000Z"
              req_Delta db_gamma) as [[r db'] k'] eqn:E.
  assert (Hs : status r = 201).
  { vm_compute in E. injection E as <- _ _. reflexivity. }
  split; [exact rnd_cycle_in_unit_interval|]. split; [exact Hs|].
  exact (createChapter_then_getChapterById rnd_cycle 0 bob_uuid
           "2024-03-01T00:00:00.000Z" req_Delta db_gamma r db' k'
           (fun s => s) rnd_cycle_in_unit_interval E Hs).
Defined.

(** X14.  [createChapter] keeps the chapters table consistent on every
    request: numeric ids stay pairwise distinct, opaque identifiers stay
    pairwise distinct, and names stay pairwise distinct up to case. *)
Theorem createChapter_keeps_chapters_distinct rnd k uuid now req db :
  chapters_inv db ->
  chapters_inv (snd (fst (createChapter rnd k uuid now req db))).
Proof.
  intros (Hid & Hcid & Hname).
  destruct (createChapter_store rnd k uuid now req db)
    as [[-> _] | (c & -> & _ & Hn & Hc & Hi)].
  - now repeat split.
  - unfold chapters_inv. cbn [fst snd chapters]. rewrite !map_app.
    cbn [map]. repeat split; apply NoDup_snoc; try assumption.
    + intros Hin. apply in_map_key in Hin. destruct Hin as [d [Hd H]].
      now apply (Hi d).
    + intros Hin. apply in_map_key in Hin. destruct Hin as [d [Hd H]].
      apply Hc. now exists d.
    + intros Hin.
      apply (in_map_key (fun c => LOWER (Chapter.Chapter_Name c))) in Hin.
      destruct Hin as [d [Hd H]].
      apply Hn. exists d. split; [assumption|]. now apply LOWER_eq_iff.
Qed.

Lemma createChapter_keeps_chapters_distinct_witness :
  chapters_inv db_two_chapters
  /\ chapters_inv
       (snd (fst (createChapter rnd_cycle 0 bob_uuid
                    "2024-03-01T00:00:00.000Z" req_Delta db_two_chapters))).
Proof.
  assert (H : chapters_inv db_two_chapters).
  { repeat split; cbn;
      (constructor; [intros [H | []]; discriminate H|];
       constructor; [intros [] | constructor]). }
  split; [exact H|].
  exact (createChapter_keeps_chapters_distinct rnd_cycle 0 bob_uuid
           "2024-03-01T00:00:00.000Z" req_Delta db_two_chapters H).
Defined.

(* ------------------------------------------------------------------ *)
(** ** Memberships: required fields, display names, listings *)

(** A missing or empty required field is answered before any lookup. *)
Lemma createMembership_requires_fields now req db :
  absent (req_User_ID req) \/ absent (req_Chapter_Id req)
  \/ absent (req_Warrior_Name req) ->
  createMembership now req db
  = (mkResponse 400 (JMessage false
       "Missing required fields: User_ID, Chapter_Id, and Warrior_Name are required"),
     db).
Proof.
  intros H. unfold createMembership.
  assert (E : not_ (req_User_ID req) || not_ (req_Chapter_Id req)
              || not_ (req_Warrior_Name req) = true).
  { rewrite !orb_true_iff, !not_absent_iff. tauto. }
  now rewrite E.
Qed.

(** X16.  [createMembership] keeps the display names pairwise distinct up
    to case across all chapters, on every request. *)
Theorem createMembership_keeps_warrior_names_distinct now req db :
  warrior_names_inv db ->
  warrior_names_inv (snd (createMembership now req db)).
Proof.
  unfold warrior_names_inv. intros Hnd.
  destruct (createMembership_store now req db)
    as [-> | (uid & cid & name & Hu & Hc & Hn & _ & _ & _ & Hfree & _ & ->)];
    [assumption|].
  cbn [memberships]. rewrite map_app. cbn [map].
  apply NoDup_snoc; [assumption|].
  destruct (new_membership_fields now uid cid (req_Chapter_Rank req) name
              Hu Hc Hn) as (_ & _ & Fn).
  cbn [Membership.with_ID Membership.Warrior_Name]. rewrite Fn.
  intros Hin.
  apply (in_map_key (fun m => LOWER (Membership.Warrior_Name m))) in Hin.
  destruct Hin as [m [Hm H]].
  apply Hfree. exists m. split; [assumption|]. now apply LOWER_eq_iff.
Qed.

Lemma createMembership_keeps_warrior_names_distinct_witness :
  warrior_names_inv db_two_chapters
  /\ warrior_names_inv
       (snd (createMembership "2024-02-01T00:00:00.000Z"
               (mkMembershipBody (Some (User.User_ID ann)) (Some "xyz789")
                  None (Some "Berserker")) db_two_chapters)).
Proof.
  assert (H : warrior_names_inv db_two_chapters)
    by (unfold warrior_names_inv; cbn;
        constructor; [intros [] | constructor]).
  split; [exact H|].
  exact (createMembership_keeps_warrior_names_distinct
           "2024-02-01T00:00:00.000Z" _ db_two_chapters H).
Defined.

Lemma insert_by_perm {A : Type} (key : A -> string) x l :
  Permutation (x :: l) (insert_by key x l).
Proof.
  induction l as [|y r IH]; simpl.
  - reflexivity.
  - destruct (_ <=? _)%string.
    + reflexivity.
    + rewrite perm_swap. now constructor.
Qed.

Lemma order_by_perm {A : Type} (key : A -> string) l :
  Permutation (order_by key l) l.
Proof.
  induction l as [|x l IH]; simpl.
  - constructor.
  - rewrite <- insert_by_perm. now constructor.
Qed.

Lemma insert_by_sorted {A : Type} (key : A -> string) x l :
  StronglySorted (key_le key) l ->
  StronglySorted (key_le key) (insert_by key x l).
Proof.
  induction 1 as [|y r Hs IH Hy]; simpl.
  - repeat constructor.
  - destruct (_ <=? _)%string eqn:E.
    + constructor; [now constructor|].
      constructor; [exact E|].
      rewrite Forall_forall in *. intros z Hz.
      apply (string_leb_trans _ (key y)); [exact E | now apply Hy].
    + constructor; [assumption|].
      rewrite Forall_forall in *. intros z Hz.
      apply (Permutation_in _ (Permutation_sym (insert_by_perm key x r)))
        in Hz.
      destruct Hz as [<- | Hz]; [|now apply Hy].
      unfold key_le.
      destruct (String.leb_total (key y) (key x)); congruence.
Qed.

Lemma order_by_sorted {A : Type} (key : A -> string) l :
  StronglySorted (key_le key) (order_by key l).
Proof.
  induction l as [|x l IH]; simpl.
  - constructor.
  - now apply insert_by_sorted.
Qed.

Lemma getMembershipsByChapter_unfold id db :
  id <> "" ->
  getMembershipsByChapter id db =
  match chapters_by_Chapter_Id id db with
  | [] => mkReply 404 (PJson (JMessage false "Chapter not found"))
  | _ :: _ =>
      mkReply 200
        (PMemberships true
           (order_by Membership.Warrior_Name
              (memberships_by_Chapter_Id id db)))
  end.
Proof.
  intros H. unfold getMembershipsByChapter.
  now rewrite (proj2 (falsy_false_iff id) H).
Qed.

Lemma rows_cons_iff {A : Type} (p : A -> bool) (l : list A) :
  (exists x r, filter p l = x :: r) <-> exists x, In x l /\ p x = true.
Proof.
  split.
  - intros [x [r E]]. exists x. apply filter_In. rewrite E. now left.
  - intros [x Hx]. apply filter_In in Hx.
    destruct (filter p l) as [|y r]; [contradiction|]. now exists y, r.
Qed.

Lemma getMembershipsByChapter_found id db :
  id <> "" -> chapter_exists id db ->
  getMembershipsByChapter id db
  = mkReply 200
      (PMemberships true
         (order_by Membership.Warrior_Name
            (memberships_by_Chapter_Id id db))).
Proof.
  intros Hid Hex. rewrite getMembershipsByChapter_unfold by assumption.
  apply chapter_rows_iff, rows_cons_iff in Hex.
  destruct Hex as [x [r E]]. unfold chapters_by_Chapter_Id. now rewrite E.
Qed.

(** X17.  For an existing chapter, [getMembershipsByChapter] answers 200
    with exactly the memberships of that chapter, each once, ordered by
    display name; for an unknown chapter it answers 404 "Chapter not
    found", and for an empty identifier 400. *)
Theorem getMembershipsByChapter_lists_the_chapter id db :
  id <> "" ->
  (chapter_exists id db ->
   exists rows,
     getMembershipsByChapter id db = mkReply 200 (PMemberships true rows)
     /\ Permutation rows
          (filter (fun m => Membership.Chapter_Id m =? id)%string
             (memberships db))
     /\ StronglySorted (key_le Membership.Warrior_Name) rows
     /\ forall m, In m rows
                  <-> In m (memberships db) /\ Membership.Chapter_Id m = id)
  /\ (~ chapter_exists id db ->
      getMembershipsByChapter id db
      = mkReply 404 (PJson (JMessage false "Chapter not found")))
  /\ getMembershipsByChapter "" db
     = mkReply 400 (PJson (JMessage false "Chapter ID is required")).
Proof.
  intros Hid. split; [|split; [|reflexivity]].
  - intros Hex. eexists. split; [now apply getMembershipsByChapter_found|].
    split; [apply order_by_perm|]. split; [apply order_by_sorted|].
    intros m. unfold memberships_by_Chapter_Id. split.
    + intros H. apply (Permutation_in _ (order_by_perm _ _)) in H.
      apply filter_In in H. now rewrite String.eqb_eq in H.
    + intros [H1 H2].
      apply (Permutation_in _ (Permutation_sym (order_by_perm _ _))).
      apply filter_In. now rewrite String.eqb_eq.
  - intros Hno. rewrite getMembershipsByChapter_unfold by assumption.
    unfold chapters_by_Chapter_Id. rewrite filter_none; [reflexivity|].
    now rewrite chapter_rows_iff.
Qed.

Lemma getMembershipsByChapter_lists_the_chapter_witness :
  "abc123" <> "" /\ chapter_exists "abc123" db_club
  /\ getMembershipsByChapter "abc123" db_club
     = mkReply 200 (PMemberships true [bob_in_alpha; ann_in_alpha]).
Proof.
  assert (Hid : "abc123" <> "") by discriminate.
  assert (Hex : chapter_exists "abc123" db_club)
    by (exists alpha; split; [now left | reflexivity]).
  split; [exact Hid|]. split; [exact Hex|].
  destruct (proj1 (getMembershipsByChapter_lists_the_chapter "abc123"
                     db_club Hid) Hex) as (rows & Hr & _).
  rewrite Hr. vm_compute in Hr. injection Hr as <-. reflexivity.
Defined.

(** A 201 answer of [createMembership] comes from a request that passed
    every check. *)
Lemma createMembership_passed now req db :
  status (fst (createMembership now req db)) = 201 ->
  exists uid cid name,
    uid <> "" /\ cid <> "" /\ name <> ""
    /\ user_exists uid db /\ chapter_exists cid db
    /\ ~ is_member uid cid db /\ ~ warrior_name_taken name db
    /\ req = mkMembershipBody (Some uid) (Some cid)
               (req_Chapter_Rank req) (Some name).
Proof.
  destruct req as [ou oc rank on].
  destruct ou as [[|a u]|]; try discriminate.
  destruct oc as [[|b c]|]; try discriminate.
  destruct on as [[|e n]|]; try discriminate.
  rewrite createMembership_unfold by discriminate.
  unfold users_by_User_ID, chapters_by_Chapter_Id, memberships_by_pair,
    memberships_by_warrior_name.
  destruct (length (filter _ (users db)) =? 0)%nat eqn:E1;
    [discriminate|].
  destruct (length (filter _ (chapters db)) =? 0)%nat eqn:E2;
    [discriminate|].
  destruct (0 <? length (filter _ (memberships db)))%nat eqn:E3;
    [discriminate|].
  destruct (0 <? length (filter (fun m => lower_eqb _ _) (memberships db)))%nat
    eqn:E4; [discriminate|].
  intros _.
  apply rows_empty_false, user_rows_iff in E1.
  apply rows_empty_false, chapter_rows_iff in E2.
  apply rows_nonempty_false in E3. rewrite pair_rows_iff in E3.
  apply rows_nonempty_false in E4. rewrite warrior_rows_iff in E4.
  exists (String a u), (String b c), (String e n).
  repeat (split; [assumption || discriminate|]). reflexivity.
Qed.

(** A 201 answer of [createMembership] comes with the insert of the row it
    carries, into a store whose users and chapters are unchanged. *)
Lemma createMembership_created now req db r db' :
  createMembership now req db = (r, db') ->
  status r = 201 ->
  exists row,
    r = mkResponse 201 (JMembership true (Some row))
    /\ memberships db' = memberships db ++ [row]
    /\ users db' = users db /\ chapters db' = chapters db
    /\ req_User_ID req = Some (Membership.User_ID row)
    /\ req_Chapter_Id req = Some (Membership.Chapter_Id row)
    /\ Membership.User_ID row <> ""
    /\ Membership.Chapter_Id row <> ""
    /\ user_exists (Membership.User_ID row) db
    /\ chapter_exists (Membership.Chapter_Id row) db.
Proof.
  intros Hrun Hs.
  destruct (createMembership_passed now req db)
    as (uid & cid & name & Hu & Hc & Hn & Eu & Ec & Em & En & Hreq).
  { now rewrite Hrun. }
  destruct req as [ou oc rank on]. cbn [req_Chapter_Rank] in Hreq.
  injection Hreq as -> -> ->.
  rewrite (createMembership_success now uid cid rank name db
             Hu Hc Hn Eu Ec Em En) in Hrun.
  injection Hrun as <- <-.
  destruct (new_membership_fields now uid cid rank name Hu Hc Hn)
    as (Fu & Fc & _).
  eexists. split; [reflexivity|].
  cbn [memberships users chapters Membership.with_ID Membership.User_ID
       Membership.Chapter_Id req_User_ID req_Chapter_Id].
  rewrite Fu, Fc. repeat split; assumption.
Qed.

(** X15.  [createMembership] answers 201 exactly when the three required
    fields are present and non-empty, the user and the chapter exist, the
    user is not yet a member of the chapter and the display name is free up
    to case; on every other request the store is left as it was, and a
    missing or empty required field is answered 400 whether or not the
    user and the chapter exist. *)
Theorem createMembership_succeeds_exactly_when now req db :
  (status (fst (createMembership now req db)) = 201
   <-> exists uid cid name,
         req_User_ID req = Some uid /\ req_Chapter_Id req = Some cid
         /\ req_Warrior_Name req = Some name
         /\ uid <> "" /\ cid <> "" /\ name <> ""
         /\ user_exists uid db /\ chapter_exists cid db
         /\ ~ is_member uid cid db /\ ~ warrior_name_taken name db)
  /\ (status (fst (createMembership now req db)) <> 201 ->
      snd (createMembership now req db) = db)
  /\ (absent (req_User_ID req) \/ absent (req_Chapter_Id req)
      \/ absent (req_Warrior_Name req) ->
      status (fst (createMembership now req db)) = 400).
Proof.
  split; [split|split].
  - intros Hs.
    destruct (createMembership_passed now req db Hs)
      as (uid & cid & name & Hu & Hc & Hn & Eu & Ec & Em & En & Hreq).
    exists uid, cid, name. rewrite Hreq.
    cbn [req_User_ID req_Chapter_Id req_Warrior_Name].
    repeat split; assumption.
  - intros (uid & cid & name & Ru & Rc & Rn & Hu & Hc & Hn & Eu & Ec & Em
            & En).
    destruct req as [ou oc rank on].
    cbn [req_User_ID req_Chapter_Id req_Warrior_Name] in Ru, Rc, Rn.
    subst ou oc on.
    now rewrite (createMembership_success now uid cid rank name db).
  - intros Hs.
    destruct (createMembership_store now req db)
      as [E | (uid & cid & name & Hu & Hc & Hn & Eu & Ec & Em & En & Hreq
               & _)]; [exact E|].
    exfalso. apply Hs. rewrite Hreq.
    now rewrite (createMembership_success now uid cid (req_Chapter_Rank req)
                   name db).
  - intros H. now rewrite createMembership_requires_fields.
Qed.

(** X18.  A membership that [createMembership] returned with 201 shows up
    in the listing of its chapter, and the listing of any other chapter is
    the one it was before. *)
Theorem createMembership_then_listed now req db r db' :
  createMembership now req db = (r, db') ->
  status r = 201 ->
  exists row rows,
    body r = JMembership true (Some row)
    /\ getMembershipsByChapter (Membership.Chapter_Id row) db'
       = mkReply 200 (PMemberships true rows)
    /\ In row rows
    /\ forall other,
         other <> Membership.Chapter_Id row ->
         getMembershipsByChapter other db' = getMembershipsByChapter other db.
Proof.
  intros Hrun Hs.
  destruct (createMembership_created now req db r db' Hrun Hs)
    as (row & -> & Hm & _ & Hc & _ & _ & _ & Hne & _ & Hex).
  exists row. eexists. split; [reflexivity|]. split; [|split].
  - apply getMembershipsByChapter_found; [assumption|].
    destruct Hex as [c [Hin H]]. exists c. now rewrite Hc.
  - apply (Permutation_in _ (Permutation_sym (order_by_perm _ _))).
    unfold memberships_by_Chapter_Id. apply filter_In. split.
    + rewrite Hm. apply in_or_app. right. now left.
    + apply String.eqb_refl.
  - intros other Hother.
    unfold getMembershipsByChapter, chapters_by_Chapter_Id,
      memberships_by_Chapter_Id.
    rewrite Hm, Hc, filter_app. cbn [filter].
    destruct (String.eqb_spec (Membership.Chapter_Id row) other) as [E | _].
    + now contradiction Hother.
    + now rewrite app_nil_r.
Qed.

Lemma createMembership_then_listed_witness :
  let '(r, db') :=
    createMembership "2024-02-01T00:00:00.000Z"
      (mkMembershipBody (Some (User.User_ID ann)) (Some "xyz789") None
         (Some "Berserker")) db_two_chapters in
  status r = 201
  /\ exists row rows,
       body r = JMembership true (Some row)
       /\ getMembershipsByChapter (Membership.Chapter_Id row) db'
          = mkReply 200 (PMemberships true rows)
       /\ In row rows.
Proof.
  destruct (createMembership "2024-02-01T00:00:00.000Z"
              (mkMembershipBody (Some (User.User_ID ann)) (Some "xyz789")
                 None (Some "Berserker")) db_two_chapters)
    as [r db'] eqn:E.
  assert (Hs : status r = 201).
  { vm_compute in E. injection E as <- _. reflexivity. }
  split; [exact Hs|].
  destruct (createMembership_then_listed _ _ _ _ _ E Hs)
    as (row & rows & H1 & H2 & H3 & _).
  now exists row, rows.
Defined.

Lemma getMembershipsByUser_unfold id db :
  id <> "" ->
  getMembershipsByUser id db =
  match users_by_User_ID id db with
  | [] => mkReply 404 (PJson (JMessage false "User not found"))
  | _ :: _ =>
      mkReply 200
        (PUserMemberships true
           (map joined_row
              (order_by (fun mc => Chapter.Chapter_Name (snd mc))
                 (memberships_join_chapters id db))))
  end.
Proof.
  intros H. unfold getMembershipsByUser.
  now rewrite (proj2 (falsy_false_iff id) H).
Qed.

(** Every row of the join pairs a membership of the user with the chapter
    it references. *)
Lemma join_rows id db m c :
  In (m, c) (memberships_join_chapters id db) ->
  In m (memberships db) /\ Membership.User_ID m = id
  /\ In c (chapters db) /\ Chapter.Chapter_Id c = Membership.Chapter_Id m.
Proof.
  unfold memberships_join_chapters. intros H.
  apply in_flat_map in H. destruct H as [m' [Hm H]].
  apply in_map_iff in H. destruct H as [c' [E Hc]].
  injection E as -> ->.
  apply filter_In in Hm. apply filter_In in Hc.
  destruct Hm as [Hm Hu], Hc as [Hc Hk].
  apply String.eqb_eq in Hu, Hk. now repeat split.
Qed.

(** With distinct chapter identifiers and resolving references the join
    keeps every membership, once. *)
Lemma join_keeps_memberships cs ms :
  NoDup (map Chapter.Chapter_Id cs) ->
  (forall m, In m ms ->
     exists c, In c cs /\ Chapter.Chapter_Id c = Membership.Chapter_Id m) ->
  map fst
    (flat_map
       (fun m =>
          map (fun c => (m, c))
            (filter (fun c => Membership.Chapter_Id m
                              =? Chapter.Chapter_Id c)%string cs)) ms)
  = ms.
Proof.
  intros Hnd. induction ms as [|m ms IH]; intros Href; [reflexivity|].
  cbn [flat_map]. rewrite map_app, IH by (intros; apply Href; now right).
  destruct (Href m (or_introl eq_refl)) as [c [Hc Hk]].
  rewrite (filter_ext _ (fun c' => Chapter.Chapter_Id c'
                                   =? Chapter.Chapter_Id c)%string).
  - now rewrite (filter_unique_key Chapter.Chapter_Id cs c Hnd Hc).
  - intros c'. rewrite Hk. apply String.eqb_sym.
Qed.

Lemma StronglySorted_map {A B : Type} (f : A -> B) (k : A -> string)
  (k' : B -> string) l :
  (forall a, k' (f a) = k a) ->
  StronglySorted (key_le k) l -> StronglySorted (key_le k') (map f l).
Proof.
  intros Hk. induction 1 as [|a l Hs IH Ha]; cbn [map]; constructor.
  - assumption.
  - rewrite Forall_forall in *. intros b Hb.
    apply in_map_iff in Hb. destruct Hb as [a' [<- Ha']].
    unfold key_le. rewrite !Hk. now apply Ha.
Qed.

(** X19.  For an existing user, [getMembershipsByUser] answers 200 with
    rows ordered by chapter name, each a membership of that user together
    with the name and description of the chapter it references; when
    chapter identifiers are pairwise distinct and every membership
    references an existing chapter, each membership of the user appears
    exactly once.  An unknown user gives 404 "User not found", an empty
    identifier 400. *)
Theorem getMembershipsByUser_lists_the_user id db :
  id <> "" ->
  (user_exists id db ->
   exists rows,
     getMembershipsByUser id db = mkReply 200 (PUserMemberships true rows)
     /\ StronglySorted (key_le row_chapter_name) rows
     /\ (forall m name description,
           In (m, name, description) rows ->
           In m (memberships db) /\ Membership.User_ID m = id
           /\ exists c, In c (chapters db)
                        /\ Chapter.Chapter_Id c = Membership.Chapter_Id m
                        /\ name = Chapter.Chapter_Name c
                        /\ description = Chapter.Chapter_Description c)
     /\ (NoDup (map Chapter.Chapter_Id (chapters db)) ->
         (forall m, In m (memberships db) ->
                    chapter_exists (Membership.Chapter_Id m) db) ->
         Permutation (map (fun row => fst (fst row)) rows)
           (filter (fun m => Membership.User_ID m =? id)%string
              (memberships db))))
  /\ (~ user_exists id db ->
      getMembershipsByUser id db
      = mkReply 404 (PJson (JMessage false "User not found")))
  /\ getMembershipsByUser "" db
     = mkReply 400 (PJson (JMessage false "User ID is required")).
Proof.
  intros Hid. split; [|split; [|reflexivity]].
  - intros Hex. eexists. split; [|split; [|split]].
    + rewrite getMembershipsByUser_unfold by assumption.
      apply user_rows_iff, rows_cons_iff in Hex.
      destruct Hex as [x [r E]]. unfold users_by_User_ID. rewrite E.
      reflexivity.
    + apply (StronglySorted_map joined_row
               (fun mc => Chapter.Chapter_Name (snd mc))).
      * reflexivity.
      * apply order_by_sorted.
    + intros m name description H.
      apply in_map_iff in H. destruct H as [[m' c] [E H]].
      unfold joined_row in E. cbn [fst snd] in E. injection E as -> <- <-.
      apply (Permutation_in _ (order_by_perm _ _)) in H.
      apply join_rows in H. destruct H as (Hm & Hu & Hc & Hk).
      split; [assumption|]. split; [assumption|].
      exists c. now repeat split.
    + intros Hnd Href. rewrite map_map.
      rewrite (map_ext (fun x => fst (fst (joined_row x))) fst)
        by reflexivity.
      rewrite (Permutation_map fst (order_by_perm _ _)).
      unfold memberships_join_chapters.
      rewrite join_keeps_memberships; [reflexivity | assumption |].
      intros m Hm. apply filter_In in Hm. destruct Hm as [Hm _].
      exact (Href m Hm).
  - intros Hno. rewrite getMembershipsByUser_unfold by assumption.
    unfold users_by_User_ID. rewrite filter_none; [reflexivity|].
    now rewrite user_rows_iff.
Qed.

Lemma getMembershipsByUser_lists_the_user_witness :
  bob_uuid <> "" /\ user_exists bob_uuid db_club
  /\ getMembershipsByUser bob_uuid db_club
     = mkReply 200
         (PUserMemberships true
            [(bob_in_alpha, "Alpha", "first chapter");
             (bob_in_beta, "Beta", "second chapter")]).
Proof.
  assert (Hid : bob_uuid <> "") by discriminate.
  assert (Hex : user_exists bob_uuid db_club)
    by (exists bob; split; [right; now left | reflexivity]).
  split; [exact Hid|]. split; [exact Hex|].
  destruct (proj1 (getMembershipsByUser_lists_the_user bob_uuid db_club Hid)
              Hex) as (rows & Hr & _).
  rewrite Hr. vm_compute in Hr. injection Hr as <-. reflexivity.
Defined.

(* ------------------------------------------------------------------ *)
(** ** Numerals in the query string *)

Lemma parse_digits_stop rest acc :
  ends_numeral rest -> parse_digits 10 rest (Some acc) = Some acc.
Proof.
  destruct rest as [|c r]; [reflexivity|]. intros (Hd & _).
  cbn [parse_digits]. now rewrite digit_value_non_decimal.
Qed.

Lemma parse_digits_uint d :
  forall rest a,
    ends_numeral rest ->
    parse_digits 10 (NilEmpty.string_of_uint d ++ rest)
      (Some (Z.of_nat a))
    = Some (Z.of_nat (Nat.of_uint_acc d a)).
Proof.
  induction d; intros rest a Hrest;
    cbn [NilEmpty.string_of_uint append Nat.of_uint_acc];
    [now apply parse_digits_stop| ..];
    cbn [parse_digits];
    match goal with
    | |- context [digit_value 10 ?c] =>
        change (digit_value 10 c) with (Some (Z.of_N (code c) - 48))
    end;
    rewrite <- (IHd rest) by assumption; f_equal; f_equal;
    match goal with
    | |- context [Z.of_N (code ?c)] =>
        let v := eval vm_compute in (Z.of_N (code c)) in
        change (Z.of_N (code c)) with v
    end;
    rewrite Nat.tail_mul_spec; lia.
Qed.

Lemma to_uint_not_nil n : Nat.to_uint n <> Decimal.Nil.
Proof.
  intros H. pose proof (Unsigned.of_to n) as E. rewrite H in E.
  cbn in E. subst n. discriminate H.
Qed.

Lemma parse_numeral_head d rest :
  d <> Decimal.Nil -> ends_numeral rest ->
  let s := (NilEmpty.string_of_uint d ++ rest)%string in
  match s with
  | String c _ => is_space c = false
  | EmptyString => True
  end
  /\ trim_start s = s /\ sign_of s = (1, s) /\ radix_of s = (10, s)
  /\ parse_digits 10 s None = parse_digits 10 s (Some 0).
Proof.
  intros Hd Hrest s. subst s.
  destruct d as [|d|d|d|d|d|d|d|d|d|d]; [now contradiction Hd| ..];
    (repeat split; try reflexivity);
    cbn [NilEmpty.string_of_uint append];
    destruct (NilEmpty.string_of_uint d ++ rest)%string as [|x r] eqn:E;
    try reflexivity.
  assert (Hx : (x =? "x")%char || (x =? "X")%char = false).
  { destruct d; cbn [NilEmpty.string_of_uint append] in E;
      try (injection E as <- _; reflexivity).
    subst rest. destruct Hrest as (_ & Hx & HX). now rewrite Hx, HX. }
  cbn [radix_of]. rewrite Hx. reflexivity.
Qed.

Lemma mathInt_numeral n rest :
  ends_numeral rest ->
  sign_of (decimal n ++ rest) = (1, (decimal n ++ rest)%string)
  /\ match (decimal n ++ rest)%string with
     | String c _ => is_space c = false
     | EmptyString => True
     end
  /\ (let '(radix, s) := radix_of (decimal n ++ rest) in
      parse_digits radix s None) = Some (Z.of_nat n).
Proof.
  intros Hrest. unfold decimal.
  destruct (parse_numeral_head (Nat.to_uint n) rest (to_uint_not_nil n)
              Hrest) as (Hh & _ & Hs & Hr & Hp).
  split; [exact Hs|]. split; [exact Hh|].
  rewrite Hr, Hp.
  change 0 with (Z.of_nat 0).
  rewrite parse_digits_uint by assumption.
  fold (Nat.of_uint (Nat.to_uint n)). now rewrite Unsigned.of_to.
Qed.

Lemma trim_start_spaces ws s :
  all_chars is_space ws = true ->
  match s with
  | String c _ => is_space c = false
  | EmptyString => True
  end ->
  trim_start (ws ++ s) = s.
Proof.
  induction ws as [|c ws IH]; intros Hws Hs.
  - destruct s as [|c r]; [reflexivity|]. cbn. now rewrite Hs.
  - cbn in Hws. apply andb_true_iff in Hws. destruct Hws as [Hc Hws].
    cbn. rewrite Hc. now apply IH.
Qed.

Lemma mathInt_decimal n rest :
  ends_numeral rest -> mathInt (decimal n ++ rest) = Some (Z.of_nat n).
Proof.
  intros Hrest.
  destruct (mathInt_numeral n rest Hrest) as (Hs & Hhead & Hp).
  unfold mathInt.
  pose proof (trim_start_spaces "" (decimal n ++ rest) eq_refl Hhead) as Ht.
  cbn [append] in Ht. rewrite Ht, Hs.
  destruct (radix_of (decimal n ++ rest)) as [radix s].
  rewrite Hp. f_equal; lia.
Qed.

Lemma mathInt_signed_decimal n ws rest :
  all_chars is_space ws = true -> ends_numeral rest ->
  mathInt (ws ++ decimal n ++ rest) = Some (Z.of_nat n)
  /\ mathInt (ws ++ "+" ++ decimal n ++ rest) = Some (Z.of_nat n)
  /\ mathInt (ws ++ "-" ++ decimal n ++ rest) = Some (- Z.of_nat n).
Proof.
  intros Hws Hrest.
  destruct (mathInt_numeral n rest Hrest) as (Hs & Hhead & Hp).
  unfold mathInt. repeat split.
  - rewrite trim_start_spaces by assumption.
    rewrite Hs.
    destruct (radix_of (decimal n ++ rest)) as [radix s].
    rewrite Hp. f_equal; lia.
  - rewrite trim_start_spaces by (assumption || reflexivity).
    cbn [append sign_of]. cbn [Ascii.eqb Bool.eqb].
    destruct (radix_of (decimal n ++ rest)) as [radix s].
    rewrite Hp. f_equal; lia.
  - rewrite trim_start_spaces by (assumption || reflexivity).
    cbn [append sign_of]. cbn [Ascii.eqb Bool.eqb].
    destruct (radix_of (decimal n ++ rest)) as [radix s].
    rewrite Hp. f_equal; lia.
Qed.

(** X20.  [parseInt] reads the decimal numeral of a natural number [n] as
    the double of [n]: leading white space is skipped, a minus sign
    negates, and what follows the numeral is ignored as long as it does
    not start with a digit or with the [x] of a hexadecimal prefix.  Up to
    [2^53] the double of [n] is [n], so [page=2abc] is page 2; beyond, it
    is [n] rounded. *)
Theorem parseInt_reads_decimal n ws rest :
  all_chars is_space ws = true -> ends_numeral rest ->
  parseInt (ws ++ decimal n ++ rest) = number_of_int (Z.of_nat n)
  /\ parseInt (ws ++ "+" ++ decimal n ++ rest) = number_of_int (Z.of_nat n)
  /\ parseInt (ws ++ "-" ++ decimal n ++ rest)
     = number_of_int (- Z.of_nat n)
  /\ (Z.of_nat n <= 2 ^ 53 ->
      parseInt (ws ++ decimal n ++ rest) = Finite (Z.of_nat n)
      /\ parseInt (ws ++ "+" ++ decimal n ++ rest) = Finite (Z.of_nat n)
      /\ parseInt (ws ++ "-" ++ decimal n ++ rest)
         = Finite (- Z.of_nat n)).
Proof.
  intros Hws Hrest.
  destruct (mathInt_signed_decimal n ws rest Hws Hrest) as (H1 & H2 & H3).
  unfold parseInt. rewrite H1, H2, H3.
  split; [reflexivity|]. split; [reflexivity|]. split; [reflexivity|].
  intros Hn. rewrite !number_of_int_exact by lia. auto.
Qed.

Lemma parseInt_reads_decimal_witness :
  all_chars is_space " " = true /\ ends_numeral "abc"
  /\ parseInt " 2abc" = Finite 2 /\ parseInt " -2abc" = Finite (-2)
  /\ parseInt "9007199254740993" = Finite 9007199254740992.
Proof.
  assert (Hws : all_chars is_space " " = true) by reflexivity.
  assert (Hr : ends_numeral "abc") by (repeat split).
  destruct (parseInt_reads_decimal 2 " " "abc" Hws Hr)
    as (_ & _ & _ & H).
  destruct H as (H1 & _ & H3); [rewrite pow2_53; lia|].
  split; [exact Hws|]. split; [exact Hr|]. split; [exact H1|].
  split; [exact H3|]. vm_compute. reflexivity.
Defined.

(* ------------------------------------------------------------------ *)
(** ** The pages of the listing, put together *)

Lemma firstn_add_skipn {A : Type} (a b : nat) :
  forall l : list A, firstn (a + b) l = firstn a l ++ firstn b (skipn a l).
Proof.
  induction a as [|a IH]; intros l; [reflexivity|].
  destruct l as [|x l]; cbn [Nat.add firstn skipn app].
  - now rewrite firstn_nil.
  - now rewrite IH.
Qed.

Lemma pages_concat {A : Type} (L : nat) (l : list A) (t : nat) :
  flat_map (fun p => firstn L (skipn ((p - 1) * L) l)) (seq 1 t)
  = firstn (t * L) l.
Proof.
  induction t as [|t IH]; [reflexivity|].
  rewrite seq_S, flat_map_app, IH. cbn [flat_map].
  rewrite app_nil_r.
  replace (1 + t - 1)%nat with t by lia.
  replace (S t * L)%nat with (t * L + L)%nat by lia.
  now rewrite firstn_add_skipn.
Qed.

Lemma getChapters_page (p L : nat) db :
  (1 <= p)%nat -> (1 <= L)%nat ->
  Z.of_nat p <= 2 ^ 53 -> Z.of_nat L <= 2 ^ 53 ->
  (Z.of_nat p - 1) * Z.of_nat L <= 2 ^ 53 ->
  getChapters (Some (decimal p)) (Some (decimal L)) db
  = mkResponse 200
      (JChapters
         (map id_and_name
            (firstn L (skipn ((p - 1) * L)
                         (order_by_Chapter_Name (chapters db)))))
         (Z.of_nat (length (chapters db))) (Z.of_nat p) (Z.of_nat L)
         (ceil_div (Z.of_nat (length (chapters db))) (Z.of_nat L))).
Proof.
  intros Hp HL Hp53 HL53 Ho.
  pose proof pow2_53 as E53. pose proof pow2_63 as E63.
  assert (Hparse : forall n, Z.of_nat n <= 2 ^ 53 ->
                             parseInt (decimal n) = Finite (Z.of_nat n)).
  { intros n Hn. apply mathInt_parseInt; [|lia].
    rewrite <- (string_append_nil_r (decimal n)).
    now apply mathInt_decimal. }
  rewrite (getChapters_listing _ _ (Z.of_nat p) (Z.of_nat L) db).
  - unfold limit_offset. rewrite (proj2 (Z.ltb_ge _ 0)) by lia.
    rewrite Nat2Z.id.
    replace (Z.to_nat ((Z.of_nat p - 1) * Z.of_nat L))
      with ((p - 1) * L)%nat by nia.
    reflexivity.
  - cbn [ToString]. rewrite Hparse by assumption.
    apply or_number_nonzero. lia.
  - cbn [ToString]. rewrite Hparse by assumption.
    apply or_number_nonzero. lia.
  - lia.
  - nia.
  - lia.
Qed.

Lemma flat_map_ext_in {A B : Type} (f g : A -> list B) (l : list A) :
  (forall a, In a l -> f a = g a) -> flat_map f l = flat_map g l.
Proof.
  induction l as [|a l IH]; intros H; [reflexivity|].
  cbn [flat_map]. rewrite (H a (or_introl eq_refl)). f_equal.
  apply IH. intros b Hb. apply H. now right.
Qed.

Lemma flat_map_map_out {A B C : Type} (f : B -> C) (g : A -> list B) l :
  flat_map (fun a => map f (g a)) l = map f (flat_map g l).
Proof.
  induction l as [|a l IH]; [reflexivity|].
  cbn [flat_map]. now rewrite map_app, IH.
Qed.

(** X21.  The pages of the listing put end to end are the whole table in
    name order: for a page size [L] with [1 <= L <= 2^53], over a table of
    at most [2^53] chapters, the chapter lists of the requests [page=1],
    ..., [page=totalPages] (with [limit=L]) concatenate to the identifier
    and name of every chapter, each once, sorted by name. *)
Theorem getChapters_pages_cover_the_table (L : nat) db :
  (1 <= L)%nat -> Z.of_nat L <= 2 ^ 53 ->
  Z.of_nat (length (chapters db)) <= 2 ^ 53 ->
  let totalPages :=
    Z.to_nat (ceil_div (Z.of_nat (length (chapters db))) (Z.of_nat L)) in
  flat_map
    (fun p => page_rows (getChapters (Some (decimal p)) (Some (decimal L)) db))
    (seq 1 totalPages)
  = map id_and_name (order_by_Chapter_Name (chapters db)).
Proof.
  intros HL HL53 HN totalPages.
  pose proof (ceil_div_bounds (Z.of_nat (length (chapters db)))
                (Z.of_nat L)) as Hc.
  rewrite (flat_map_ext_in _
             (fun p => map id_and_name
                         (firstn L (skipn ((p - 1) * L)
                            (order_by_Chapter_Name (chapters db)))))).
  - rewrite flat_map_map_out, pages_concat, firstn_all2; [reflexivity|].
    rewrite (Permutation_length (order_by_Chapter_Name_perm _)).
    subst totalPages. nia.
  - intros p Hp. apply in_seq in Hp. subst totalPages.
    rewrite getChapters_page; [reflexivity | lia | lia | nia | lia | nia].
Qed.

Lemma getChapters_pages_cover_the_table_witness :
  (1 <= 2)%nat
  /\ Z.of_nat 2 <= 2 ^ 53
  /\ Z.of_nat (length (chapters db_five)) <= 2 ^ 53
  /\ page_rows (getChapters (Some "1") (Some "2") db_five)
     ++ page_rows (getChapters (Some "2") (Some "2") db_five)
     ++ page_rows (getChapters (Some "3") (Some "2") db_five)
     = [("aaaaa4", "Austin"); ("aaaaa2", "Bergen"); ("aaaaa3", "Hamburg");
        ("aaaaa5", "Malmo"); ("aaaaa1", "Oslo")].
Proof.
  assert (HL : (1 <= 2)%nat) by lia.
  assert (H2 : Z.of_nat 2 <= 2 ^ 53) by (rewrite pow2_53; lia).
  assert (H5 : Z.of_nat (length (chapters db_five)) <= 2 ^ 53)
    by (rewrite pow2_53; cbn; lia).
  split; [exact HL|]. split; [exact H2|]. split; [exact H5|].
  pose proof (getChapters_pages_cover_the_table 2 db_five HL H2 H5) as H.
  vm_compute in H. vm_compute. exact H.
Defined.

(* ------------------------------------------------------------------ *)
(** ** The handlers together *)

(** X22.  What [createUser] and [createChapter] return is what
    [createMembership] asks for: in a store whose memberships reference
    existing users, after a 201 of [createUser] and a 201 of
    [createChapter] (with [Math.random()] in [0, 1)), a membership request
    with the generated user identifier, the identifier of the returned
    chapter and a display name that is free up to case answers 201 with a
    "pending" row for that pair. *)
Theorem join_after_creating_user_and_chapter
  uuid now requ db seq ru db1 seq1
  rnd k uuid' now' reqc rc db2 k'
  now'' rank name :
  (forall m, In m (memberships db) ->
             user_exists (Membership.User_ID m) db) ->
  in_unit_interval rnd ->
  uuid <> "" -> name <> "" -> ~ warrior_name_taken name db ->
  createUser uuid now requ db seq = (ru, db1, seq1) ->
  reply_status ru = 201 ->
  createChapter rnd k uuid' now' reqc db1 = (rc, db2, k') ->
  status rc = 201 ->
  exists c row,
    body rc = JChapter c
    /\ fst (createMembership now''
              (mkMembershipBody (Some uuid) (Some (Chapter.Chapter_Id c))
                 rank (Some name)) db2)
       = mkResponse 201 (JMembership true (Some row))
    /\ Membership.User_ID row = uuid
    /\ Membership.Chapter_Id row = Chapter.Chapter_Id c
    /\ Membership.Warrior_Name row = name
    /\ Membership.Chapter_Status row = "pending".
Proof.
  intros Href Hrnd Huuid Hname Hfree Hu Hsu Hc Hsc.
  destruct (createUser_created uuid now requ db seq)
    as (g & e & r & _ & _ & _ & _ & _ & _ & Hnew & Hu').
  { now rewrite Hu. }
  rewrite Hu in Hu'. injection Hu' as _ -> _.
  destruct (createChapter_store rnd k uuid' now' reqc
              {| users := users db ++ [new_user uuid now g e r db seq];
                 chapters := chapters db;
                 memberships := memberships db;
                 memberships_seq := memberships_seq db |})
    as [[_ Hn] | (c & E & Ec & _ & _ & _)];
    rewrite Hc in *; cbn [fst snd] in *; [contradiction|].
  injection E as -> ->.
  assert (Hcid : Chapter.Chapter_Id c = drawn_id rnd k).
  { rewrite Ec.
    pose proof (id_pattern_nonempty _ (drawn_id_pattern rnd k Hrnd)) as Hne.
    destruct (new_chapter_fields uuid' now' (drawn_id rnd k) reqc
                {| users := users db ++ [new_user uuid now g e r db seq];
                   chapters := chapters db;
                   memberships := memberships db;
                   memberships_seq := memberships_seq db |})
      as (_ & _ & _ & FCid). now apply FCid. }
  assert (Hcne : Chapter.Chapter_Id c <> "").
  { rewrite Hcid.
    exact (id_pattern_nonempty _ (drawn_id_pattern rnd k Hrnd)). }
  exists c.
  set (db2 := {| users := users db ++ [new_user uuid now g e r db seq];
                 chapters := chapters db ++ [c];
                 memberships := memberships db;
                 memberships_seq := memberships_seq db |}).
  assert (Eu : user_exists uuid db2).
  { exists (new_user uuid now g e r db seq). split; [|reflexivity].
    cbn [db2 users]. apply in_or_app. right. now left. }
  assert (Ech : chapter_exists (Chapter.Chapter_Id c) db2).
  { exists c. split; [|reflexivity].
    cbn [db2 chapters]. apply in_or_app. right. now left. }
  assert (Em : ~ is_member uuid (Chapter.Chapter_Id c) db2).
  { intros [m [Hm [Hmu _]]]. cbn [db2 memberships] in Hm.
    apply Hnew. rewrite <- Hmu. now apply Href. }
  assert (En : ~ warrior_name_taken name db2) by exact Hfree.
  eexists. split; [reflexivity|]. split.
  - rewrite (createMembership_success now'' uuid (Chapter.Chapter_Id c) rank
               name db2 Huuid Hcne Hname Eu Ech Em En).
    reflexivity.
  - destruct (new_membership_fields now'' uuid (Chapter.Chapter_Id c) rank
                name Huuid Hcne Hname) as (Fu & Fc & Fn).
    cbn [Membership.with_ID Membership.User_ID Membership.Chapter_Id
         Membership.Warrior_Name Membership.Chapter_Status].
    repeat split; assumption.
Qed.

Lemma join_after_creating_user_and_chapter_witness :
  let '(ru, db1, seq1) :=
    createUser bob_uuid 1706745600000 req_bob db_joined 7 in
  let '(rc, db2, k') :=
    createChapter rnd_cycle 0 "3b241101-e2bb-4255-8caf-4136c566a962"
      "2024-03-01T00:00:00.000Z" req_Delta db1 in
  reply_status ru = 201 /\ status rc = 201
  /\ exists c row,
       body rc = JChapter c
       /\ fst (createMembership "2024-03-02T00:00:00.000Z"
                 (mkMembershipBody (Some bob_uuid)
                    (Some (Chapter.Chapter_Id c)) None (Some "Axe")) db2)
          = mkResponse 201 (JMembership true (Some row))
       /\ Membership.Chapter_Status row = "pending".
Proof.
  destruct (createUser bob_uuid 1706745600000 req_bob
              db_joined 7) as [[ru db1] seq1] eqn:Eu.
  destruct (createChapter rnd_cycle 0 "3b241101-e2bb-4255-8caf-4136c566a962"
              "2024-03-01T00:00:00.000Z" req_Delta db1)
    as [[rc db2] k'] eqn:Ec.
  assert (Hsu : reply_status ru = 201).
  { vm_compute in Eu. injection Eu as <- _ _. reflexivity. }
  assert (Hsc : status rc = 201).
  { vm_compute in Eu. injection Eu as _ <- _.
    vm_compute in Ec. injection Ec as <- _ _. reflexivity. }
  split; [exact Hsu|]. split; [exact Hsc|].
  destruct (join_after_creating_user_and_chapter
              bob_uuid 1706745600000 req_bob db_joined 7
              ru db1 seq1 rnd_cycle 0%nat
              "3b241101-e2bb-4255-8caf-4136c566a962"
              "2024-03-01T00:00:00.000Z" req_Delta rc db2 k'
              "2024-03-02T00:00:00.000Z" None "Axe")
    as (c & row & H1 & H2 & _ & _ & _ & H3);
    try assumption; try discriminate.
  - intros m [<- | []]. exists ann. split; [now left | reflexivity].
  - exact rnd_cycle_in_unit_interval.
  - intros [m [[<- | []] H]]. apply LOWER_eq_iff in H. discriminate H.
  - now exists c, row.
Defined.
